(** * dm_int_tools: the chunked scan / repair engine of [main.c]

    A shallow embedding of [src/main.c] (the utility that checks, repairs and
    formats a device, and dumps the dm-integrity superblock) and the
    properties of it that the specification states.

    The program is a sequence of system calls whose results decide every
    branch.  The embedding therefore runs the C functions against an
    arbitrary kernel: a transition function from a system call and a state
    of the world to a reply and a new state of the world.  Every function
    returns the list of the events it caused (system calls with their
    replies, [printf] calls, [fflush], [free]), so that what the program
    does or does not do is a property of that list.

    Integers are [Z] with the wrap-around of the C type written out;
    [double] is the binary64 type of Rocq's primitive floats. *)

From Stdlib Require Import ZArith List String Ascii Bool Lia.
From Stdlib Require Import Floats.PrimFloat Floats.FloatOps Floats.SpecFloat.
Import ListNotations.
Open Scope Z_scope.

(* ================================================================== *)
(** * Machine integers *)
(* ================================================================== *)

Definition u64 (z : Z) : Z := z mod 2 ^ 64.
Definition u32 (z : Z) : Z := z mod 2 ^ 32.

(** Conversion to a signed 64-bit type ([ssize_t], [off64_t], [long]). *)
Definition s64 (z : Z) : Z :=
  let u := z mod 2 ^ 64 in if u <? 2 ^ 63 then u else u - 2 ^ 64.

(** Conversion to [int]. *)
Definition s32 (z : Z) : Z :=
  let u := z mod 2 ^ 32 in if u <? 2 ^ 31 then u else u - 2 ^ 32.

(** Conversion of a byte to [int8_t]. *)
Definition s8 (z : Z) : Z :=
  let u := z mod 2 ^ 8 in if u <? 2 ^ 7 then u else u - 2 ^ 8.

(* ================================================================== *)
(** * Constants *)
(* ================================================================== *)

Definition SECTOR_SIZE : Z := 512.
Definition SB_VERSION : Z := 1.

Definition EXIT_SUCCESS : Z := 0.
Definition EXIT_FAILURE : Z := 1.

(** Values of <fcntl.h> and <errno.h> on Linux x86-64. *)
Definition O_RDONLY : Z := 0.
Definition O_RDWR : Z := 2.
Definition O_ACCMODE : Z := 3.
Definition O_DIRECT : Z := 16384.
Definition EINTR : Z := 4.
Definition EIO : Z := 5.
Definition EINVAL : Z := 22.
Definition EILSEQ : Z := 84.

(* ================================================================== *)
(** * Strings printed by the program *)
(* ================================================================== *)

Definition chr (n : nat) : string := String (ascii_of_nat n) EmptyString.
Definition nl : string := chr 10.

(** ["\33[2K\r"]: the vt100 sequence that clears the line. *)
Definition fmt_clear_line : string := (chr 27 ++ "[2K" ++ chr 13)%string.

(** [PRIu64] is ["lu"]. *)
Definition fmt_finished : string :=
  ("Finished, time %02llu:%02llu.%03llu, %4llu MiB written, speed %5.1f MiB/s" ++ nl)%string.
Definition fmt_progress : string :=
  "Progress: %5.1f%%, ETA %02llu:%02llu, %4llu MiB written, speed %5.1f MiB/s"%string.
Definition fmt_seek_error : string :=
  ("Seek error, sector %lu (Errno %d)." ++ nl)%string.
Definition fmt_error_sector : string :=
  ("Error sector %lu (Errno %d)." ++ nl)%string.
Definition fmt_io_error : string := ("IO error sector %lu." ++ nl)%string.
Definition fmt_wiped : string := ("Bad sector %lu wiped." ++ nl)%string.
Definition fmt_wipe : string := ("Wipe %lu-%lu" ++ nl)%string.
Definition fmt_write_error : string := ("Write error, sector %lu." ++ nl)%string.
Definition fmt_fsync : string := ("FSYNC failed, errno %d." ++ nl)%string.
Definition fmt_no_header : string := ("No header detected in %s." ++ nl)%string.
Definition fmt_info : string := ("Info for integrity device %s." ++ nl)%string.
Definition fmt_log2 : string := ("log2_interleave_sectors %d" ++ nl)%string.
Definition fmt_tag_size : string := ("integrity_tag_size %u" ++ nl)%string.
Definition fmt_journal : string := ("journal_sections %u" ++ nl)%string.
Definition fmt_provided : string := ("provided_data_sectors %lu" ++ nl)%string.
Definition fmt_running : string := ("Running check %s." ++ nl)%string.

(** Whether a string ends with a newline. *)
Fixpoint ends_with_newline (s : string) : bool :=
  match s with
  | EmptyString => false
  | String c EmptyString => Ascii.eqb c (ascii_of_nat 10)
  | String _ rest => ends_with_newline rest
  end.

(* ================================================================== *)
(** * Doubles *)
(* ================================================================== *)

(** Conversion of an integer to [double], rounding to nearest even. *)
Definition double_of_Z (z : Z) : float :=
  SF2Prim (binary_normalize prec emax z 0 false).

(** Conversion of a [double] to [unsigned long long]: truncation towards
    zero.  C leaves the conversion undefined when the truncated value is
    not representable; the model returns [None] there. *)
Definition ull_of_double (f : float) : option Z :=
  match Prim2SF f with
  | S754_zero _ => Some 0
  | S754_finite s m e =>
      let mag := if 0 <=? e then Zpos m * 2 ^ e else Zpos m / 2 ^ (- e) in
      let v := if s then - mag else mag in
      if (0 <=? v) && (v <? 2 ^ 64) then Some v else None
  | _ => None
  end.

(** [floor] of <math.h>. *)
Definition floor (f : float) : float :=
  match Prim2SF f with
  | S754_finite s m e =>
      if 0 <=? e then f
      else
        let q := Zpos m / 2 ^ (- e) in
        let exact := Zpos m mod 2 ^ (- e) =? 0 in
        if s then (if exact then f else double_of_Z (- q - 1))
        else double_of_Z q
  | _ => f
  end.

(** [!x] on a double. *)
Definition fzero (f : float) : bool := PrimFloat.eqb f PrimFloat.zero.

(* ================================================================== *)
(** * Bytes *)
(* ================================================================== *)

Fixpoint decode_le (l : list Z) : Z :=
  match l with
  | [] => 0
  | b :: rest => b + 256 * decode_le rest
  end.

Fixpoint encode_le (n : nat) (z : Z) : list Z :=
  match n with
  | O => []
  | S n' => z mod 256 :: encode_le n' (z / 256)
  end.

Fixpoint list_eqb (a b : list Z) : bool :=
  match a, b with
  | [], [] => true
  | x :: a', y :: b' => (x =? y) && list_eqb a' b'
  | _, _ => false
  end.

(** [SB_MAGIC] is the string literal ["integrt"]: seven characters and
    the terminating zero. *)
Definition SB_MAGIC : list Z :=
  map (fun c => Z.of_nat (nat_of_ascii c)) (list_ascii_of_string "integrt") ++ [0].

(* ================================================================== *)
(** * System calls, replies and events *)
(* ================================================================== *)

Record timeval : Type := mk_timeval { tv_sec : Z; tv_usec : Z }.

Inductive syscall : Type :=
| SysMemalign (alignment size : Z)          (* posix_memalign *)
| SysStat (path : string)
| SysOpen (path : string) (flags : Z)
| SysIoctlSize (fd : Z)                     (* ioctl(fd, BLKGETSIZE64, ..) *)
| SysLseek (fd off : Z)                     (* lseek64(fd, off, SEEK_SET) *)
| SysRead (fd count : Z)
| SysWrite (fd count : Z)
| SysFsync (fd : Z)
| SysClose (fd : Z)
| SysGetrandom (len : Z)
| SysGettimeofday.

(** What a system call hands back besides its return value. *)
Inductive payload : Type :=
| NoData
| Val (z : Z)                (* the size stored by the ioctl, a pointer *)
| Bytes (l : list Z)         (* the bytes stored by read *)
| Time (tv : timeval).       (* the time stored by gettimeofday *)

(** [ret]: the return value; [err]: the value of [errno] when the call
    has returned; [data]: what the call stored through its pointer. *)
Record reply : Type := mk_reply { ret : Z; err : Z; data : payload }.

Inductive printf_arg : Type :=
| PU64 (v : Z)               (* %lu *)
| PInt (v : Z)               (* %d *)
| PUInt (v : Z)              (* %u *)
| PULL (v : option Z)        (* %llu; None: conversion undefined in C *)
| PDouble (f : float)        (* %f *)
| PStr (s : string).         (* %s *)

Inductive event : Type :=
| Sys (c : syscall) (r : reply)
| Printf (fmt : string) (args : list printf_arg)
| Fflush
| Free.

Inductive dev_command : Type := DEV_CHECK | DEV_FIX | DEV_FORMAT.

(** The process-wide settings that [main] fills from the command line. *)
Record config : Type := mk_config {
  _debug : bool;
  _randomize : bool;
  open_flags : Z;
  block_sectors : Z
}.

Definition default_config : config :=
  {| _debug := false; _randomize := false;
     open_flags := O_DIRECT; block_sectors := 8192 |}.

(** The options of [main], after [getopt_long] and [atoll]. *)
Inductive option_arg : Type :=
| OptB (tmpll : Z) | OptN | OptD | OptR | OptH.

(** One round of the option loop of [main]; [None] is [help()], which
    exits.  [block_sectors] is an [unsigned int]. *)
Definition set_option (o : option_arg) (c : config) : option config :=
  match o with
  | OptB tmpll =>
      let bs := u32 (u64 tmpll) in
      if (tmpll <=? 0) || negb (tmpll =? bs) then None
      else Some (mk_config (_debug c) (_randomize c) (open_flags c) bs)
  | OptN => Some (mk_config (_debug c) (_randomize c) 0 (block_sectors c))
  | OptD => Some (mk_config true (_randomize c) (open_flags c) (block_sectors c))
  | OptR => Some (mk_config (_debug c) true (open_flags c) (block_sectors c))
  | OptH => None
  end.

Fixpoint parse_options (os : list option_arg) (c : config) : option config :=
  match os with
  | [] => Some c
  | o :: rest =>
      match set_option o c with
      | Some c' => parse_options rest c'
      | None => None
      end
  end.

(** How a run of the model ends. *)
Inductive outcome (A : Type) : Type :=
| Done (a : A)        (* the function returned [a] *)
| Abort               (* an [assert] failed: the process is killed *)
| Timeout.            (* the model ran out of fuel *)
Arguments Done {A} a.
Arguments Abort {A}.
Arguments Timeout {A}.

(* ================================================================== *)
(** * The program *)
(* ================================================================== *)

Section Program.

(** The kernel the program runs against. *)
Variable World : Type.
Variable kernel : syscall -> World -> reply * World.

(** The settings [main] has parsed. *)
Variable cfg : config.

(** The state of the process: the world, and the static variables of
    [print_progress]. *)
Record St : Type := mk_St {
  world : World;
  start_time : timeval;
  now_time : timeval;
  end_time : timeval
}.

Definition init_St (w : World) : St :=
  mk_St w (mk_timeval 0 0) (mk_timeval 0 0) (mk_timeval 0 0).

Definition M (A : Type) : Type := St -> list event * St * outcome A.

Definition pure {A} (a : A) : M A := fun s => ([], s, Done a).

Definition bind {A B} (m : M A) (f : A -> M B) : M B :=
  fun s =>
    match m s with
    | (t1, s1, Done a) =>
        match f a s1 with
        | (t2, s2, r) => (t1 ++ t2, s2, r)
        end
    | (t1, s1, Abort) => (t1, s1, Abort)
    | (t1, s1, Timeout) => (t1, s1, Timeout)
    end.

Notation "x <- m ;; k" := (bind m (fun x => k))
  (at level 61, m at next level, right associativity).
Notation "m ;;; k" := (bind m (fun _ => k))
  (at level 61, right associativity).

Definition abort {A} : M A := fun s => ([], s, Abort).
Definition timeout {A} : M A := fun s => ([], s, Timeout).
Definition emit (e : event) : M unit := fun s => ([e], s, Done tt).

(** A system call: the kernel answers, the world moves on. *)
Definition call (c : syscall) : M reply :=
  fun s =>
    match kernel c (world s) with
    | (r, w) =>
        ([Sys c r], mk_St w (start_time s) (now_time s) (end_time s), Done r)
    end.

Definition printf (fmt : string) (args : list printf_arg) : M unit :=
  emit (Printf fmt args).

Definition when (b : bool) (m : M unit) : M unit := if b then m else pure tt.

(** [log_dbg(x...)] is [if (_debug) printf(x);]. *)
Definition log_dbg (fmt : string) (args : list printf_arg) : M unit :=
  when (_debug cfg) (printf fmt args).

Definition trace {A} (x : list event * St * outcome A) : list event :=
  fst (fst x).
Definition final {A} (x : list event * St * outcome A) : St := snd (fst x).
Definition result {A} (x : list event * St * outcome A) : outcome A := snd x.

(* ------------------------------------------------------------------ *)
(** ** [aligned_malloc], [get_random], [init_sector] *)
(* ------------------------------------------------------------------ *)

(** [posix_memalign(base, 8192, size) ? NULL : *base]; the result is the
    pointer, 0 for NULL.  [size] is an [int] that becomes a [size_t]. *)
Definition aligned_malloc (size : Z) : M Z :=
  r <- call (SysMemalign 8192 (u64 (s32 size))) ;;
  pure (if ret r =? 0
        then match data r with Val p => p | _ => 0 end
        else 0).

(** The loop of [get_random]; [r] is an [int], [(size_t)r] sign-extends.
    The contents of the buffer are not tracked. *)
Fixpoint get_random (fuel : nat) (buf_size : Z) : M unit :=
  match fuel with
  | O => timeout
  | S fuel' =>
      rep <- call (SysGetrandom buf_size) ;;
      let r := s32 (ret rep) in
      if negb (u64 r <=? buf_size) then abort
      else if negb ((err rep =? 0) || (err rep =? EINTR)) then abort
      else
        let buf_size' := if 0 <? r then u64 (buf_size - r) else buf_size in
        if buf_size' =? 0 then pure tt else get_random fuel' buf_size'
  end.

(** [memset] causes no event. *)
Definition init_sector (fuel : nat) : M unit :=
  if _randomize cfg then get_random fuel SECTOR_SIZE else pure tt.

(* ------------------------------------------------------------------ *)
(** ** [time_diff], [clear_line], [print_progress] *)
(* ------------------------------------------------------------------ *)

Definition time_diff (start end_ : timeval) : float :=
  PrimFloat.add
    (double_of_Z (s64 (tv_sec end_ - tv_sec start)))
    (PrimFloat.div (double_of_Z (s64 (tv_usec end_ - tv_usec start)))
                   (double_of_Z 1000000)).

Definition clear_line : M unit := printf fmt_clear_line [].

Definition gettimeofday_now : M unit :=
  r <- call SysGettimeofday ;;
  fun s =>
    ([], mk_St (world s) (start_time s)
               (match data r with Time tv => tv | _ => now_time s end)
               (end_time s), Done tt).

Definition set_start_end : M unit :=
  fun s => ([], mk_St (world s) (now_time s) (now_time s) (now_time s), Done tt).

Definition set_end : M unit :=
  fun s => ([], mk_St (world s) (start_time s) (now_time s) (now_time s), Done tt).

Definition get_St : M St := fun s => ([], s, Done s).

Definition timeval_is_zero (t : timeval) : bool :=
  (tv_sec t =? 0) && (tv_usec t =? 0).

Definition half : float := PrimFloat.div PrimFloat.one PrimFloat.two.

(** The average throughput [mib] of lines 150-151. *)
Definition mib_of (bytes : Z) (tdiff : float) : float :=
  PrimFloat.div (double_of_Z (bytes / 1024 / 1024)) tdiff.

(** The estimate of line 156; the division by [mib] is here. *)
Definition eta_of (device_size : Z) (mib tdiff : float) : option Z :=
  ull_of_double
    (PrimFloat.sub
       (PrimFloat.div (double_of_Z (device_size / 1024 / 1024)) mib) tdiff).

Definition ull_div (a : option Z) (b : Z) : option Z :=
  match a with Some v => Some (v / b) | None => None end.
Definition ull_mod (a : option Z) (b : Z) : option Z :=
  match a with Some v => Some (v mod b) | None => None end.

(** Lines 159-170: the line that is printed, with its arguments. *)
Definition report_line (device_size bytes : Z) (final_ : bool) (tdiff : float)
    : event :=
  let mbytes := bytes / 1024 / 1024 in
  let mib := mib_of bytes tdiff in
  let eta := eta_of device_size mib tdiff in
  if final_
  then Printf fmt_finished
         [PULL (ull_div (ull_of_double tdiff) 60);
          PULL (ull_mod (ull_of_double tdiff) 60);
          PULL (ull_of_double
                  (PrimFloat.mul (PrimFloat.sub tdiff (floor tdiff))
                                 (double_of_Z 1000)));
          PULL (Some mbytes); PDouble mib]
  else Printf fmt_progress
         [PDouble (PrimFloat.mul
                     (PrimFloat.div (double_of_Z bytes)
                                    (double_of_Z device_size))
                     (double_of_Z 100));
          PULL (ull_div eta 60); PULL (ull_mod eta 60);
          PULL (Some mbytes); PDouble mib].

(** Lines 156-171: what follows the tests. *)
Definition report (device_size bytes : Z) (final_ : bool)
    (tdiff : float) : M unit :=
  clear_line ;;;
  emit (report_line device_size bytes final_ tdiff) ;;;
  emit Fflush.

Definition print_progress (device_size bytes : Z) (final_ : bool) : M unit :=
  gettimeofday_now ;;;
  s <- get_St ;;
  if timeval_is_zero (start_time s) then set_start_end
  else if negb final_ && PrimFloat.ltb (time_diff (end_time s) (now_time s)) half
  then pure tt
  else
    set_end ;;;
    s <- get_St ;;
    let tdiff := time_diff (start_time s) (end_time s) in
    if fzero tdiff then pure tt
    else if fzero (mib_of bytes tdiff) then pure tt
    else report device_size bytes final_ tdiff.

(* ------------------------------------------------------------------ *)
(** ** [check_one_by_one] *)
(* ------------------------------------------------------------------ *)

(** How one round of the sector loop ends: [continue] (or the end of the
    body), or [return]. *)
Inductive ctl : Type := Continue | Returned.

Definition is_fix (dc : dev_command) : bool :=
  match dc with DEV_FIX => true | _ => false end.
Definition is_check (dc : dev_command) : bool :=
  match dc with DEV_CHECK => true | _ => false end.
Definition is_format (dc : dev_command) : bool :=
  match dc with DEV_FORMAT => true | _ => false end.

(** The body of the loop of lines 182-216, for one [sector]. *)
Definition check_sector (fuel : nat) (devfd sector : Z) (dc : dev_command)
    : M ctl :=
  r <- call (SysLseek devfd (s64 (u64 (sector * SECTOR_SIZE)))) ;;
  if ret r <? 0 then
    printf fmt_seek_error [PU64 sector; PInt (err r)] ;;;
    pure Returned
  else
    r <- call (SysRead devfd SECTOR_SIZE) ;;
    if ret r =? SECTOR_SIZE then pure Continue
    else if negb (err r =? EIO) && negb (err r =? EILSEQ) then
      printf fmt_error_sector [PU64 sector; PInt (err r)] ;;;
      pure Returned
    else if negb (is_fix dc) then
      printf fmt_io_error [PU64 sector] ;;;
      pure Continue
    else
      (* Try to overwrite sector *)
      init_sector fuel ;;;
      r <- call (SysLseek devfd (s64 (u64 (sector * SECTOR_SIZE)))) ;;
      if ret r <? 0 then
        printf fmt_seek_error [PU64 sector; PInt (err r)] ;;;
        pure Continue
      else
        r <- call (SysWrite devfd SECTOR_SIZE) ;;
        (if negb (ret r =? SECTOR_SIZE)
         then printf fmt_error_sector [PU64 sector; PInt (err r)]
         else printf fmt_wiped [PU64 sector]) ;;;
        pure Continue.

(** The [for] loop: [n] bounds the number of rounds, [bound] is
    [offset_sec + block_size_sec]. *)
Fixpoint sector_loop (n : nat) (fuel : nat) (devfd bound sector : Z)
    (dc : dev_command) : M ctl :=
  match n with
  | O => timeout
  | S n' =>
      if sector <? bound then
        c <- check_sector fuel devfd sector dc ;;
        match c with
        | Continue => sector_loop n' fuel devfd bound (u64 (sector + 1)) dc
        | Returned => pure Returned
        end
      else pure Continue
  end.

(** The loop ends after [bound - offset_sec] rounds, so it is given one
    more than that; [fuel] is for [get_random] only. *)
Definition check_one_by_one (fuel : nat) (devfd block_size_sec offset_sec : Z)
    (dc : dev_command) : M unit :=
  clear_line ;;;
  let bound := u64 (offset_sec + block_size_sec) in
  c <- sector_loop (S (Z.to_nat (bound - offset_sec))) fuel devfd bound
         offset_sec dc ;;
  match c with
  | Continue => emit Fflush
  | Returned => pure tt
  end.

(* ------------------------------------------------------------------ *)
(** ** [rw_sectors] *)
(* ------------------------------------------------------------------ *)

(** Lines 259-260: [init_sector] for every sector of the chunk. *)
Fixpoint init_sectors (n : nat) (fuel : nat) : M unit :=
  match n with
  | O => pure tt
  | S n' => init_sector fuel ;;; init_sectors n' fuel
  end.

(** Lines 250-272: one round of the chunk loop, for the chunk of
    [block_size_sec] sectors at [offset_sec].  [false]: the seek failed
    and the function has returned [EXIT_FAILURE]. *)
Definition chunk (fuel : nat) (devfd dev_size_sec offset_sec block_size_sec : Z)
    (dc : dev_command) : M bool :=
  r <- call (SysLseek devfd (s64 (u64 (offset_sec * SECTOR_SIZE)))) ;;
  if ret r <? 0 then
    printf fmt_seek_error [PU64 offset_sec; PInt (err r)] ;;;
    call (SysClose devfd) ;;;
    emit Free ;;;
    pure false
  else
    (if is_format dc then
       log_dbg fmt_wipe [PU64 offset_sec; PU64 (u64 (offset_sec + block_size_sec))] ;;;
       init_sectors (Z.to_nat block_size_sec) fuel ;;;
       r <- call (SysWrite devfd (u64 (SECTOR_SIZE * block_size_sec))) ;;
       when (negb (ret r =? s64 (u64 (SECTOR_SIZE * block_size_sec))))
            (printf fmt_write_error [PU64 offset_sec])
     else
       r <- call (SysRead devfd (u64 (SECTOR_SIZE * block_size_sec))) ;;
       when (negb (ret r =? s64 (u64 (SECTOR_SIZE * block_size_sec))))
            (check_one_by_one fuel devfd block_size_sec offset_sec dc)) ;;;
    print_progress (u64 (dev_size_sec * SECTOR_SIZE))
                   (u64 (u64 (offset_sec + block_size_sec) * SECTOR_SIZE))
                   false ;;;
    pure true.

(** Lines 245-248. *)
Definition chunk_size (dev_size_sec offset_sec : Z) : Z :=
  if dev_size_sec <? u64 (offset_sec + block_sectors cfg)
  then u64 (dev_size_sec - offset_sec)
  else block_sectors cfg.

(** The [while] loop of lines 244-273.  [Some offset_sec]: the loop has
    ended at that offset; [None]: a seek failed. *)
Fixpoint chunk_loop (n : nat) (fuel : nat) (devfd dev_size_sec offset_sec : Z)
    (dc : dev_command) : M (option Z) :=
  match n with
  | O => timeout
  | S n' =>
      if offset_sec <? dev_size_sec then
        let block_size_sec := chunk_size dev_size_sec offset_sec in
        ok <- chunk fuel devfd dev_size_sec offset_sec block_size_sec dc ;;
        if ok
        then chunk_loop n' fuel devfd dev_size_sec
                        (u64 (offset_sec + block_size_sec)) dc
        else pure None
      else pure (Some offset_sec)
  end.

(** Lines 275-283: what follows the loop. *)
Definition finish (devfd dev_size_sec offset_sec : Z) : M Z :=
  r <- call (SysFsync devfd) ;;
  when (ret r <? 0) (printf fmt_fsync [PInt (err r)]) ;;;
  call (SysClose devfd) ;;;
  emit Free ;;;
  print_progress (u64 (dev_size_sec * SECTOR_SIZE))
                 (u64 (offset_sec * SECTOR_SIZE)) true ;;;
  pure 0.

(** Lines 244-283: the loop and what follows it; [n] bounds the number
    of rounds of the loop. *)
Definition scan (n : nat) (fuel : nat) (devfd dev_size_sec offset_sec : Z)
    (dc : dev_command) : M Z :=
  o <- chunk_loop n fuel devfd dev_size_sec offset_sec dc ;;
  match o with
  | None => pure EXIT_FAILURE
  | Some offset_sec' => finish devfd dev_size_sec offset_sec'
  end.

Definition rw_flags (dc : dev_command) : Z :=
  if is_check dc
  then Z.lor (open_flags cfg) O_RDONLY
  else Z.lor (open_flags cfg) O_RDWR.

Definition rw_sectors (fuel : nat) (device : string)
    (offset_sec dev_size_sec : Z) (dc : dev_command) : M Z :=
  sf <- aligned_malloc (u32 (block_sectors cfg * SECTOR_SIZE)) ;;
  if sf =? 0 then pure EXIT_FAILURE
  else
    r <- call (SysOpen device (rw_flags dc)) ;;
    if ret r =? -1 then
      emit Free ;;;
      pure EXIT_FAILURE
    else scan fuel fuel (ret r) dev_size_sec offset_sec dc.

(* ------------------------------------------------------------------ *)
(** ** [device_size_sec], [cmd_dev] *)
(* ------------------------------------------------------------------ *)

(** The result and [*size]; [*size] is [None] while nothing has been
    stored in it (the ioctl stores the size when it succeeds). *)
Definition device_size_sec (device : string) : M (Z * option Z) :=
  r <- call (SysStat device) ;;
  if ret r <? 0 then pure (- EINVAL, None)
  else
    o <- call (SysOpen device O_RDONLY) ;;
    if ret o =? -1 then pure (- EINVAL, None)
    else
      let devfd := ret o in
      i <- call (SysIoctlSize devfd) ;;
      let size := if ret i <? 0 then None
                  else match data i with Val z => Some (u64 z) | _ => None end in
      let r := if ret i <? 0 then - EINVAL else 0 in
      let size' := match size with
                   | Some z => Some (z / SECTOR_SIZE)
                   | None => None
                   end in
      call (SysClose devfd) ;;;
      pure (r, size').

Definition cmd_dev (fuel : nat) (device : string) (dc : dev_command) : M Z :=
  log_dbg fmt_running [PStr device] ;;;
  rs <- device_size_sec device ;;
  match rs with
  | (0, Some dev_size_sec) => rw_sectors fuel device 0 dev_size_sec dc
  | _ => pure EXIT_FAILURE
  end.

(* ------------------------------------------------------------------ *)
(** ** [read_superblock], [cmd_dump] *)
(* ------------------------------------------------------------------ *)

(** The byte order of the host. *)
Variable big_endian : bool.

(** [struct superblock] is packed: 24 bytes of memory, the fields at
    offsets 0, 8, 9, 10, 12 and 16. *)
Definition sizeof_sb : Z := 24.

Definition slice (off n : nat) (mem : list Z) : list Z :=
  firstn n (skipn off mem).

(** An unsigned integer of [length l] bytes in memory, as the host reads
    it, and the bytes the host stores for it. *)
Definition load (l : list Z) : Z :=
  if big_endian then decode_le (rev l) else decode_le l.
Definition store (n : nat) (z : Z) : list Z :=
  if big_endian then rev (encode_le n z) else encode_le n z.

(** [le16toh], [le32toh], [le64toh] of <endian.h>: the value whose
    little-endian representation is the host's representation of [z]. *)
Definition letoh (n : nat) (z : Z) : Z := decode_le (store n z).
Definition le16toh : Z -> Z := letoh 2.
Definition le32toh : Z -> Z := letoh 4.
Definition le64toh : Z -> Z := letoh 8.

Record superblock : Type := mk_superblock {
  magic : list Z;
  version : Z;
  log2_interleave_sectors : Z;
  integrity_tag_size : Z;
  journal_sections : Z;
  provided_data_sectors : Z
}.

(** The struct that 24 bytes of memory hold. *)
Definition sb_of_mem (mem : list Z) : superblock :=
  {| magic := slice 0 8 mem;
     version := nth 8 mem 0;
     log2_interleave_sectors := s8 (nth 9 mem 0);
     integrity_tag_size := load (slice 10 2 mem);
     journal_sections := load (slice 12 4 mem);
     provided_data_sectors := load (slice 16 8 mem) |}.

(** What [read] leaves in the buffer [old] when it has stored [n] bytes
    of [new]. *)
Definition read_into (n : Z) (new : payload) (old : list Z) : list Z :=
  match new with
  | Bytes l =>
      let got := map (fun b => b mod 256) (firstn (Z.to_nat n) l) in
      got ++ skipn (List.length got) old
  | _ => old
  end.

(** [memcmp(a, b, n) != 0]. *)
Definition memcmp_differs (a b : list Z) (n : nat) : bool :=
  negb (list_eqb (firstn n a) (firstn n b)).

(** [mem0]: what the memory of [*sb] holds when the function is entered.
    The result is the return value and the struct the caller then sees. *)
Definition read_superblock (device : option string) (mem0 : list Z)
    : M (Z * superblock) :=
  match device with
  | None => pure (EXIT_FAILURE, sb_of_mem mem0)
  | Some dev =>
      o <- call (SysOpen dev O_RDONLY) ;;
      if ret o =? -1 then pure (EXIT_FAILURE, sb_of_mem mem0)
      else
        let devfd := ret o in
        rd <- call (SysRead devfd sizeof_sb) ;;
        let sb := sb_of_mem (read_into (ret rd) (data rd) mem0) in
        rsb <-
          (if negb (u64 (ret rd) =? sizeof_sb)
              || memcmp_differs (magic sb) SB_MAGIC 8
              || negb (version sb =? SB_VERSION)
           then
             printf fmt_no_header [PStr dev] ;;;
             pure (EXIT_FAILURE, sb)
           else
             pure (EXIT_SUCCESS,
                   mk_superblock (magic sb) (version sb)
                     (log2_interleave_sectors sb)
                     (le16toh (integrity_tag_size sb))
                     (le32toh (journal_sections sb))
                     (le64toh (provided_data_sectors sb)))) ;;
        call (SysClose devfd) ;;;
        pure rsb
  end.

Definition cmd_dump (device : option string) (mem0 : list Z) : M Z :=
  rsb <- read_superblock device mem0 ;;
  let r := fst rsb in
  let sb := snd rsb in
  if negb (r =? 0) then pure r
  else
    printf fmt_info [match device with Some d => PStr d | None => PStr EmptyString end] ;;;
    printf fmt_log2 [PInt (log2_interleave_sectors sb)] ;;;
    printf fmt_tag_size [PUInt (integrity_tag_size sb)] ;;;
    printf fmt_journal [PUInt (journal_sections sb)] ;;;
    printf fmt_provided [PU64 (provided_data_sectors sb)] ;;;
    pure EXIT_SUCCESS.

End Program.

Arguments mk_St {World}.
Arguments world {World}.
Arguments start_time {World}.
Arguments now_time {World}.
Arguments end_time {World}.
Arguments init_St {World} w.
Arguments pure {World A} a.
Arguments bind {World A B} m f.
Arguments abort {World A}.
Arguments timeout {World A}.
Arguments emit {World} e.
Arguments call {World} kernel c.
Arguments printf {World} fmt args.
Arguments when {World} b m.
Arguments log_dbg {World} cfg fmt args.
Arguments trace {World A} x.
Arguments final {World A} x.
Arguments result {World A} x.
Arguments aligned_malloc {World} kernel size.
Arguments get_random {World} kernel fuel buf_size.
Arguments init_sector {World} kernel cfg fuel.
Arguments clear_line {World}.
Arguments gettimeofday_now {World} kernel.
Arguments set_start_end {World}.
Arguments set_end {World}.
Arguments get_St {World}.
Arguments report {World} device_size bytes final_ tdiff.
Arguments print_progress {World} kernel device_size bytes final_.
Arguments check_sector {World} kernel cfg fuel devfd sector dc.
Arguments sector_loop {World} kernel cfg n fuel devfd bound sector dc.
Arguments check_one_by_one {World} kernel cfg fuel devfd block_size_sec offset_sec dc.
Arguments init_sectors {World} kernel cfg n fuel.
Arguments chunk {World} kernel cfg fuel devfd dev_size_sec offset_sec block_size_sec dc.
Arguments chunk_loop {World} kernel cfg n fuel devfd dev_size_sec offset_sec dc.
Arguments finish {World} kernel devfd dev_size_sec offset_sec.
Arguments scan {World} kernel cfg n fuel devfd dev_size_sec offset_sec dc.
Arguments rw_sectors {World} kernel cfg fuel device offset_sec dev_size_sec dc.
Arguments device_size_sec {World} kernel device.
Arguments cmd_dev {World} kernel cfg fuel device dc.
Arguments read_superblock {World} kernel big_endian device mem0.
Arguments cmd_dump {World} kernel big_endian device mem0.

Declare Scope prog_scope.
Delimit Scope prog_scope with prog.
Notation "x <- m ;; k" := (bind m (fun x => k))
  (at level 61, m at next level, right associativity) : prog_scope.
Notation "m ;;; k" := (bind m (fun _ => k))
  (at level 61, right associativity) : prog_scope.

(* ================================================================== *)
(** * [help], [main] *)
(* ================================================================== *)

Definition fmt_usage : string :=
  ("Use: [--debug] [--randomize] [--blocksize <sectors>] [--no-direct] dump|check|fix|format <device>."
   ++ nl ++ nl ++ "Commands:" ++ nl
   ++ "  dump   - dump dm-integrity superblock" ++ nl
   ++ "  check  - use direct-io to check device access" ++ nl
   ++ "  fix    - check and rewrite sectors with IO errors" ++ nl
   ++ "  format - fix the whole device" ++ nl
   ++ nl
   ++ "Device is wiped with zeroes or with random data if --randomize is used."
   ++ nl)%string.

Inductive command : Type := CMD_DUMP | CMD_CHECK | CMD_FIX | CMD_FORMAT.

(** The chain of [strcmp] of lines 392-401; [None] is [help()]. *)
Definition parse_command (arg : string) : option command :=
  if String.eqb arg "dump" then Some CMD_DUMP
  else if String.eqb arg "check" then Some CMD_CHECK
  else if String.eqb arg "fix" then Some CMD_FIX
  else if String.eqb arg "format" then Some CMD_FORMAT
  else None.

(** [help()] prints the usage and ends the process with [EXIT_FAILURE]. *)
Definition help {World : Type} : M World Z :=
  (printf fmt_usage [] ;;; pure EXIT_FAILURE)%prog.

(** [main], from the options that [getopt_long] reports, in order, and
    the arguments that are left at [optind]; the result is the exit
    status.  [mem0] is what the memory of the [sb] of [cmd_dump] holds. *)
Definition main {World : Type} (kernel : syscall -> World -> reply * World)
    (big_endian : bool) (fuel : nat) (os : list option_arg)
    (args : list string) (mem0 : list Z) : M World Z :=
  match parse_options os default_config with
  | None => help
  | Some cfg =>
      match args with
      | [] => help
      | arg :: rest =>
          match parse_command arg with
          | None => help
          | Some cmd =>
              match rest with
              | [] => help
              | device :: _ =>
                  match cmd with
                  | CMD_DUMP => cmd_dump kernel big_endian (Some device) mem0
                  | CMD_CHECK => cmd_dev kernel cfg fuel device DEV_CHECK
                  | CMD_FIX => cmd_dev kernel cfg fuel device DEV_FIX
                  | CMD_FORMAT => cmd_dev kernel cfg fuel device DEV_FORMAT
                  end
              end
          end
      end
  end.

(* ================================================================== *)
(** * A simulated device *)
(* ================================================================== *)

(** A kernel to run the program against: one device with unreadable
    sectors, and a clock that advances at every reading. *)
Module Sim.

Record dev : Type := mk_dev {
  sectors : Z;          (* the size of the device, in sectors *)
  bad : list Z;         (* sectors whose read fails with EIO *)
  odd : list Z;         (* sectors whose read fails with ENOMEM *)
  stuck : list Z;       (* offsets that lseek64 refuses with EINVAL *)
  header : list Z;      (* the first bytes of the device *)
  pos : Z;              (* the file position *)
  clock : timeval;      (* the time of the next gettimeofday *)
  tick : Z;             (* microseconds between two readings of it *)
  errno : Z
}.

Definition ENOMEM : Z := 12.

Definition within (first n : Z) (l : list Z) : bool :=
  existsb (fun s => (first <=? s) && (s <? first + n)) l.

Definition without (first n : Z) (l : list Z) : list Z :=
  filter (fun s => negb ((first <=? s) && (s <? first + n))) l.

Definition later (t : timeval) (usec : Z) : timeval :=
  let u := tv_usec t + usec in
  mk_timeval (tv_sec t + u / 1000000) (u mod 1000000).

Definition ok (d : dev) (r : Z) (p : payload) : reply := mk_reply r (errno d) p.

Definition set_pos (d : dev) (p : Z) : dev :=
  mk_dev (sectors d) (bad d) (odd d) (stuck d) (header d) p (clock d) (tick d)
         (errno d).
Definition set_errno (d : dev) (e : Z) : dev :=
  mk_dev (sectors d) (bad d) (odd d) (stuck d) (header d) (pos d) (clock d)
         (tick d) e.
Definition set_bad (d : dev) (b : list Z) : dev :=
  mk_dev (sectors d) b (odd d) (stuck d) (header d) (pos d) (clock d) (tick d)
         (errno d).
Definition set_clock (d : dev) (t : timeval) : dev :=
  mk_dev (sectors d) (bad d) (odd d) (stuck d) (header d) (pos d) t (tick d)
         (errno d).

Definition kernel (c : syscall) (d : dev) : reply * dev :=
  match c with
  | SysMemalign _ _ => (ok d 0 (Val 8192), d)
  | SysStat _ => (ok d 0 NoData, d)
  | SysOpen _ _ => (ok d 3 NoData, set_pos d 0)
  | SysIoctlSize _ => (ok d 0 (Val (sectors d * 512)), d)
  | SysLseek _ off =>
      if existsb (Z.eqb off) (stuck d)
      then (mk_reply (-1) EINVAL NoData, set_errno d EINVAL)
      else (ok d off NoData, set_pos d off)
  | SysRead _ count =>
      let first := pos d / 512 in
      let n := (count + 511) / 512 in
      if within first n (bad d)
      then (mk_reply (-1) EIO NoData, set_errno d EIO)
      else if within first n (odd d)
      then (mk_reply (-1) ENOMEM NoData, set_errno d ENOMEM)
      else
        let got := Z.max 0 (Z.min count (sectors d * 512 - pos d)) in
        (ok d got
            (Bytes (firstn (Z.to_nat got) (skipn (Z.to_nat (pos d)) (header d)))),
         set_pos d (pos d + got))
  | SysWrite _ count =>
      let first := pos d / 512 in
      let n := (count + 511) / 512 in
      (ok d count NoData,
       set_pos (set_bad d (without first n (bad d))) (pos d + count))
  | SysFsync _ => (ok d 0 NoData, d)
  | SysClose _ => (ok d 0 NoData, d)
  | SysGetrandom len => (ok d len NoData, d)
  | SysGettimeofday =>
      (ok d 0 (Time (clock d)), set_clock d (later (clock d) (tick d)))
  end.

(** A device of [n] sectors; the clock starts at 1000 s and advances by
    0.3 s at every reading. *)
Definition device (n : Z) (bad odd stuck : list Z) : dev :=
  mk_dev n bad odd stuck [] 0 (mk_timeval 1000 0) 300000 0.

End Sim.

(* ================================================================== *)
(** * The partition of the extent, in the words of the specification *)
(* ================================================================== *)

(** The chunks [(offset, size)] of an extent of [dev] sectors from [off]
    on: each is min(chunk size, remaining) sectors long and starts where
    the one before it ends.  [n] bounds the number of chunks. *)
Fixpoint chunk_list (n : nat) (chunk_sectors dev off : Z) : list (Z * Z) :=
  match n with
  | O => []
  | S n' =>
      if off <? dev then
        let size := Z.min chunk_sectors (dev - off) in
        (off, size) :: chunk_list n' chunk_sectors dev (off + size)
      else []
  end.

(** The chunks follow one another from [off] to [stop] without a gap and
    without an overlap. *)
Fixpoint chained (off : Z) (l : list (Z * Z)) (stop : Z) : Prop :=
  match l with
  | [] => off = stop
  | (o, size) :: rest => o = off /\ chained (o + size) rest stop
  end.

Definition sum_sizes (l : list (Z * Z)) : Z :=
  fold_right Z.add 0 (map snd l).

(** One round of the chunk loop for each chunk of the list, in order,
    until a seek fails. *)
Fixpoint run_chunks {World : Type} (kernel : syscall -> World -> reply * World)
    (cfg : config) (fuel : nat) (devfd dev_size_sec : Z) (dc : dev_command)
    (l : list (Z * Z)) (stop : Z) : M World (option Z) :=
  match l with
  | [] => pure (Some stop)
  | (o, size) :: rest =>
      (ok <- chunk kernel cfg fuel devfd dev_size_sec o size dc ;;
       if ok then run_chunks kernel cfg fuel devfd dev_size_sec dc rest stop
       else pure None)%prog
  end.

(* ================================================================== *)
(** * Properties of traces *)
(* ================================================================== *)

(** The trace of [m], from whatever state, satisfies [Q]. *)
Definition traces {World A : Type} (Q : list event -> Prop) (m : M World A)
    : Prop :=
  forall s, Q (trace (m s)).

Definition is_write (e : event) : bool :=
  match e with Sys (SysWrite _ _) _ => true | _ => false end.
Definition is_read (e : event) : bool :=
  match e with Sys (SysRead _ _) _ => true | _ => false end.
Definition is_lseek (e : event) : bool :=
  match e with Sys (SysLseek _ _) _ => true | _ => false end.
Definition is_open (e : event) : bool :=
  match e with Sys (SysOpen _ _) _ => true | _ => false end.
Definition is_close (e : event) : bool :=
  match e with Sys (SysClose _) _ => true | _ => false end.
Definition is_getrandom (e : event) : bool :=
  match e with Sys (SysGetrandom _) _ => true | _ => false end.

(** What the sector loop and the progress reporter do besides writing. *)
Definition inner (e : event) : bool :=
  match e with
  | Sys (SysLseek _ _) _ | Sys (SysRead _ _) _ | Sys (SysGetrandom _) _
  | Sys SysGettimeofday _ | Printf _ _ | Fflush => true
  | _ => false
  end.

(** Whether a line of format [fmt] is printed. *)
Definition printed (fmt : string) (t : list event) : bool :=
  existsb (fun e => match e with
                    | Printf f _ => String.eqb f fmt
                    | _ => false
                    end) t.

(** What a process that may only read does: it writes nothing, and what
    it opens it opens with the access mode [O_RDONLY]. *)
Definition read_only_event (e : event) : Prop :=
  match e with
  | Sys (SysWrite _ _) _ => False
  | Sys (SysOpen _ flags) _ => Z.land flags O_ACCMODE = O_RDONLY
  | _ => True
  end.

(** The settings that [main] can leave behind. *)
Definition sane (c : config) : Prop :=
  (open_flags c = O_DIRECT \/ open_flags c = 0) /\
  0 < block_sectors c < 2 ^ 32.

(** The two values of [errno] that [check_one_by_one] takes for a bad
    sector. *)
Definition media_error (e : Z) : Prop := e = EIO \/ e = EILSEQ.

(** What precedes the rewriting of a sector: the trace [pre] ends with
    the seek to a sector, the read of that one sector, which did not
    return the sector and left a media error in [errno], the filling of
    the buffer, and the second seek to the same sector. *)
Definition rewrite_justified (fd : Z) (pre : list event) : Prop :=
  exists sector before r1 rd fill r2,
    pre = before
          ++ [Sys (SysLseek fd (s64 (u64 (sector * SECTOR_SIZE)))) r1;
              Sys (SysRead fd SECTOR_SIZE) rd]
          ++ fill
          ++ [Sys (SysLseek fd (s64 (u64 (sector * SECTOR_SIZE)))) r2] /\
    0 <= ret r1 /\ ret rd <> SECTOR_SIZE /\ media_error (err rd) /\
    0 <= ret r2 /\ Forall (fun e => is_getrandom e = true) fill.

(** Every write of the trace is the rewriting of one sector whose read
    has just failed with a media error. *)
Definition writes_justified (t : list event) : Prop :=
  forall pre fd count r post,
    t = pre ++ Sys (SysWrite fd count) r :: post ->
    count = SECTOR_SIZE /\ rewrite_justified fd pre.

(** Every read of the trace returned as many bytes as it asked for. *)
Definition reads_complete (t : list event) : Prop :=
  forall fd count r, In (Sys (SysRead fd count) r) t -> ret r = count.

Definition no_write (t : list event) : Prop :=
  Forall (fun e => is_write e = false) t.

(** The handles that the trace opens, and those that it closes. *)
Definition opened_fds (t : list event) : list Z :=
  flat_map (fun e => match e with
                     | Sys (SysOpen _ _) r => if ret r =? -1 then [] else [ret r]
                     | _ => []
                     end) t.
Definition closed_fds (t : list event) : list Z :=
  flat_map (fun e => match e with
                     | Sys (SysClose fd) _ => [fd]
                     | _ => []
                     end) t.

(** An event that neither opens nor closes a handle. *)
Definition quiet (e : event) : Prop := is_open e = false /\ is_close e = false.

(** What the progress reporter does. *)
Definition reporting (e : event) : bool :=
  match e with
  | Sys SysGettimeofday _ | Printf _ _ | Fflush => true
  | _ => false
  end.

(** An event that neither seeks, nor reads, nor writes. *)
Definition no_io (e : event) : Prop :=
  is_lseek e = false /\ is_read e = false /\ is_write e = false.

(** The time that [gettimeofday] leaves in [now_time]. *)
Definition time_read {World : Type} (r : reply) (s : St World) : timeval :=
  match data r with Time tv => tv | _ => now_time s end.

(** A sequence of updates of the progress: calls that are not final. *)
Fixpoint progress_updates {World : Type}
    (kernel : syscall -> World -> reply * World) (calls : list (Z * Z))
    : M World unit :=
  match calls with
  | [] => pure tt
  | (device_size, bytes) :: rest =>
      bind (print_progress kernel device_size bytes false)
           (fun _ => progress_updates kernel rest)
  end.

(** The clock is read less than half a second after [t]. *)
Definition in_window (t : timeval) (e : event) : Prop :=
  match e with
  | Sys SysGettimeofday r =>
      match data r with
      | Time tv => PrimFloat.ltb (time_diff t tv) half = true
      | _ => False
      end
  | _ => True
  end.

Definition is_printf (e : event) : bool :=
  match e with Printf _ _ => true | _ => false end.

(** A byte. *)
Definition is_byte (b : Z) : Prop := 0 <= b < 256.

(** The only line that a failed dump may print. *)
Definition no_field_printed (e : event) : Prop :=
  match e with
  | Printf fmt _ => fmt = fmt_no_header
  | _ => True
  end.

(** [m] returns, from whatever state: it neither aborts nor runs out of
    fuel. *)
Definition returns {World A : Type} (m : M World A) : Prop :=
  forall s, exists a, result (m s) = Done a.

(* ================================================================== *)
(** * Concrete runs *)
(* ================================================================== *)

(** The settings after [--blocksize 8]. *)
Definition cfg8 : config := mk_config false false O_DIRECT 8.

(** Whether the trace seeks to [sector]. *)
Definition visited (sector : Z) (t : list event) : bool :=
  existsb (fun e => match e with
                    | Sys (SysLseek _ off) _ => off =? sector * SECTOR_SIZE
                    | _ => false
                    end) t.

Definition reads_completeb (t : list event) : bool :=
  forallb (fun e => match e with
                    | Sys (SysRead _ count) r => ret r =? count
                    | _ => true
                    end) t.

(** A device of 20 sectors whose sector 3 is bad, after a fix pass. *)
Definition repaired : Sim.dev :=
  world (final (cmd_dev Sim.kernel cfg8 100 "dev" DEV_FIX
                        (init_St (Sim.device 20 [3] [] [])))).

(** A superblock: version 1, log2_interleave_sectors 15, integrity_tag_size
    4, journal_sections 100, provided_data_sectors 4096. *)
Definition sb_bytes : list Z :=
  [105; 110; 116; 101; 103; 114; 116; 0;  1;  15;  4; 0;  100; 0; 0; 0;
   0; 16; 0; 0; 0; 0; 0; 0].

Definition sb_dev : Sim.dev :=
  Sim.mk_dev 8 [] [] [] sb_bytes 0 (mk_timeval 1000 0) 300000 0.

(** The reporter 0.9 s after its start, when it has just reported; the
    clock reads 0.1 s later. *)
Definition reporting_St : St Sim.dev :=
  mk_St (Sim.mk_dev 20000 [] [] [] [] 0 (mk_timeval 1001 0) 300000 0)
        (mk_timeval 1000 0) (mk_timeval 1000 900000) (mk_timeval 1000 900000).

(** The bytes that [getrandom] reports to have stored, over the trace. *)
Definition getrandom_bytes (e : event) : Z :=
  match e with
  | Sys (SysGetrandom _) r => s32 (ret r)
  | _ => 0
  end.

Definition delivered (t : list event) : Z :=
  fold_right Z.add 0 (map getrandom_bytes t).

(** A call of [getrandom] that passes the two [assert]s of
    [get_random]. *)
Definition getrandom_accepted (e : event) : Prop :=
  match e with
  | Sys (SysGetrandom len) r =>
      0 <= s32 (ret r) <= len /\ (err r = 0 \/ err r = EINTR)
  | _ => False
  end.

(** An event of [device_size_sec]: [stat], an [open] for reading, the
    ioctl, [close]. *)
Definition sizing_event (e : event) : Prop :=
  match e with
  | Sys (SysStat _) _ | Sys (SysIoctlSize _) _ | Sys (SysClose _) _ => True
  | Sys (SysOpen _ flags) _ => flags = O_RDONLY
  | _ => False
  end.

(** Whatever [m] returns satisfies [P]. *)
Definition yields {World A : Type} (P : A -> Prop) (m : M World A) : Prop :=
  forall s a, result (m s) = Done a -> P a.

(** An exit status of the program. *)
Definition exit_status (r : Z) : Prop := r = EXIT_SUCCESS \/ r = EXIT_FAILURE.

(** A command line that [main] answers with the usage: a refused option,
    or no command, or no device, or a command that is none of the four. *)
Definition usage_error (os : list option_arg) (args : list string) : Prop :=
  parse_options os default_config = None \/
  forall arg device rest,
    args = arg :: device :: rest ->
    arg <> "dump"%string /\ arg <> "check"%string /\
    arg <> "fix"%string /\ arg <> "format"%string.

(** What a process that only writes does: it reads nothing, and it opens
    for reading only to ask for the size, otherwise for reading and
    writing. *)
Definition write_only_event (e : event) : Prop :=
  match e with
  | Sys (SysRead _ _) _ => False
  | Sys (SysOpen _ flags) _ =>
      flags = O_RDONLY \/ Z.land flags O_ACCMODE = O_RDWR
  | _ => True
  end.

(** How the visit of one sector by the sector loop can go when the loop
    goes on after it, with the answers of the kernel: the read returns the
    sector; or it does not, and [errno] holds EIO or EILSEQ after it (the
    read has failed with one of them, or it has come back short and
    [errno] is left from an earlier call), and then the sector is reported
    (check), or the second seek fails (fix), or the sector is rewritten
    (fix). *)
Inductive visit : Type :=
| Healthy (r1 rd : reply)
| Reported (r1 rd : reply)
| SeekLost (r1 rd r2 : reply)
| Rewritten (r1 rd r2 rw : reply).

(** The events of a visit of [sector]. *)
Definition visit_events (fd sector : Z) (v : visit) : list event :=
  let seek := SysLseek fd (sector * SECTOR_SIZE) in
  match v with
  | Healthy r1 rd => [Sys seek r1; Sys (SysRead fd SECTOR_SIZE) rd]
  | Reported r1 rd =>
      [Sys seek r1; Sys (SysRead fd SECTOR_SIZE) rd;
       Printf fmt_io_error [PU64 sector]]
  | SeekLost r1 rd r2 =>
      [Sys seek r1; Sys (SysRead fd SECTOR_SIZE) rd; Sys seek r2;
       Printf fmt_seek_error [PU64 sector; PInt (err r2)]]
  | Rewritten r1 rd r2 rw =>
      [Sys seek r1; Sys (SysRead fd SECTOR_SIZE) rd; Sys seek r2;
       Sys (SysWrite fd SECTOR_SIZE) rw;
       if ret rw =? SECTOR_SIZE
       then Printf fmt_wiped [PU64 sector]
       else Printf fmt_error_sector [PU64 sector; PInt (err rw)]]
  end.

(** The answers that lead to each visit, in the mode [dc].  The read of
    a visit that is not healthy is one whose result is not 512, as the
    program tests it, failed or not. *)
Definition visit_ok (dc : dev_command) (v : visit) : Prop :=
  match v with
  | Healthy r1 rd => 0 <= ret r1 /\ ret rd = SECTOR_SIZE
  | Reported r1 rd =>
      is_fix dc = false /\
      0 <= ret r1 /\ ret rd <> SECTOR_SIZE /\ media_error (err rd)
  | SeekLost r1 rd r2 =>
      is_fix dc = true /\
      0 <= ret r1 /\ ret rd <> SECTOR_SIZE /\ media_error (err rd) /\
      ret r2 < 0
  | Rewritten r1 rd r2 rw =>
      is_fix dc = true /\
      0 <= ret r1 /\ ret rd <> SECTOR_SIZE /\ media_error (err rd) /\
      0 <= ret r2
  end.

(** The [n] sectors from [first] on. *)
Fixpoint sectors_from (n : nat) (first : Z) : list Z :=
  match n with
  | O => []
  | S n' => first :: sectors_from n' (first + 1)
  end.

(** The visits [vs] of the sectors from [first] on, one after the other. *)
Definition visits (fd first : Z) (vs : list visit) : list event :=
  flat_map (fun p => visit_events fd (fst p) (snd p))
           (combine (sectors_from (List.length vs) first) vs).

(** The seeks, reads and writes of a trace, in order, without the
    answers. *)
Definition disk_call (e : event) : list syscall :=
  match e with
  | Sys (SysLseek fd off) _ => [SysLseek fd off]
  | Sys (SysRead fd count) _ => [SysRead fd count]
  | Sys (SysWrite fd count) _ => [SysWrite fd count]
  | _ => []
  end.
Definition disk_calls (t : list event) : list syscall := flat_map disk_call t.

(** The seek to a chunk and the transfer of the whole chunk: a write when
    formatting, a read otherwise. *)
Definition chunk_calls (dc : dev_command) (fd : Z) (p : Z * Z) : list syscall :=
  [SysLseek fd (fst p * SECTOR_SIZE);
   if is_format dc then SysWrite fd (SECTOR_SIZE * snd p)
   else SysRead fd (SECTOR_SIZE * snd p)].

(** How often the trace releases the buffer. *)
Definition is_free (e : event) : bool :=
  match e with Free => true | _ => false end.
Definition frees (t : list event) : nat := List.length (filter is_free t).

(** The pointer that [aligned_malloc] returns for the answer [r] of
    [posix_memalign]; 0 is NULL. *)
Definition allocated (r : reply) : Z :=
  if ret r =? 0 then match data r with Val p => p | _ => 0 end else 0.

(** The options, one by one. *)
Definition is_OptN (o : option_arg) : bool :=
  match o with OptN => true | _ => false end.
Definition is_OptD (o : option_arg) : bool :=
  match o with OptD => true | _ => false end.
Definition is_OptR (o : option_arg) : bool :=
  match o with OptR => true | _ => false end.

(** The last chunk size of the command line, [d] if it gives none. *)
Definition last_blocksize (os : list option_arg) (d : Z) : Z :=
  fold_left (fun b o => match o with OptB t => t | _ => b end) os d.

(** An option that the loop of [main] accepts. *)
Definition accepted_option (o : option_arg) : Prop :=
  match o with
  | OptB t => 0 < t < 2 ^ 32
  | OptH => False
  | _ => True
  end.

(** What [cmd_dev] does before it has the size of the device. *)
Definition before_the_pass (e : event) : Prop :=
  match e with
  | Printf fmt _ => fmt = fmt_running
  | _ => sizing_event e
  end.

(** What direct I/O asks of a pass over [dev] sectors in chunks of at most
    [bs] sectors: the buffer is aligned, every seek goes to the start of a
    sector of the extent, and every transfer is a whole number of
    sectors, at least one and at most a chunk. *)
Definition aligned_io (dev bs : Z) (e : event) : Prop :=
  match e with
  | Sys (SysMemalign alignment _) _ => alignment = 8192
  | Sys (SysLseek _ off) _ =>
      off mod SECTOR_SIZE = 0 /\ 0 <= off < dev * SECTOR_SIZE
  | Sys (SysRead _ count) _ | Sys (SysWrite _ count) _ =>
      count mod SECTOR_SIZE = 0 /\ 0 < count <= bs * SECTOR_SIZE
  | _ => True
  end.

(** A read or a write of at most [size] bytes: it stays inside a buffer
    of [size] bytes. *)
Definition within_buffer (size : Z) (e : event) : Prop :=
  match e with
  | Sys (SysRead _ count) _ | Sys (SysWrite _ count) _ => 0 <= count <= size
  | _ => True
  end.


(* ================================================================== *)
(** * Settings *)
(* ================================================================== *)

Lemma default_config_sane : sane default_config.
Proof. unfold sane, default_config; simpl. split; [now left | lia]. Qed.

Lemma set_option_sane (o : option_arg) (c c' : config) :
  sane c -> set_option o c = Some c' -> sane c'.
Proof.
  unfold sane. intros [Hf Hb] H.
  destruct o; simpl in H; try discriminate.
  - destruct (tmpll <=? 0) eqn:Hle; [discriminate|].
    destruct (tmpll =? u32 (u64 tmpll)) eqn:Heq; [|discriminate].
    simpl in H. injection H as <-. simpl. split; [exact Hf|].
    apply Z.leb_gt in Hle. apply Z.eqb_eq in Heq.
    rewrite <- Heq. split; [exact Hle|].
    rewrite Heq. unfold u32. apply Z.mod_pos_bound. lia.
  - injection H as <-. simpl. split; [now right | exact Hb].
  - injection H as <-. simpl. now split.
  - injection H as <-. simpl. now split.
Qed.

Lemma parse_options_sane (os : list option_arg) :
  forall c c', sane c -> parse_options os c = Some c' -> sane c'.
Proof.
  induction os as [|o os IH]; simpl; intros c c' Hc H.
  - now injection H as <-.
  - destruct (set_option o c) as [c1|] eqn:E; [|discriminate].
    eapply IH; [|exact H]. eapply set_option_sane; eauto.
Qed.

Lemma configured_sane (os : list option_arg) (c : config) :
  parse_options os default_config = Some c -> sane c.
Proof. apply parse_options_sane, default_config_sane. Qed.

(* ================================================================== *)
(** * Traces of the functions *)
(* ================================================================== *)

(** The lemmas of this part hold for every property [Q] of traces that
    the empty trace has and that concatenation keeps. *)
Section Traces.

Context {World : Type} (kernel : syscall -> World -> reply * World).
Variable Q : list event -> Prop.
Hypothesis Q_nil : Q [].
Hypothesis Q_app : forall a b, Q a -> Q b -> Q (a ++ b).

Lemma traces_pure {A} (a : A) : traces Q (pure (World := World) a).
Proof. intros s. exact Q_nil. Qed.

Lemma traces_abort {A} : traces Q (abort (World := World) (A := A)).
Proof. intros s. exact Q_nil. Qed.

Lemma traces_timeout {A} : traces Q (timeout (World := World) (A := A)).
Proof. intros s. exact Q_nil. Qed.

Lemma traces_emit (e : event) : Q [e] -> traces Q (emit (World := World) e).
Proof. intros H s. exact H. Qed.

Lemma traces_printf fmt args :
  Q [Printf fmt args] -> traces Q (printf (World := World) fmt args).
Proof. apply traces_emit. Qed.

Lemma traces_call (c : syscall) :
  (forall r, Q [Sys c r]) -> traces Q (call kernel c).
Proof.
  intros H s. unfold call, trace.
  destruct (kernel c (world s)) as [r w]. simpl. apply H.
Qed.

Lemma traces_bind {A B} (m : M World A) (f : A -> M World B) :
  traces Q m -> (forall a, traces Q (f a)) -> traces Q (bind m f).
Proof.
  intros Hm Hf s. specialize (Hm s). unfold bind, trace in *.
  destruct (m s) as [[t1 s1] [a| |]]; simpl in *; auto.
  specialize (Hf a s1). unfold trace in Hf.
  destruct (f a s1) as [[t2 s2] r]. simpl in *.
  now apply Q_app.
Qed.

Lemma traces_when (b : bool) (m : M World unit) :
  (b = true -> traces Q m) -> traces Q (when b m).
Proof. destruct b; simpl; intros H; [now apply H | apply traces_pure]. Qed.

Lemma traces_silent {A} (m : M World A) :
  (forall s, trace (m s) = []) -> traces Q m.
Proof. intros H s. rewrite H. exact Q_nil. Qed.

End Traces.

(** One step of a proof that the traces of a function satisfy [Q]. *)
Ltac traces_step :=
  match goal with
  | |- traces _ (bind _ _) => apply traces_bind; [assumption| |intros]
  | |- traces _ (pure _) => apply traces_pure; assumption
  | |- traces _ abort => apply traces_abort; assumption
  | |- traces _ timeout => apply traces_timeout; assumption
  | |- traces _ (when _ _) => apply traces_when; [assumption|intros]
  | |- traces _ (call _ _) => apply traces_call; intros
  | |- traces _ (printf _ _) => apply traces_printf
  | |- traces _ (emit _) => apply traces_emit
  | |- traces _ (if ?b then _ else _) => destruct b eqn:?
  | |- traces _ (match ?c with Continue => _ | Returned => _ end) => destruct c
  | |- traces _ (match ?c with Some _ => _ | None => _ end) => destruct c
  end.

(** The sector loop and the progress reporter. *)
Section TracesInner.

Context {World : Type} (kernel : syscall -> World -> reply * World).
Variable cfg : config.
Variable Q : list event -> Prop.
Hypothesis Q_nil : Q [].
Hypothesis Q_app : forall a b, Q a -> Q b -> Q (a ++ b).

(** [Q] does not mind what these functions do besides writing. *)
Hypothesis Q_inner : forall e, inner e = true -> Q [e].

Ltac other := apply Q_inner; reflexivity.

Lemma traces_log_dbg fmt args :
  traces Q (log_dbg (World := World) cfg fmt args).
Proof. unfold log_dbg. repeat traces_step. other. Qed.

Lemma traces_get_random fuel :
  forall n, traces Q (get_random kernel fuel n).
Proof.
  induction fuel as [|fuel IH]; intros n; simpl; repeat traces_step.
  - other.
  - apply IH.
Qed.

Lemma traces_init_sector fuel : traces Q (init_sector kernel cfg fuel).
Proof.
  unfold init_sector. traces_step; [now apply traces_get_random | traces_step].
Qed.

Lemma traces_init_sectors n fuel : traces Q (init_sectors kernel cfg n fuel).
Proof.
  induction n as [|n IH]; simpl; repeat traces_step; auto.
  apply traces_init_sector.
Qed.

Lemma traces_print_progress d b f : traces Q (print_progress kernel d b f).
Proof.
  unfold print_progress, gettimeofday_now, report, clear_line, report_line.
  destruct f;
    repeat first
      [ traces_step
      | other
      | apply traces_silent; [assumption | intros; reflexivity] ].
Qed.

(** The sector loop in the mode [dc], when [Q] accepts what one round of
    it does. *)
Variable dc : dev_command.

Hypothesis Q_check_sector :
  forall fuel devfd sector,
    traces Q (check_sector kernel cfg fuel devfd sector dc).

Lemma traces_sector_loop n fuel devfd bound :
  forall sector, traces Q (sector_loop kernel cfg n fuel devfd bound sector dc).
Proof.
  induction n as [|n IH]; intros sector; simpl; repeat traces_step.
  - apply Q_check_sector.
  - apply IH.
Qed.

Lemma traces_check_one_by_one fuel devfd bs off :
  traces Q (check_one_by_one kernel cfg fuel devfd bs off dc).
Proof.
  unfold check_one_by_one, clear_line. repeat traces_step; try other.
  apply traces_sector_loop.
Qed.

End TracesInner.

(** The engine in the mode [dc]: [Q] does not mind an event that is
    neither a write nor an open, and accepts the opens of that mode, the
    writes of [format] when that is the mode, and what one round of the
    sector loop does. *)
Section TracesOf.

Context {World : Type} (kernel : syscall -> World -> reply * World).
Variable cfg : config.
Variable Q : list event -> Prop.
Hypothesis Q_nil : Q [].
Hypothesis Q_app : forall a b, Q a -> Q b -> Q (a ++ b).
Hypothesis Q_other :
  forall e, is_write e = false -> is_open e = false -> Q [e].
Variable dc : dev_command.
Hypothesis Q_open_ro : forall p r, Q [Sys (SysOpen p O_RDONLY) r].
Hypothesis Q_open_rw : forall p r, Q [Sys (SysOpen p (rw_flags cfg dc)) r].
Hypothesis Q_format :
  is_format dc = true -> forall fd n r, Q [Sys (SysWrite fd n) r].
Hypothesis Q_check_sector :
  forall fuel devfd sector,
    traces Q (check_sector kernel cfg fuel devfd sector dc).

Ltac other := apply Q_other; reflexivity.

Lemma Q_inner_of_other (e : event) : inner e = true -> Q [e].
Proof.
  intros H. apply Q_other; destruct e as [c r| | |]; try reflexivity;
    destruct c; try reflexivity; discriminate.
Qed.

Lemma traces_chunk fuel devfd dev off bs :
  traces Q (chunk kernel cfg fuel devfd dev off bs dc).
Proof.
  unfold chunk. repeat traces_step; try other.
  - apply traces_log_dbg; auto using Q_inner_of_other.
  - apply traces_init_sectors; auto using Q_inner_of_other.
  - now apply Q_format.
  - apply traces_check_one_by_one; auto using Q_inner_of_other.
  - apply traces_print_progress; auto using Q_inner_of_other.
Qed.

Lemma traces_chunk_loop n fuel devfd dev :
  forall off, traces Q (chunk_loop kernel cfg n fuel devfd dev off dc).
Proof.
  induction n as [|n IH]; intros off; simpl; repeat traces_step.
  - apply traces_chunk.
  - apply IH.
Qed.

Lemma traces_finish devfd dev off : traces Q (finish kernel devfd dev off).
Proof.
  unfold finish. repeat traces_step; try other.
  apply traces_print_progress; auto using Q_inner_of_other.
Qed.

Lemma traces_scan n fuel devfd dev off :
  traces Q (scan kernel cfg n fuel devfd dev off dc).
Proof.
  unfold scan. repeat traces_step.
  - apply traces_chunk_loop.
  - apply traces_finish.
Qed.

Lemma traces_rw_sectors fuel device off dev :
  traces Q (rw_sectors kernel cfg fuel device off dev dc).
Proof.
  unfold rw_sectors, aligned_malloc. repeat traces_step; try other.
  - apply Q_open_rw.
  - apply traces_scan.
Qed.

Lemma traces_device_size_sec device :
  traces Q (device_size_sec kernel device).
Proof.
  unfold device_size_sec. repeat traces_step; try other.
  apply Q_open_ro.
Qed.

Lemma traces_cmd_dev fuel device :
  traces Q (cmd_dev kernel cfg fuel device dc).
Proof.
  unfold cmd_dev.
  traces_step; [apply traces_log_dbg; auto using Q_inner_of_other|].
  traces_step; [apply traces_device_size_sec|].
  destruct a0 as [r [size|]]; destruct r; cbn iota; try traces_step.
  apply traces_rw_sectors.
Qed.

End TracesOf.

(* ================================================================== *)
(** * Check mode writes nothing *)
(* ================================================================== *)

Lemma read_only_other (e : event) :
  is_write e = false -> is_open e = false -> Forall read_only_event [e].
Proof.
  intros Hw Ho. constructor; [|constructor].
  destruct e as [c r| | |]; simpl; auto.
  destruct c; simpl in *; auto; discriminate.
Qed.

Lemma read_only_check_sector {World} (kernel : syscall -> World -> reply * World)
    (cfg : config) (fuel : nat) (devfd sector : Z) :
  traces (Forall read_only_event)
         (check_sector kernel cfg fuel devfd sector DEV_CHECK).
Proof.
  pose proof (@Forall_nil event read_only_event) as Hnil.
  assert (Happ : forall a b : list event, Forall read_only_event a ->
            Forall read_only_event b -> Forall read_only_event (a ++ b))
    by (intros; apply Forall_app; now split).
  unfold check_sector. simpl.
  repeat traces_step; apply read_only_other; reflexivity.
Qed.


Lemma rw_flags_check (cfg : config) :
  sane cfg -> Z.land (rw_flags cfg DEV_CHECK) O_ACCMODE = O_RDONLY.
Proof.
  intros [[H|H] _]; unfold rw_flags; simpl; rewrite H; reflexivity.
Qed.

(** C3.  In check mode the program writes nothing, whatever the kernel
    answers to its system calls (readable sectors or not) and however far
    the run gets: no event of the trace of [cmd_dev] is a write, neither
    from the chunk loop nor from the sector loop, and both times it opens
    the device the access mode is [O_RDONLY]. *)
Theorem check_mode_never_writes :
  forall (os : list option_arg) (cfg : config),
    parse_options os default_config = Some cfg ->
    forall (World : Type) (kernel : syscall -> World -> reply * World)
           (fuel : nat) (device : string) (s : St World),
      Forall read_only_event
             (trace (cmd_dev kernel cfg fuel device DEV_CHECK s)).
Proof.
  intros os cfg Hcfg World kernel fuel device.
  apply configured_sane in Hcfg.
  apply (traces_cmd_dev kernel cfg (Forall read_only_event)).
  - constructor.
  - intros a b Ha Hb. apply Forall_app. now split.
  - apply read_only_other.
  - intros p r. repeat constructor.
  - intros p r. constructor; [|constructor]. simpl. now apply rw_flags_check.
  - discriminate.
  - intros. apply read_only_check_sector.
Qed.

(* ================================================================== *)
(** * Fix mode rewrites bad sectors only *)
(* ================================================================== *)

Lemma rewrite_justified_extend (a : list event) (fd : Z) (pre : list event) :
  rewrite_justified fd pre -> rewrite_justified fd (a ++ pre).
Proof.
  intros (sector & before & r1 & rd & fill & r2 & E & H).
  exists sector, (a ++ before), r1, rd, fill, r2.
  split; [|exact H]. rewrite E. now rewrite app_assoc.
Qed.

Lemma writes_justified_nil : writes_justified [].
Proof. intros pre fd count r post E. now destruct pre. Qed.

Lemma writes_justified_app (a b : list event) :
  writes_justified a -> writes_justified b -> writes_justified (a ++ b).
Proof.
  intros Ha Hb pre fd count r post E.
  apply app_eq_app in E. destruct E as (l & [[E1 E2]|[E1 E2]]).
  - destruct l as [|x l].
    + simpl in E2. rewrite app_nil_r in E1. subst a.
      destruct (Hb [] fd count r post (eq_sym E2)) as [Hc Hj].
      split; [exact Hc|].
      rewrite <- (app_nil_r pre). now apply rewrite_justified_extend.
    + injection E2 as <- E2. exact (Ha pre fd count r l E1).
  - destruct (Hb l fd count r post E2) as [Hc Hj].
    split; [exact Hc|]. subst pre. now apply rewrite_justified_extend.
Qed.

Lemma no_write_justified (t : list event) : no_write t -> writes_justified t.
Proof.
  intros H pre fd count r post E. subst t.
  apply Forall_app in H. destruct H as [_ H].
  inversion H as [|x l Hx Hl]. discriminate.
Qed.

Lemma writes_justified_other (e : event) :
  is_write e = false -> is_open e = false -> writes_justified [e].
Proof. intros H _. apply no_write_justified. now repeat constructor. Qed.

(** A trace with one write splits around it in one way only. *)
Lemma split_at_write (a b : list event) (w : event) :
  no_write a -> no_write b ->
  forall pre e post,
    is_write e = true ->
    a ++ w :: b = pre ++ e :: post ->
    pre = a /\ e = w /\ post = b.
Proof.
  intros Ha Hb. induction a as [|x a IH]; intros pre e post He E.
  - destruct pre as [|y pre]; simpl in E.
    + injection E as -> ->. auto.
    + injection E as -> E. subst b.
      apply Forall_app in Hb. destruct Hb as [_ Hb].
      inversion Hb as [|? ? Hx _]. congruence.
  - inversion Ha as [|? ? Hx Ha']. subst.
    destruct pre as [|y pre]; simpl in E.
    + injection E as -> _. congruence.
    + injection E as -> E.
      destruct (IH Ha' pre e post He E) as (-> & -> & ->). auto.
Qed.

Lemma no_write_getrandom (t : list event) :
  Forall (fun e => is_getrandom e = true) t -> no_write t.
Proof.
  apply Forall_impl. intros e H. destruct e as [c r| | |]; auto.
  destruct c; auto; discriminate.
Qed.

Lemma getrandom_only_get_random {World} (kernel : syscall -> World -> reply * World)
    (fuel : nat) :
  forall n, traces (Forall (fun e => is_getrandom e = true))
                   (get_random kernel fuel n).
Proof.
  pose proof (@Forall_nil event (fun e => is_getrandom e = true)) as Hnil.
  assert (Happ : forall a b : list event,
            Forall (fun e => is_getrandom e = true) a ->
            Forall (fun e => is_getrandom e = true) b ->
            Forall (fun e => is_getrandom e = true) (a ++ b))
    by (intros; apply Forall_app; now split).
  induction fuel as [|fuel IH]; intros n; simpl; repeat traces_step.
  - repeat constructor.
  - apply IH.
Qed.

Lemma getrandom_only_init_sector {World} (kernel : syscall -> World -> reply * World)
    (cfg : config) (fuel : nat) :
  traces (Forall (fun e => is_getrandom e = true)) (init_sector kernel cfg fuel).
Proof.
  unfold init_sector. destruct (_randomize cfg).
  - apply getrandom_only_get_random.
  - intros s. constructor.
Qed.

Lemma writes_justified_rewrite (fd sector : Z) (r1 rd r2 rw : reply)
    (fill tail : list event) :
  0 <= ret r1 -> ret rd <> SECTOR_SIZE -> media_error (err rd) ->
  0 <= ret r2 -> Forall (fun e => is_getrandom e = true) fill ->
  no_write tail ->
  writes_justified
    (Sys (SysLseek fd (s64 (u64 (sector * SECTOR_SIZE)))) r1
     :: Sys (SysRead fd SECTOR_SIZE) rd
     :: fill ++ Sys (SysLseek fd (s64 (u64 (sector * SECTOR_SIZE)))) r2
             :: Sys (SysWrite fd SECTOR_SIZE) rw :: tail).
Proof.
  intros H1 Hd He H2 Hfill Htail pre fd' count r post E.
  set (L1 := Sys (SysLseek fd (s64 (u64 (sector * SECTOR_SIZE)))) r1) in *.
  set (R := Sys (SysRead fd SECTOR_SIZE) rd) in *.
  set (L2 := Sys (SysLseek fd (s64 (u64 (sector * SECTOR_SIZE)))) r2) in *.
  assert (Ha : no_write ([L1; R] ++ fill ++ [L2])).
  { apply Forall_app. split; [repeat constructor|].
    apply Forall_app. split; [now apply no_write_getrandom|repeat constructor]. }
  destruct (split_at_write ([L1; R] ++ fill ++ [L2]) tail
              (Sys (SysWrite fd SECTOR_SIZE) rw) Ha Htail
              pre (Sys (SysWrite fd' count) r) post eq_refl) as (Ep & Ew & _).
  { rewrite <- E. simpl. rewrite <- app_assoc. reflexivity. }
  injection Ew as -> -> _. split; [reflexivity|].
  exists sector, [], r1, rd, fill, r2. subst pre. simpl. auto 10.
Qed.

Lemma writes_justified_check_sector {World}
    (kernel : syscall -> World -> reply * World) (cfg : config)
    (dc : dev_command) (fuel : nat) (devfd sector : Z) :
  traces writes_justified (check_sector kernel cfg fuel devfd sector dc).
Proof.
  intros s. unfold check_sector.
  unfold bind, call, printf, emit, pure, trace.
  destruct (kernel (SysLseek devfd (s64 (u64 (sector * SECTOR_SIZE)))) (world s))
    as [r1 w1] eqn:K1.
  destruct (ret r1 <? 0) eqn:C1; simpl.
  { apply no_write_justified. repeat constructor. }
  destruct (kernel (SysRead devfd SECTOR_SIZE) w1) as [rd w2] eqn:K2. simpl.
  destruct (ret rd =? SECTOR_SIZE) eqn:C2; simpl.
  { apply no_write_justified. repeat constructor. }
  destruct (negb (err rd =? EIO) && negb (err rd =? EILSEQ)) eqn:C3; simpl.
  { apply no_write_justified. repeat constructor. }
  destruct (is_fix dc) eqn:C4; simpl.
  2:{ apply no_write_justified. repeat constructor. }
  match goal with
  | |- context [init_sector kernel cfg fuel ?s0] =>
      pose proof (getrandom_only_init_sector kernel cfg fuel s0) as Hfill;
      unfold trace in Hfill;
      destruct (init_sector kernel cfg fuel s0) as [[tf sf] [[]| |]]
  end; simpl in *.
  2,3: apply no_write_justified; do 2 (constructor; [reflexivity|]);
       now apply no_write_getrandom.
  destruct (kernel (SysLseek devfd (s64 (u64 (sector * SECTOR_SIZE)))) (world sf))
    as [r2 w3] eqn:K3.
  destruct (ret r2 <? 0) eqn:C5; simpl.
  { apply no_write_justified. do 2 (constructor; [reflexivity|]).
    apply Forall_app. split; [now apply no_write_getrandom|repeat constructor]. }
  destruct (kernel (SysWrite devfd SECTOR_SIZE) w3) as [rw w4] eqn:K4.
  assert (Hm : media_error (err rd)).
  { unfold media_error.
    destruct (err rd =? EIO) eqn:A; [left; now apply Z.eqb_eq|].
    destruct (err rd =? EILSEQ) eqn:B; [right; now apply Z.eqb_eq|].
    discriminate. }
  apply Z.ltb_ge in C1, C5. apply Z.eqb_neq in C2.
  destruct (negb (ret rw =? SECTOR_SIZE)); simpl;
    apply writes_justified_rewrite; auto; repeat constructor.
Qed.

Lemma write_needs_failed_read (t : list event) :
  writes_justified t -> reads_complete t -> no_write t.
Proof.
  intros Hj Hr. apply Forall_forall. intros e Hin.
  destruct (is_write e) eqn:He; [exfalso|reflexivity].
  destruct e as [c r| | |]; try discriminate.
  destruct c; try discriminate.
  apply in_split in Hin. destruct Hin as (pre & post & E).
  destruct (Hj pre fd count r post E)
    as (_ & sector & before & r1 & rd & fill & r2 & Ep & _ & Hd & _).
  apply Hd. apply (Hr fd). subst t pre.
  apply in_or_app. left. apply in_or_app. right. simpl. auto.
Qed.

(** X20.  In fix mode every write of the program is the rewriting of one
    sector, and what precedes it in the trace is the seek to that sector,
    the read of that one sector, which did not return the sector and after
    which [errno] held EIO or EILSEQ (set by that read or left by an
    earlier call: the program does not tell them apart), the filling of
    the buffer and the second seek to the sector.  A sector whose read
    returns the sector is therefore not rewritten, and a pass in which
    every read returns what it asked for (no bad sector is left) writes
    nothing. *)
Theorem fix_rewrites_bad_sectors_only :
  forall (World : Type) (kernel : syscall -> World -> reply * World)
         (cfg : config) (fuel : nat) (device : string) (s : St World),
    writes_justified (trace (cmd_dev kernel cfg fuel device DEV_FIX s)) /\
    (reads_complete (trace (cmd_dev kernel cfg fuel device DEV_FIX s)) ->
     no_write (trace (cmd_dev kernel cfg fuel device DEV_FIX s))).
Proof.
  intros World kernel cfg fuel device s.
  assert (Hj : writes_justified (trace (cmd_dev kernel cfg fuel device DEV_FIX s))).
  { apply (traces_cmd_dev kernel cfg writes_justified).
    - apply writes_justified_nil.
    - apply writes_justified_app.
    - apply writes_justified_other.
    - intros p r. apply no_write_justified. now repeat constructor.
    - intros p r. apply no_write_justified. now repeat constructor.
    - discriminate.
    - intros. apply writes_justified_check_sector. }
  split; [exact Hj|]. now apply write_needs_failed_read.
Qed.

(* ================================================================== *)
(** * The chunk loop partitions the extent *)
(* ================================================================== *)

Section Partition.

Variables chunk_sectors dev : Z.
Hypothesis chunk_sectors_pos : 0 < chunk_sectors.

Lemma chunk_list_sizes (n : nat) :
  forall off,
    Forall (fun p => snd p = Z.min chunk_sectors (dev - fst p) /\
                     0 < snd p /\ fst p < dev)
           (chunk_list n chunk_sectors dev off).
Proof.
  induction n as [|n IH]; intros off; simpl; [constructor|].
  destruct (off <? dev) eqn:E; [|constructor].
  apply Z.ltb_lt in E. constructor; [simpl; lia | apply IH].
Qed.

Lemma chunk_list_chained (n : nat) :
  forall off,
    off <= dev -> (Z.to_nat (dev - off) < n)%nat ->
    chained off (chunk_list n chunk_sectors dev off) dev.
Proof.
  induction n as [|n IH]; intros off Hoff Hn; [lia|]. simpl.
  destruct (off <? dev) eqn:E.
  - apply Z.ltb_lt in E. simpl. split; [reflexivity|]. apply IH; lia.
  - apply Z.ltb_ge in E. simpl. lia.
Qed.

End Partition.

Lemma chained_sum (l : list (Z * Z)) :
  forall off stop, chained off l stop -> sum_sizes l = stop - off.
Proof.
  induction l as [|[o size] l IH]; simpl; intros off stop H.
  - unfold sum_sizes. simpl. lia.
  - destruct H as [-> H]. apply IH in H. unfold sum_sizes in *. simpl. lia.
Qed.

Lemma chained_last (rest : list (Z * Z)) :
  forall off stop o size,
    chained off (rest ++ [(o, size)]) stop -> o + size = stop.
Proof.
  induction rest as [|[o' size'] rest IH]; simpl; intros off stop o size H.
  - tauto.
  - destruct H as [_ H]. eapply IH, H.
Qed.

(** Without overflow, lines 245-248 compute min(chunk size, remaining). *)
Lemma chunk_size_min (cfg : config) (dev off : Z) :
  0 < block_sectors cfg -> 0 <= off < dev -> dev + block_sectors cfg < 2 ^ 64 ->
  chunk_size cfg dev off = Z.min (block_sectors cfg) (dev - off).
Proof.
  intros Hb Hoff Hd. unfold chunk_size, u64.
  rewrite (Z.mod_small (off + block_sectors cfg)) by lia.
  destruct (dev <? off + block_sectors cfg) eqn:E.
  - apply Z.ltb_lt in E. rewrite Z.mod_small by lia. lia.
  - apply Z.ltb_ge in E. lia.
Qed.

(** The loop runs one round for each chunk of the partition. *)
Lemma chunk_loop_run_chunks {World} (kernel : syscall -> World -> reply * World)
    (cfg : config) (fuel : nat) (devfd dev : Z) (dc : dev_command) :
  0 < block_sectors cfg -> dev + block_sectors cfg < 2 ^ 64 ->
  forall (n : nat) (off : Z),
    0 <= off <= dev -> (Z.to_nat (dev - off) < n)%nat ->
    forall s,
      chunk_loop kernel cfg n fuel devfd dev off dc s =
      run_chunks kernel cfg fuel devfd dev dc
                 (chunk_list n (block_sectors cfg) dev off) dev s.
Proof.
  intros Hb Hd. induction n as [|n IH]; intros off Hoff Hn s; [lia|].
  simpl. destruct (off <? dev) eqn:E.
  - apply Z.ltb_lt in E.
    rewrite chunk_size_min by lia.
    set (size := Z.min (block_sectors cfg) (dev - off)).
    assert (Hs : 0 < size <= dev - off) by (unfold size; lia).
    cbn [run_chunks]. unfold bind.
    destruct (chunk kernel cfg fuel devfd dev off size dc s) as [[t1 s1] [[|]| |]];
      try reflexivity.
    unfold u64. rewrite Z.mod_small by lia.
    rewrite IH by lia. reflexivity.
  - apply Z.ltb_ge in E. simpl. replace off with dev by lia. reflexivity.
Qed.

(** C1.  For every device (of any size in bytes that [BLKGETSIZE64] can
    report, which [device_size_sec] divides by the sector size) and every
    chunk size that [main] accepts, the chunk loop started at offset 0 runs
    exactly one round for each chunk of the partition of the extent: the
    chunk at each offset is min(chunk size, extent - offset) sectors long,
    is never empty and starts before the end; each chunk starts where the
    one before it ends, from 0 to the extent; the sizes add up to the
    extent; the last chunk is the remainder.  ([n] bounds the number of
    rounds; the loop needs no more than one round per sector.) *)
Theorem chunk_loop_partitions_extent :
  forall (os : list option_arg) (cfg : config),
    parse_options os default_config = Some cfg ->
    forall size_bytes : Z,
      0 <= size_bytes < 2 ^ 64 ->
      forall (World : Type) (kernel : syscall -> World -> reply * World)
             (n fuel : nat) (devfd : Z) (dc : dev_command) (s : St World),
        (Z.to_nat (size_bytes / SECTOR_SIZE) < n)%nat ->
        let dev := size_bytes / SECTOR_SIZE in
        let parts := chunk_list n (block_sectors cfg) dev 0 in
        chunk_loop kernel cfg n fuel devfd dev 0 dc s =
          run_chunks kernel cfg fuel devfd dev dc parts dev s /\
        Forall (fun p => snd p = Z.min (block_sectors cfg) (dev - fst p) /\
                         0 < snd p /\ fst p < dev) parts /\
        chained 0 parts dev /\
        sum_sizes parts = dev /\
        (forall rest o size, parts = rest ++ [(o, size)] -> size = dev - o).
Proof.
  intros os cfg Hcfg size_bytes Hsize World kernel n fuel devfd dc s Hn dev parts.
  apply configured_sane in Hcfg. destruct Hcfg as [_ Hb].
  assert (Hdev : 0 <= dev < 2 ^ 55).
  { unfold dev, SECTOR_SIZE. split.
    - apply Z.div_pos; lia.
    - apply Z.div_lt_upper_bound; lia. }
  assert (Hch : chained 0 parts dev).
  { apply chunk_list_chained; lia. }
  split; [|split; [|split; [|split]]].
  - apply chunk_loop_run_chunks; lia.
  - apply chunk_list_sizes. lia.
  - exact Hch.
  - rewrite (chained_sum parts 0 dev Hch). lia.
  - intros rest o size E. rewrite E in Hch.
    apply chained_last in Hch. lia.
Qed.

(** 100000 sectors in chunks of 8192: twelve whole chunks and a last one
    of 100000 mod 8192 = 1696 sectors. *)
Example chunk_list_100000 :
  chunk_list 14 8192 100000 0 =
  [(0, 8192); (8192, 8192); (16384, 8192); (24576, 8192); (32768, 8192);
   (40960, 8192); (49152, 8192); (57344, 8192); (65536, 8192); (73728, 8192);
   (81920, 8192); (90112, 8192); (98304, 1696)].
Proof. reflexivity. Qed.

(* ================================================================== *)
(** * Running the functions on a given state *)
(* ================================================================== *)

Section Runs.

Context {World : Type} (kernel : syscall -> World -> reply * World).

Lemma run_call (c : syscall) (s : St World) (r : reply) (w : World) :
  kernel c (world s) = (r, w) ->
  call kernel c s =
  ([Sys c r], mk_St w (start_time s) (now_time s) (end_time s), Done r).
Proof. intros H. unfold call. now rewrite H. Qed.

Lemma bind_result {A B} (m : M World A) (f : A -> M World B) (s : St World)
    (b : B) :
  result (bind m f s) = Done b ->
  exists t1 s1 a, m s = (t1, s1, Done a) /\ result (f a s1) = Done b.
Proof.
  unfold bind, result. destruct (m s) as [[t1 s1] [a| |]]; try discriminate.
  intros H. exists t1, s1, a. split; [reflexivity|].
  destruct (f a s1) as [[t2 s2] r]. exact H.
Qed.

Lemma bind_trace {A B} (m : M World A) (f : A -> M World B) (s : St World) :
  trace (bind m f s) =
  trace (m s) ++ match result (m s) with
                 | Done a => trace (f a (final (m s)))
                 | _ => []
                 end.
Proof.
  unfold bind, trace, result, final.
  destruct (m s) as [[t1 s1] [a| |]]; simpl; try now rewrite app_nil_r.
  now destruct (f a s1) as [[t2 s2] r].
Qed.

Lemma bind_outcome {A B} (m : M World A) (f : A -> M World B) (s : St World) :
  result (bind m f s) =
  match result (m s) with
  | Done a => result (f a (final (m s)))
  | Abort => Abort
  | Timeout => Timeout
  end.
Proof.
  unfold bind, result, final.
  destruct (m s) as [[t1 s1] [a| |]]; simpl; try reflexivity.
  now destruct (f a s1) as [[t2 s2] r].
Qed.

Lemma bind_call {B} (c : syscall) (f : reply -> M World B) (s : St World)
    (r : reply) (w : World) :
  kernel c (world s) = (r, w) ->
  bind (call kernel c) f s =
  (Sys c r :: trace (f r (mk_St w (start_time s) (now_time s) (end_time s))),
   final (f r (mk_St w (start_time s) (now_time s) (end_time s))),
   result (f r (mk_St w (start_time s) (now_time s) (end_time s)))).
Proof.
  intros H. unfold bind. rewrite (run_call c s r w H).
  now destruct (f r _) as [[t2 s2] o].
Qed.

Lemma bind_done {A B} (m : M World A) (f : A -> M World B) (s s1 : St World)
    (t1 : list event) (a : A) :
  m s = (t1, s1, Done a) ->
  bind m f s = (t1 ++ trace (f a s1), final (f a s1), result (f a s1)).
Proof.
  intros H. unfold bind. rewrite H. now destruct (f a s1) as [[t2 s2] o].
Qed.

Lemma bind_emit {B} (e : event) (f : unit -> M World B) (s : St World) :
  bind (emit e) f s = (e :: trace (f tt s), final (f tt s), result (f tt s)).
Proof. unfold bind, emit. now destruct (f tt s) as [[t2 s2] o]. Qed.

End Runs.

(** Runs the system call at the head of the goal. *)
Ltac step_call :=
  match goal with
  | |- context [bind (call ?k ?c) ?f ?s] =>
      let r := fresh "r" in
      let w := fresh "w" in
      let K := fresh "K" in
      destruct (k c (world s)) as [r w] eqn:K;
      rewrite (bind_call k c f s r w K);
      cbn [trace result final fst snd world start_time now_time end_time] in *
  end.

Ltac step_emit :=
  rewrite bind_emit; cbn [trace result final fst snd].

(* ================================================================== *)
(** * A failed seek of the chunk loop *)
(* ================================================================== *)

Lemma quiet_fds (t : list event) :
  Forall quiet t -> opened_fds t = [] /\ closed_fds t = [].
Proof.
  induction 1 as [|e t [Ho Hc] _ [IHo IHc]]; [now split|].
  unfold opened_fds, closed_fds in *. simpl. rewrite IHo, IHc.
  destruct e as [c r| | |]; auto. destruct c; auto; discriminate.
Qed.

Lemma opened_fds_app a b : opened_fds (a ++ b) = opened_fds a ++ opened_fds b.
Proof. apply flat_map_app. Qed.

Lemma closed_fds_app a b : closed_fds (a ++ b) = closed_fds a ++ closed_fds b.
Proof. apply flat_map_app. Qed.

Section Handles.

Context {World : Type} (kernel : syscall -> World -> reply * World).
Variable cfg : config.

Let Qnil : Forall quiet [] := Forall_nil quiet.

Lemma quiet_app (a b : list event) :
  Forall quiet a -> Forall quiet b -> Forall quiet (a ++ b).
Proof. intros. apply Forall_app. now split. Qed.

Lemma quiet_inner (e : event) : inner e = true -> Forall quiet [e].
Proof.
  intros H. constructor; [|constructor].
  destruct e as [c r| | |]; try (now split). destruct c; try discriminate; now split.
Qed.

Lemma quiet_check_sector fuel devfd sector dc :
  traces (Forall quiet) (check_sector kernel cfg fuel devfd sector dc).
Proof.
  pose proof Qnil. pose proof quiet_app.
  unfold check_sector.
  repeat first
    [ apply traces_init_sector; [assumption|assumption|apply quiet_inner]
    | traces_step ];
    now repeat constructor.
Qed.

Lemma quiet_print_progress d b f :
  traces (Forall quiet) (print_progress kernel d b f).
Proof.
  apply traces_print_progress;
    [exact Qnil | apply quiet_app | apply quiet_inner].
Qed.

(** A round of the chunk loop closes the handle when its seek fails, and
    only then. *)
Lemma chunk_fds fuel devfd dev off size dc (s : St World) :
  (result (chunk kernel cfg fuel devfd dev off size dc s) = Done false /\
   opened_fds (trace (chunk kernel cfg fuel devfd dev off size dc s)) = [] /\
   closed_fds (trace (chunk kernel cfg fuel devfd dev off size dc s)) = [devfd])
  \/
  (result (chunk kernel cfg fuel devfd dev off size dc s) <> Done false /\
   Forall quiet (trace (chunk kernel cfg fuel devfd dev off size dc s))).
Proof.
  pose proof Qnil as Hn. pose proof quiet_app as Ha.
  unfold chunk. step_call.
  destruct (ret r <? 0).
  - left. unfold printf. step_emit. step_call. step_emit. cbn. auto.
  - right. split.
    + intros H. apply bind_result in H. destruct H as (t1 & s1 & a & _ & H).
      apply bind_result in H. destruct H as (t2 & s2 & a2 & _ & H).
      discriminate.
    + constructor; [now split|].
      match goal with
      | |- Forall quiet (trace (?m ?s0)) =>
          assert (Hm : traces (Forall quiet) m); [|apply Hm]
      end.
      repeat first
        [ apply traces_log_dbg; [assumption|apply quiet_inner]
        | apply traces_init_sectors; [assumption|assumption|apply quiet_inner]
        | apply quiet_print_progress
        | apply traces_check_one_by_one;
          [assumption|assumption|apply quiet_inner
          |intros; apply quiet_check_sector]
        | traces_step ];
        now repeat constructor.
Qed.

Lemma chunk_loop_fds n fuel devfd dev dc :
  forall off (s : St World),
    opened_fds (trace (chunk_loop kernel cfg n fuel devfd dev off dc s)) = [] /\
    closed_fds (trace (chunk_loop kernel cfg n fuel devfd dev off dc s)) =
      match result (chunk_loop kernel cfg n fuel devfd dev off dc s) with
      | Done None => [devfd]
      | _ => []
      end.
Proof.
  induction n as [|n IH]; intros off s; simpl; [now split|].
  destruct (off <? dev); [|now split].
  rewrite bind_trace, bind_outcome, opened_fds_app, closed_fds_app.
  destruct (chunk_fds fuel devfd dev off (chunk_size cfg dev off) dc s)
    as [(Hr & Ho & Hc)|(Hr & Hq)].
  - rewrite Hr, Ho, Hc. simpl. now split.
  - apply quiet_fds in Hq. destruct Hq as [Ho Hc]. rewrite Ho, Hc.
    destruct (result (chunk kernel cfg fuel devfd dev off
                        (chunk_size cfg dev off) dc s)) as [[|]| |];
      cbn [app]; [apply IH | congruence | now split | now split].
Qed.

Lemma finish_fds devfd dev off (s : St World) :
  opened_fds (trace (finish kernel devfd dev off s)) = [] /\
  closed_fds (trace (finish kernel devfd dev off s)) = [devfd].
Proof.
  unfold finish. step_call. rename r into rf.
  rewrite bind_trace.
  assert (Hw : forall s0 : St World,
            when (ret rf <? 0) (printf fmt_fsync [PInt (err rf)]) s0
            = ((if ret rf <? 0 then [Printf fmt_fsync [PInt (err rf)]] else []),
               s0, Done tt)).
  { intros s0. now destruct (ret rf <? 0). }
  rewrite Hw. cbn [trace result final fst snd].
  step_call. step_emit. rewrite bind_trace.
  match goal with
  | |- context [trace (print_progress kernel ?d ?b ?f ?s1)] =>
      pose proof (quiet_print_progress d b f s1) as Hq;
      apply quiet_fds in Hq; destruct Hq as [Ho Hc];
      destruct (result (print_progress kernel d b f s1))
  end;
    unfold opened_fds, closed_fds in *;
    destruct (ret rf <? 0); cbn [flat_map app];
    repeat rewrite flat_map_app; rewrite ?Ho, ?Hc; now split.
Qed.

Lemma scan_fds n fuel devfd dev off dc (s : St World) (r : Z) :
  result (scan kernel cfg n fuel devfd dev off dc s) = Done r ->
  opened_fds (trace (scan kernel cfg n fuel devfd dev off dc s)) = [] /\
  closed_fds (trace (scan kernel cfg n fuel devfd dev off dc s)) = [devfd].
Proof.
  unfold scan. rewrite bind_trace, bind_outcome, opened_fds_app, closed_fds_app.
  destruct (chunk_loop_fds n fuel devfd dev dc off s) as [Ho Hc].
  rewrite Ho, Hc.
  destruct (result (chunk_loop kernel cfg n fuel devfd dev off dc s))
    as [[o|]| |]; try discriminate; intros _.
  - destruct (finish_fds devfd dev o
                (final (chunk_loop kernel cfg n fuel devfd dev off dc s)))
      as [Ho' Hc'].
    rewrite Ho', Hc'. now split.
  - now split.
Qed.

Lemma rw_sectors_fds fuel device off dev dc (s : St World) (r : Z) :
  result (rw_sectors kernel cfg fuel device off dev dc s) = Done r ->
  closed_fds (trace (rw_sectors kernel cfg fuel device off dev dc s)) =
  opened_fds (trace (rw_sectors kernel cfg fuel device off dev dc s)).
Proof.
  unfold rw_sectors.
  match goal with
  | |- context [aligned_malloc kernel ?size] =>
      destruct (kernel (SysMemalign 8192 (u64 (s32 size))) (world s))
        as [rm w1] eqn:Km;
      assert (Em : aligned_malloc kernel size s =
                   ([Sys (SysMemalign 8192 (u64 (s32 size))) rm],
                    mk_St w1 (start_time s) (now_time s) (end_time s),
                    Done (if ret rm =? 0
                          then match data rm with Val p => p | _ => 0 end
                          else 0)))
        by (unfold aligned_malloc; now rewrite (bind_call kernel _ _ _ _ _ Km))
  end.
  rewrite (bind_done _ _ _ _ _ _ Em). cbn [trace result final fst snd app].
  match goal with |- context [if ?b then pure EXIT_FAILURE else _] =>
    destruct b end; [reflexivity|].
  step_call. destruct (ret r0 =? -1) eqn:E.
  - step_emit. cbn. now rewrite E.
  - intros H. apply scan_fds in H. destruct H as [Ho Hc].
    unfold opened_fds, closed_fds in *. cbn [flat_map app].
    rewrite Ho, Hc, E. reflexivity.
Qed.

End Handles.

Section SeekFailure.

Context {World : Type} (kernel : syscall -> World -> reply * World).
Variable cfg : config.

Lemma chunk_seek_failure fuel devfd dev off size dc (s : St World) r w rc w' :
  kernel (SysLseek devfd (s64 (u64 (off * SECTOR_SIZE)))) (world s) = (r, w) ->
  ret r < 0 ->
  kernel (SysClose devfd) w = (rc, w') ->
  chunk kernel cfg fuel devfd dev off size dc s =
  ([Sys (SysLseek devfd (s64 (u64 (off * SECTOR_SIZE)))) r;
    Printf fmt_seek_error [PU64 off; PInt (err r)];
    Sys (SysClose devfd) rc; Free],
   mk_St w' (start_time s) (now_time s) (end_time s), Done false).
Proof.
  intros K Hr Kc. unfold chunk.
  rewrite (bind_call kernel _ _ _ _ _ K).
  apply Z.ltb_lt in Hr. rewrite Hr. unfold printf.
  rewrite bind_emit. cbn [trace final result fst snd].
  rewrite (bind_call kernel (SysClose devfd) _
             (mk_St w (start_time s) (now_time s) (end_time s)) rc w' Kc).
  rewrite bind_emit. reflexivity.
Qed.

Lemma scan_seek_failure n fuel devfd dev off dc (s : St World) r w rc w' :
  off < dev ->
  kernel (SysLseek devfd (s64 (u64 (off * SECTOR_SIZE)))) (world s) = (r, w) ->
  ret r < 0 ->
  kernel (SysClose devfd) w = (rc, w') ->
  scan kernel cfg (S n) fuel devfd dev off dc s =
  ([Sys (SysLseek devfd (s64 (u64 (off * SECTOR_SIZE)))) r;
    Printf fmt_seek_error [PU64 off; PInt (err r)];
    Sys (SysClose devfd) rc; Free],
   mk_St w' (start_time s) (now_time s) (end_time s), Done EXIT_FAILURE).
Proof.
  intros Hoff K Hr Kc. unfold scan. cbn [chunk_loop].
  apply Z.ltb_lt in Hoff. rewrite Hoff.
  pose proof (chunk_seek_failure fuel devfd dev off (chunk_size cfg dev off)
                dc s r w rc w' K Hr Kc) as E.
  assert (El : bind (chunk kernel cfg fuel devfd dev off (chunk_size cfg dev off) dc)
                 (fun ok : bool =>
                    if ok
                    then chunk_loop kernel cfg n fuel devfd dev
                           (u64 (off + chunk_size cfg dev off)) dc
                    else pure None) s
               = ([Sys (SysLseek devfd (s64 (u64 (off * SECTOR_SIZE)))) r;
                   Printf fmt_seek_error [PU64 off; PInt (err r)];
                   Sys (SysClose devfd) rc; Free],
                  mk_St w' (start_time s) (now_time s) (end_time s), Done None)).
  { rewrite (bind_done _ _ _ _ _ _ E). reflexivity. }
  rewrite (bind_done _ _ _ _ _ _ El). reflexivity.
Qed.

Lemma scan_round n fuel devfd dev off dc (s s1 : St World) t :
  off < dev ->
  chunk kernel cfg fuel devfd dev off (chunk_size cfg dev off) dc s
    = (t, s1, Done true) ->
  scan kernel cfg (S n) fuel devfd dev off dc s =
  (t ++ trace (scan kernel cfg n fuel devfd dev
                    (u64 (off + chunk_size cfg dev off)) dc s1),
   final (scan kernel cfg n fuel devfd dev
               (u64 (off + chunk_size cfg dev off)) dc s1),
   result (scan kernel cfg n fuel devfd dev
                (u64 (off + chunk_size cfg dev off)) dc s1)).
Proof.
  intros Hoff E. unfold scan. cbn [chunk_loop].
  apply Z.ltb_lt in Hoff. rewrite Hoff.
  unfold bind. rewrite E.
  destruct (chunk_loop kernel cfg n fuel devfd dev
              (u64 (off + chunk_size cfg dev off)) dc s1) as [[t2 s2] [o| |]];
    cbn [trace final result fst snd]; try reflexivity.
  destruct o as [o|].
  - destruct (finish kernel devfd dev o s2) as [[t3 s3] o3].
    cbn [trace final result fst snd]. now rewrite app_assoc.
  - cbn. now rewrite app_assoc.
Qed.

End SeekFailure.

(** C5.  A seek that fails at the head of a round of the chunk loop ends
    the operation there: what the program does from that round on is the
    failed seek, the report of the error, the closing of the handle and
    the release of the buffer, nothing more (no further chunk), and the
    result is [EXIT_FAILURE], which is not zero.  Every round whose seek
    succeeded is followed by the scan from the next offset, so this holds
    at whichever round the seek fails.  On every path on which
    [rw_sectors] returns, the handles it has closed are exactly the
    handles it has opened. *)
Theorem seek_failure_is_fatal :
  forall (World : Type) (kernel : syscall -> World -> reply * World)
         (cfg : config),
    (forall n fuel devfd dev off dc (s : St World) r w rc w',
        off < dev ->
        kernel (SysLseek devfd (s64 (u64 (off * SECTOR_SIZE)))) (world s)
          = (r, w) ->
        ret r < 0 ->
        kernel (SysClose devfd) w = (rc, w') ->
        scan kernel cfg (S n) fuel devfd dev off dc s =
        ([Sys (SysLseek devfd (s64 (u64 (off * SECTOR_SIZE)))) r;
          Printf fmt_seek_error [PU64 off; PInt (err r)];
          Sys (SysClose devfd) rc; Free],
         mk_St w' (start_time s) (now_time s) (end_time s),
         Done EXIT_FAILURE)) /\
    EXIT_FAILURE <> 0 /\
    (forall n fuel devfd dev off dc (s s1 : St World) t,
        off < dev ->
        chunk kernel cfg fuel devfd dev off (chunk_size cfg dev off) dc s
          = (t, s1, Done true) ->
        scan kernel cfg (S n) fuel devfd dev off dc s =
        (t ++ trace (scan kernel cfg n fuel devfd dev
                          (u64 (off + chunk_size cfg dev off)) dc s1),
         final (scan kernel cfg n fuel devfd dev
                     (u64 (off + chunk_size cfg dev off)) dc s1),
         result (scan kernel cfg n fuel devfd dev
                      (u64 (off + chunk_size cfg dev off)) dc s1))) /\
    (forall fuel device off dev dc (s : St World) r,
        result (rw_sectors kernel cfg fuel device off dev dc s) = Done r ->
        closed_fds (trace (rw_sectors kernel cfg fuel device off dev dc s)) =
        opened_fds (trace (rw_sectors kernel cfg fuel device off dev dc s))).
Proof.
  intros World kernel cfg. split; [|split; [|split]].
  - intros. eapply scan_seek_failure; eauto.
  - discriminate.
  - intros. eapply scan_round; eauto.
  - intros. eapply rw_sectors_fds; eauto.
Qed.

(* ================================================================== *)
(** * The progress reporter *)
(* ================================================================== *)

Section Progress.

Context {World : Type} (kernel : syscall -> World -> reply * World).

Lemma report_run d b f tdiff (s : St World) :
  report d b f tdiff s =
  ([Printf fmt_clear_line []; report_line d b f tdiff; Fflush], s, Done tt).
Proof. reflexivity. Qed.

(** What one call of [print_progress] does, by cases. *)
Lemma print_progress_run d b f (s : St World) r w :
  kernel SysGettimeofday (world s) = (r, w) ->
  print_progress kernel d b f s =
  let now := time_read r s in
  let tdiff := time_diff (start_time s) now in
  if timeval_is_zero (start_time s)
  then ([Sys SysGettimeofday r], mk_St w now now now, Done tt)
  else if negb f && PrimFloat.ltb (time_diff (end_time s) now) half
  then ([Sys SysGettimeofday r], mk_St w (start_time s) now (end_time s), Done tt)
  else if fzero tdiff || fzero (mib_of b tdiff)
  then ([Sys SysGettimeofday r], mk_St w (start_time s) now now, Done tt)
  else ([Sys SysGettimeofday r; Printf fmt_clear_line [];
         report_line d b f tdiff; Fflush],
        mk_St w (start_time s) now now, Done tt).
Proof.
  intros K. unfold print_progress, gettimeofday_now, time_read.
  unfold bind at 1. unfold bind at 1. rewrite (run_call kernel _ _ _ _ K).
  cbn [app]. unfold get_St, bind at 1.
  cbn [start_time end_time now_time world].
  destruct (timeval_is_zero (start_time s)); [reflexivity|].
  destruct (negb f && _); [reflexivity|].
  unfold set_end, bind at 1. unfold bind at 1.
  cbn [start_time end_time now_time world app].
  destruct (fzero (time_diff _ _)); [reflexivity|].
  destruct (fzero (mib_of _ _)); [reflexivity|].
  rewrite report_run. reflexivity.
Qed.

Lemma print_progress_total d b f (s : St World) :
  result (print_progress kernel d b f s) = Done tt.
Proof.
  destruct (kernel SysGettimeofday (world s)) as [r w] eqn:K.
  rewrite (print_progress_run d b f s r w K). cbv zeta.
  repeat match goal with |- context [if ?c then _ else _] => destruct c end;
    reflexivity.
Qed.

Lemma print_progress_first d b f (s : St World) r w :
  kernel SysGettimeofday (world s) = (r, w) ->
  timeval_is_zero (start_time s) = true ->
  print_progress kernel d b f s =
  ([Sys SysGettimeofday r],
   mk_St w (time_read r s) (time_read r s) (time_read r s), Done tt).
Proof.
  intros K Hz. rewrite (print_progress_run d b f s r w K). cbv zeta.
  now rewrite Hz.
Qed.

Lemma print_progress_throttled d b (s : St World) r w :
  kernel SysGettimeofday (world s) = (r, w) ->
  timeval_is_zero (start_time s) = false ->
  PrimFloat.ltb (time_diff (end_time s) (time_read r s)) half = true ->
  print_progress kernel d b false s =
  ([Sys SysGettimeofday r],
   mk_St w (start_time s) (time_read r s) (end_time s), Done tt).
Proof.
  intros K Hz Hlt. rewrite (print_progress_run d b false s r w K). cbv zeta.
  now rewrite Hz, Hlt.
Qed.

Lemma print_progress_divides d b f (s : St World) :
  existsb is_printf (trace (print_progress kernel d b f s)) = true ->
  exists r w,
    kernel SysGettimeofday (world s) = (r, w) /\
    fzero (mib_of b (time_diff (start_time s) (time_read r s))) = false /\
    print_progress kernel d b f s =
    ([Sys SysGettimeofday r; Printf fmt_clear_line [];
      report_line d b f (time_diff (start_time s) (time_read r s)); Fflush],
     mk_St w (start_time s) (time_read r s) (time_read r s), Done tt).
Proof.
  destruct (kernel SysGettimeofday (world s)) as [r w] eqn:K.
  rewrite (print_progress_run d b f s r w K). cbv zeta.
  destruct (timeval_is_zero (start_time s)); [discriminate|].
  destruct (negb f && _); [discriminate|].
  destruct (fzero (time_diff _ _) || fzero (mib_of _ _)) eqn:E; [discriminate|].
  intros _. exists r, w. apply orb_false_elim in E. now destruct E.
Qed.

Lemma progress_updates_window (calls : list (Z * Z)) :
  forall s : St World,
    timeval_is_zero (start_time s) = false ->
    Forall (in_window (end_time s)) (trace (progress_updates kernel calls s)) ->
    Forall (fun e => is_printf e = false)
           (trace (progress_updates kernel calls s)).
Proof.
  induction calls as [|[d b] calls IH]; intros s Hz H; [constructor|].
  cbn [progress_updates] in *.
  destruct (kernel SysGettimeofday (world s)) as [r w] eqn:K.
  assert (Hr : in_window (end_time s) (Sys SysGettimeofday r)).
  { rewrite bind_trace, (print_progress_run d b false s r w K) in H.
    cbv zeta in H.
    repeat match type of H with
           | context [if ?c then _ else _] => destruct c
           end;
      cbn [trace fst snd app] in H; now inversion H. }
  assert (Hlt : PrimFloat.ltb (time_diff (end_time s) (time_read r s)) half
                = true).
  { unfold in_window in Hr. unfold time_read.
    destruct (data r); try contradiction. exact Hr. }
  pose proof (print_progress_throttled d b s r w K Hz Hlt) as E.
  rewrite (bind_done _ _ _ _ _ _ E) in *. cbn [trace fst snd app] in *.
  inversion H as [|? ? _ H']. subst.
  constructor; [reflexivity|]. now apply IH.
Qed.

Lemma finish_run devfd dev off (s : St World) :
  exists rf rc w,
    finish kernel devfd dev off s =
    ([Sys (SysFsync devfd) rf]
     ++ (if ret rf <? 0 then [Printf fmt_fsync [PInt (err rf)]] else [])
     ++ [Sys (SysClose devfd) rc; Free]
     ++ trace (print_progress kernel (u64 (dev * SECTOR_SIZE))
                 (u64 (off * SECTOR_SIZE)) true
                 (mk_St w (start_time s) (now_time s) (end_time s))),
     final (print_progress kernel (u64 (dev * SECTOR_SIZE))
              (u64 (off * SECTOR_SIZE)) true
              (mk_St w (start_time s) (now_time s) (end_time s))),
     Done 0).
Proof.
  unfold finish. step_call.
  assert (Hw : forall s0 : St World,
            when (ret r <? 0) (printf fmt_fsync [PInt (err r)]) s0
            = ((if ret r <? 0 then [Printf fmt_fsync [PInt (err r)]] else []),
               s0, Done tt)).
  { intros s0. now destruct (ret r <? 0). }
  rewrite (bind_done _ _ _ _ _ _ (Hw _)).
  step_call. step_emit.
  exists r, r0, w0.
  rewrite bind_trace, bind_outcome, print_progress_total.
  cbn. unfold bind. 
  destruct (print_progress kernel _ _ true _) as [[tp sp] [[]| |]] eqn:Ep;
    pose proof (print_progress_total (u64 (dev * SECTOR_SIZE))
                  (u64 (off * SECTOR_SIZE)) true
                  (mk_St w0 (start_time s) (now_time s) (end_time s))) as Ht;
    rewrite Ep in Ht; try discriminate.
  cbn. rewrite !app_nil_r. reflexivity.
Qed.

End Progress.

(** C8.  The progress reporter, call by call.  (1) A call made while no
    start time is recorded (the first) records the time of the call as
    start and as time of the last report, and prints nothing.  (2) A
    call that is not final and reads the clock less than 0.5 s after
    the time of the last report prints nothing and leaves that time as
    it is.  (3) Whenever a call prints, the throughput [mib] that the
    estimate divides by is not zero, and the time of the call becomes the
    time of the last report.  (4) Hence no update that reads the clock
    within the 0.5 s after the time of the last report prints anything,
    however many of them there are. *)
Theorem progress_is_throttled :
  forall (World : Type) (kernel : syscall -> World -> reply * World),
    (forall d b f (s : St World) r w,
        kernel SysGettimeofday (world s) = (r, w) ->
        timeval_is_zero (start_time s) = true ->
        print_progress kernel d b f s =
        ([Sys SysGettimeofday r],
         mk_St w (time_read r s) (time_read r s) (time_read r s), Done tt)) /\
    (forall d b (s : St World) r w,
        kernel SysGettimeofday (world s) = (r, w) ->
        timeval_is_zero (start_time s) = false ->
        PrimFloat.ltb (time_diff (end_time s) (time_read r s)) half = true ->
        print_progress kernel d b false s =
        ([Sys SysGettimeofday r],
         mk_St w (start_time s) (time_read r s) (end_time s), Done tt)) /\
    (forall d b f (s : St World),
        existsb is_printf (trace (print_progress kernel d b f s)) = true ->
        exists r w,
          kernel SysGettimeofday (world s) = (r, w) /\
          fzero (mib_of b (time_diff (start_time s) (time_read r s))) = false /\
          print_progress kernel d b f s =
          ([Sys SysGettimeofday r; Printf fmt_clear_line [];
            report_line d b f (time_diff (start_time s) (time_read r s));
            Fflush],
           mk_St w (start_time s) (time_read r s) (time_read r s), Done tt)) /\
    (forall (calls : list (Z * Z)) (s : St World),
        timeval_is_zero (start_time s) = false ->
        Forall (in_window (end_time s))
               (trace (progress_updates kernel calls s)) ->
        Forall (fun e => is_printf e = false)
               (trace (progress_updates kernel calls s))).
Proof.
  intros World kernel. split; [|split; [|split]].
  - intros. now apply print_progress_first.
  - intros. now apply print_progress_throttled.
  - intros. now apply print_progress_divides.
  - intros. now apply progress_updates_window.
Qed.

(** C6, as the program has it.  When the chunk loop has ended, what
    follows it flushes and closes the handle, releases the buffer and
    then calls the progress reporter once, with the final flag: that is
    the end of the trace, and the result is 0.  A final call never looks
    at the time of the last report (the throttle): it prints the summary
    line, after clearing the line and before flushing, unless no start
    time is recorded yet (the call is the first), or the elapsed time is
    zero, or the throughput is zero (less than 1 MiB was processed); then
    it prints nothing.  The summary line is the one that starts with
    "Finished", and it ends with a newline. *)
Theorem final_report_when_measurable :
  forall (World : Type) (kernel : syscall -> World -> reply * World),
    (forall devfd dev off (s : St World),
        exists rf rc w,
          finish kernel devfd dev off s =
          ([Sys (SysFsync devfd) rf]
           ++ (if ret rf <? 0 then [Printf fmt_fsync [PInt (err rf)]] else [])
           ++ [Sys (SysClose devfd) rc; Free]
           ++ trace (print_progress kernel (u64 (dev * SECTOR_SIZE))
                       (u64 (off * SECTOR_SIZE)) true
                       (mk_St w (start_time s) (now_time s) (end_time s))),
           final (print_progress kernel (u64 (dev * SECTOR_SIZE))
                    (u64 (off * SECTOR_SIZE)) true
                    (mk_St w (start_time s) (now_time s) (end_time s))),
           Done 0)) /\
    (forall d b (s : St World) r w,
        kernel SysGettimeofday (world s) = (r, w) ->
        trace (print_progress kernel d b true s) =
        Sys SysGettimeofday r
        :: (if timeval_is_zero (start_time s)
               || fzero (time_diff (start_time s) (time_read r s))
               || fzero (mib_of b (time_diff (start_time s) (time_read r s)))
            then []
            else [Printf fmt_clear_line [];
                  report_line d b true
                    (time_diff (start_time s) (time_read r s));
                  Fflush])) /\
    (forall d b tdiff,
        exists args, report_line d b true tdiff = Printf fmt_finished args) /\
    ends_with_newline fmt_finished = true.
Proof.
  intros World kernel. split; [|split; [|split]].
  - intros. apply finish_run.
  - intros d b s r w K. rewrite (print_progress_run kernel d b true s r w K).
    cbv zeta. cbn [negb andb].
    destruct (timeval_is_zero (start_time s)); [reflexivity|].
    cbn [orb].
    destruct (fzero (time_diff _ _) || fzero (mib_of _ _)); reflexivity.
  - intros. unfold report_line. eexists. reflexivity.
  - reflexivity.
Qed.

(* ================================================================== *)
(** * A device of no sectors *)
(* ================================================================== *)

Lemma no_io_print_progress {World} (kernel : syscall -> World -> reply * World)
    d b f (s : St World) :
  Forall no_io (trace (print_progress kernel d b f s)).
Proof.
  destruct (kernel SysGettimeofday (world s)) as [r w] eqn:K.
  rewrite (print_progress_run kernel d b f s r w K). cbv zeta.
  repeat match goal with |- context [if ?c then _ else _] => destruct c end;
    cbn [trace fst]; repeat constructor.
  all: unfold report_line; destruct f; reflexivity.
Qed.

Lemma reporting_print_progress {World}
    (kernel : syscall -> World -> reply * World) d b f (s : St World) :
  Forall (fun e => reporting e = true) (trace (print_progress kernel d b f s)).
Proof.
  destruct (kernel SysGettimeofday (world s)) as [r w] eqn:K.
  rewrite (print_progress_run kernel d b f s r w K). cbv zeta.
  repeat match goal with |- context [if ?c then _ else _] => destruct c end;
    cbn [trace fst]; repeat constructor.
  unfold report_line; destruct f; reflexivity.
Qed.

(** C10.  For an extent of zero sectors, in every mode, once the buffer
    is allocated and the device is opened the program does not enter the
    chunk loop: it flushes the handle (reporting a failed flush), closes
    it, releases the buffer and calls the progress reporter, and returns
    0; nothing in the trace is a seek, a read or a write. *)
Theorem zero_extent_run :
  forall (World : Type) (kernel : syscall -> World -> reply * World)
         (cfg : config) (fuel : nat) (device : string) (dc : dev_command)
         (s : St World) (rm ro : reply) (w1 w2 : World) (p : Z),
    (0 < fuel)%nat ->
    kernel (SysMemalign 8192
              (u64 (s32 (u32 (block_sectors cfg * SECTOR_SIZE))))) (world s)
      = (rm, w1) ->
    ret rm = 0 -> data rm = Val p -> p <> 0 ->
    kernel (SysOpen device (rw_flags cfg dc)) w1 = (ro, w2) ->
    ret ro <> -1 ->
    result (rw_sectors kernel cfg fuel device 0 0 dc s) = Done 0 /\
    Forall no_io (trace (rw_sectors kernel cfg fuel device 0 0 dc s)) /\
    exists rf rc tail,
      trace (rw_sectors kernel cfg fuel device 0 0 dc s) =
      [Sys (SysMemalign 8192
              (u64 (s32 (u32 (block_sectors cfg * SECTOR_SIZE))))) rm;
       Sys (SysOpen device (rw_flags cfg dc)) ro;
       Sys (SysFsync (ret ro)) rf]
      ++ (if ret rf <? 0 then [Printf fmt_fsync [PInt (err rf)]] else [])
      ++ [Sys (SysClose (ret ro)) rc; Free]
      ++ tail /\
      Forall (fun e => reporting e = true) tail.
Proof.
  intros World kernel cfg fuel device dc s rm ro w1 w2 p Hfuel Km Hrm Hd Hp Ko Hro.
  destruct fuel as [|fuel]; [lia|].
  assert (Em : aligned_malloc kernel (u32 (block_sectors cfg * SECTOR_SIZE)) s =
               ([Sys (SysMemalign 8192
                        (u64 (s32 (u32 (block_sectors cfg * SECTOR_SIZE))))) rm],
                mk_St w1 (start_time s) (now_time s) (end_time s), Done p)).
  { unfold aligned_malloc. rewrite (bind_call kernel _ _ _ _ _ Km).
    cbn. now rewrite Hrm, Hd. }
  unfold rw_sectors. rewrite (bind_done _ _ _ _ _ _ Em).
  apply Z.eqb_neq in Hp, Hro. rewrite Hp.
  rewrite (bind_call kernel _ _
             (mk_St w1 (start_time s) (now_time s) (end_time s)) ro w2 Ko).
  rewrite Hro. unfold scan. cbn [chunk_loop]. cbn [Z.ltb Z.compare].
  match goal with
  | |- context [bind (pure (Some 0)) ?f ?s0] =>
      change (bind (pure (Some 0)) f s0) with
        (let '(t2, s2, o) := finish kernel (ret ro) 0 0 s0 in ([] ++ t2, s2, o));
      destruct (finish_run kernel (ret ro) 0 0 s0) as (rf & rc & w3 & Ef)
  end.
  rewrite Ef. cbn [trace final result fst snd app].
  split; [reflexivity|]. split.
  - do 3 (constructor; [now repeat split|]).
    apply Forall_app. split; [destruct (ret rf <? 0); now repeat constructor|].
    do 2 (constructor; [now repeat split|]).
    apply no_io_print_progress.
  - exists rf, rc.
    eexists. split; [reflexivity|].
    apply reporting_print_progress.
Qed.

(* ================================================================== *)
(** * Failures that end the sector loop *)
(* ================================================================== *)

Section Fallback.

Context {World : Type} (kernel : syscall -> World -> reply * World).
Variable cfg : config.

Lemma check_sector_seek_failure fuel devfd sector dc (s : St World) r w :
  kernel (SysLseek devfd (s64 (u64 (sector * SECTOR_SIZE)))) (world s) = (r, w) ->
  ret r < 0 ->
  check_sector kernel cfg fuel devfd sector dc s =
  ([Sys (SysLseek devfd (s64 (u64 (sector * SECTOR_SIZE)))) r;
    Printf fmt_seek_error [PU64 sector; PInt (err r)]],
   mk_St w (start_time s) (now_time s) (end_time s), Done Returned).
Proof.
  intros K Hr. unfold check_sector. rewrite (bind_call kernel _ _ _ _ _ K).
  apply Z.ltb_lt in Hr. rewrite Hr. unfold printf. now rewrite bind_emit.
Qed.

Lemma check_sector_unexpected fuel devfd sector dc (s : St World) r1 w1 rd w2 :
  kernel (SysLseek devfd (s64 (u64 (sector * SECTOR_SIZE)))) (world s)
    = (r1, w1) ->
  0 <= ret r1 ->
  kernel (SysRead devfd SECTOR_SIZE) w1 = (rd, w2) ->
  ret rd <> SECTOR_SIZE -> err rd <> EIO -> err rd <> EILSEQ ->
  check_sector kernel cfg fuel devfd sector dc s =
  ([Sys (SysLseek devfd (s64 (u64 (sector * SECTOR_SIZE)))) r1;
    Sys (SysRead devfd SECTOR_SIZE) rd;
    Printf fmt_error_sector [PU64 sector; PInt (err rd)]],
   mk_St w2 (start_time s) (now_time s) (end_time s), Done Returned).
Proof.
  intros K1 H1 K2 Hd He1 He2. unfold check_sector.
  rewrite (bind_call kernel _ _ _ _ _ K1).
  apply Z.ltb_ge in H1. rewrite H1.
  rewrite (bind_call kernel _ _
             (mk_St w1 (start_time s) (now_time s) (end_time s)) rd w2 K2).
  apply Z.eqb_neq in Hd, He1, He2. rewrite Hd, He1, He2.
  cbn [negb andb]. unfold printf. now rewrite bind_emit.
Qed.

Lemma sector_loop_returned n fuel devfd bound sector dc (s s1 : St World) t :
  sector < bound ->
  check_sector kernel cfg fuel devfd sector dc s = (t, s1, Done Returned) ->
  sector_loop kernel cfg (S n) fuel devfd bound sector dc s
    = (t, s1, Done Returned).
Proof.
  intros Hs E. cbn [sector_loop]. apply Z.ltb_lt in Hs. rewrite Hs.
  rewrite (bind_done _ _ _ _ _ _ E). cbn. now rewrite app_nil_r.
Qed.

Lemma check_one_by_one_returned fuel devfd size off dc (s s1 : St World) t :
  sector_loop kernel cfg (S (Z.to_nat (u64 (off + size) - off))) fuel devfd
              (u64 (off + size)) off dc s = (t, s1, Done Returned) ->
  check_one_by_one kernel cfg fuel devfd size off dc s
    = (Printf fmt_clear_line [] :: t, s1, Done tt).
Proof.
  intros E. unfold check_one_by_one, clear_line, printf.
  rewrite bind_emit. rewrite (bind_done _ _ _ _ _ _ E).
  cbn. now rewrite app_nil_r.
Qed.

Lemma chunk_after_fallback fuel devfd dev off size dc (s s2 : St World)
    r w rb w1 t :
  is_format dc = false ->
  kernel (SysLseek devfd (s64 (u64 (off * SECTOR_SIZE)))) (world s) = (r, w) ->
  0 <= ret r ->
  kernel (SysRead devfd (u64 (SECTOR_SIZE * size))) w = (rb, w1) ->
  ret rb <> s64 (u64 (SECTOR_SIZE * size)) ->
  check_one_by_one kernel cfg fuel devfd size off dc
    (mk_St w1 (start_time s) (now_time s) (end_time s)) = (t, s2, Done tt) ->
  chunk kernel cfg fuel devfd dev off size dc s =
  ([Sys (SysLseek devfd (s64 (u64 (off * SECTOR_SIZE)))) r;
    Sys (SysRead devfd (u64 (SECTOR_SIZE * size))) rb]
   ++ t
   ++ trace (print_progress kernel (u64 (dev * SECTOR_SIZE))
               (u64 (u64 (off + size) * SECTOR_SIZE)) false s2),
   final (print_progress kernel (u64 (dev * SECTOR_SIZE))
            (u64 (u64 (off + size) * SECTOR_SIZE)) false s2),
   Done true).
Proof.
  intros Hf K Hr Kb Hb E. unfold chunk.
  rewrite (bind_call kernel _ _ _ _ _ K).
  apply Z.ltb_ge in Hr. rewrite Hr, Hf.
  assert (Eb : bind (call kernel (SysRead devfd (u64 (SECTOR_SIZE * size))))
                 (fun r0 =>
                    when (negb (ret r0 =? s64 (u64 (SECTOR_SIZE * size))))
                         (check_one_by_one kernel cfg fuel devfd size off dc))
                 (mk_St w (start_time s) (now_time s) (end_time s))
               = (Sys (SysRead devfd (u64 (SECTOR_SIZE * size))) rb :: t,
                  s2, Done tt)).
  { rewrite (bind_call kernel _ _
               (mk_St w (start_time s) (now_time s) (end_time s)) rb w1 Kb).
    apply Z.eqb_neq in Hb. rewrite Hb. cbn [negb when].
    cbn [start_time now_time end_time]. now rewrite E. }
  rewrite (bind_done _ _ _ _ _ _ Eb).
  rewrite bind_trace, bind_outcome, print_progress_total.
  cbn [trace final result fst snd app].
  unfold bind.
  destruct (print_progress kernel _ _ false s2) as [[tp sp] [[]| |]] eqn:Ep;
    pose proof (print_progress_total kernel (u64 (dev * SECTOR_SIZE))
                  (u64 (u64 (off + size) * SECTOR_SIZE)) false s2) as Ht;
    rewrite Ep in Ht; try discriminate.
  cbn. now rewrite !app_nil_r.
Qed.

End Fallback.

(** C2, as the program has it.  In the sector loop a seek that fails,
    and a read that does not return the sector and leaves in [errno]
    neither EIO nor EILSEQ, are each reported for that sector, and that
    ends the loop: from that round on the loop does the seek (and the
    read) and prints the report, nothing more; [check_one_by_one] then
    returns at once, without visiting the sectors that are left and
    without flushing.  The failure is not fatal to the scan: the round of
    the chunk loop goes on with the progress update and asks for the next
    round. *)
Theorem fallback_stops_at_unexpected_failure :
  forall (World : Type) (kernel : syscall -> World -> reply * World)
         (cfg : config),
    (forall n fuel devfd bound sector dc (s : St World) r w,
        sector < bound ->
        kernel (SysLseek devfd (s64 (u64 (sector * SECTOR_SIZE)))) (world s)
          = (r, w) ->
        ret r < 0 ->
        sector_loop kernel cfg (S n) fuel devfd bound sector dc s =
        ([Sys (SysLseek devfd (s64 (u64 (sector * SECTOR_SIZE)))) r;
          Printf fmt_seek_error [PU64 sector; PInt (err r)]],
         mk_St w (start_time s) (now_time s) (end_time s), Done Returned)) /\
    (forall n fuel devfd bound sector dc (s : St World) r1 w1 rd w2,
        sector < bound ->
        kernel (SysLseek devfd (s64 (u64 (sector * SECTOR_SIZE)))) (world s)
          = (r1, w1) ->
        0 <= ret r1 ->
        kernel (SysRead devfd SECTOR_SIZE) w1 = (rd, w2) ->
        ret rd <> SECTOR_SIZE -> err rd <> EIO -> err rd <> EILSEQ ->
        sector_loop kernel cfg (S n) fuel devfd bound sector dc s =
        ([Sys (SysLseek devfd (s64 (u64 (sector * SECTOR_SIZE)))) r1;
          Sys (SysRead devfd SECTOR_SIZE) rd;
          Printf fmt_error_sector [PU64 sector; PInt (err rd)]],
         mk_St w2 (start_time s) (now_time s) (end_time s), Done Returned)) /\
    (forall fuel devfd size off dc (s s1 : St World) t,
        sector_loop kernel cfg (S (Z.to_nat (u64 (off + size) - off))) fuel
                    devfd (u64 (off + size)) off dc s
          = (t, s1, Done Returned) ->
        check_one_by_one kernel cfg fuel devfd size off dc s
          = (Printf fmt_clear_line [] :: t, s1, Done tt)) /\
    (forall fuel devfd dev off size dc (s s2 : St World) r w rb w1 t,
        is_format dc = false ->
        kernel (SysLseek devfd (s64 (u64 (off * SECTOR_SIZE)))) (world s)
          = (r, w) ->
        0 <= ret r ->
        kernel (SysRead devfd (u64 (SECTOR_SIZE * size))) w = (rb, w1) ->
        ret rb <> s64 (u64 (SECTOR_SIZE * size)) ->
        check_one_by_one kernel cfg fuel devfd size off dc
          (mk_St w1 (start_time s) (now_time s) (end_time s))
          = (t, s2, Done tt) ->
        chunk kernel cfg fuel devfd dev off size dc s =
        ([Sys (SysLseek devfd (s64 (u64 (off * SECTOR_SIZE)))) r;
          Sys (SysRead devfd (u64 (SECTOR_SIZE * size))) rb]
         ++ t
         ++ trace (print_progress kernel (u64 (dev * SECTOR_SIZE))
                     (u64 (u64 (off + size) * SECTOR_SIZE)) false s2),
         final (print_progress kernel (u64 (dev * SECTOR_SIZE))
                  (u64 (u64 (off + size) * SECTOR_SIZE)) false s2),
         Done true)).
Proof.
  intros World kernel cfg. split; [|split; [|split]].
  - intros. apply sector_loop_returned; [assumption|].
    eapply check_sector_seek_failure; eauto.
  - intros. apply sector_loop_returned; [assumption|].
    eapply check_sector_unexpected; eauto.
  - intros. now apply check_one_by_one_returned.
  - intros. eapply chunk_after_fallback; eauto.
Qed.

(* ================================================================== *)
(** * The superblock *)
(* ================================================================== *)

Lemma list_eqb_eq (a : list Z) : forall b, list_eqb a b = true <-> a = b.
Proof.
  induction a as [|x a IH]; destruct b as [|y b]; simpl;
    try (split; [discriminate|discriminate]); [tauto|].
  rewrite andb_true_iff, Z.eqb_eq, IH. split.
  - now intros [-> ->].
  - intros E. now injection E.
Qed.

Lemma encode_decode_le (l : list Z) :
  Forall is_byte l -> encode_le (List.length l) (decode_le l) = l.
Proof.
  unfold is_byte.
  induction 1 as [|b l Hb _ IH]; cbn [encode_le decode_le List.length];
    [reflexivity|].
  f_equal.
  - rewrite (Z.mul_comm 256), Z.mod_add by lia. now apply Z.mod_small.
  - rewrite (Z.mul_comm 256), Z.div_add by lia.
    rewrite (Z.div_small b) by lia. exact IH.
Qed.

(** Whatever the byte order of the host, converting what the host has
    loaded yields the little-endian value of the bytes. *)
Lemma letoh_load (big_endian : bool) (l : list Z) :
  Forall is_byte l ->
  letoh big_endian (List.length l) (load big_endian l) = decode_le l.
Proof.
  intros H. unfold letoh, load, store. destruct big_endian.
  - rewrite <- (length_rev l).
    rewrite encode_decode_le by now apply Forall_rev.
    now rewrite rev_involutive.
  - now rewrite encode_decode_le.
Qed.

Lemma Forall_slice (P : Z -> Prop) (off n : nat) (l : list Z) :
  Forall P l -> Forall P (slice off n l).
Proof.
  intros H. unfold slice.
  rewrite <- (firstn_skipn off l) in H. apply Forall_app in H.
  destruct H as [_ H].
  rewrite <- (firstn_skipn n (skipn off l)) in H. apply Forall_app in H.
  tauto.
Qed.

Lemma read_into_full (bytes mem0 : list Z) :
  List.length bytes = 24%nat -> Forall is_byte bytes ->
  read_into sizeof_sb (Bytes bytes) mem0 = bytes ++ skipn 24 mem0.
Proof.
  intros Hl Hb. unfold read_into, sizeof_sb.
  change (Z.to_nat 24) with 24%nat.
  rewrite firstn_all2 by lia.
  assert (E : map (fun b => b mod 256) bytes = bytes).
  { clear Hl. induction Hb as [|b l Hb _ IH]; simpl; [reflexivity|].
    rewrite IH. f_equal. now apply Z.mod_small. }
  now rewrite E, Hl.
Qed.

(** The fields of the struct that a full read leaves in memory. *)
Lemma sb_of_full_read (big_endian : bool) (bytes mem0 : list Z) :
  List.length bytes = 24%nat -> Forall is_byte bytes ->
  let sb := sb_of_mem big_endian
              (read_into sizeof_sb (Bytes bytes) mem0) in
  magic sb = firstn 8 bytes /\
  version sb = nth 8 bytes 0 /\
  log2_interleave_sectors sb = s8 (nth 9 bytes 0) /\
  le16toh big_endian (integrity_tag_size sb) = decode_le (slice 10 2 bytes) /\
  le32toh big_endian (journal_sections sb) = decode_le (slice 12 4 bytes) /\
  le64toh big_endian (provided_data_sectors sb)
    = decode_le (slice 16 8 bytes).
Proof.
  intros Hl Hb. rewrite (read_into_full bytes mem0 Hl Hb).
  assert (Hs : forall off n, (off + n <= 24)%nat ->
             slice off n (bytes ++ skipn 24 mem0) = slice off n bytes).
  { intros off n Hn. unfold slice.
    rewrite skipn_app, firstn_app, length_skipn, Hl.
    replace (n - (24 - off))%nat with 0%nat by lia.
    now rewrite firstn_0, app_nil_r. }
  assert (Hsl : forall off n, (off + n <= 24)%nat ->
              List.length (slice off n bytes) = n).
  { intros off n Hn. unfold slice. rewrite length_firstn, length_skipn. lia. }
  assert (Hsb : forall off n, Forall is_byte (slice off n bytes)).
  { intros off n. now apply Forall_slice. }
  cbv zeta. unfold sb_of_mem. cbn [magic version log2_interleave_sectors
    integrity_tag_size journal_sections provided_data_sectors].
  rewrite !Hs by lia. rewrite !app_nth1 by lia.
  repeat split.
  - unfold le16toh. rewrite <- (Hsl 10%nat 2%nat) at 1 by lia.
    now apply letoh_load.
  - unfold le32toh. rewrite <- (Hsl 12%nat 4%nat) at 1 by lia.
    now apply letoh_load.
  - unfold le64toh. rewrite <- (Hsl 16%nat 8%nat) at 1 by lia.
    now apply letoh_load.
Qed.

Section Superblock.

Context {World : Type} (kernel : syscall -> World -> reply * World).
Variable big_endian : bool.

(** What [read_superblock] does once the device is open. *)
Lemma read_superblock_run dev mem0 (s : St World) ro w1 rd w2 rc w3 :
  kernel (SysOpen dev O_RDONLY) (world s) = (ro, w1) ->
  ret ro <> -1 ->
  kernel (SysRead (ret ro) sizeof_sb) w1 = (rd, w2) ->
  kernel (SysClose (ret ro)) w2 = (rc, w3) ->
  read_superblock kernel big_endian (Some dev) mem0 s =
  let sb := sb_of_mem big_endian (read_into (ret rd) (data rd) mem0) in
  if negb (u64 (ret rd) =? sizeof_sb)
     || memcmp_differs (magic sb) SB_MAGIC 8
     || negb (version sb =? SB_VERSION)
  then ([Sys (SysOpen dev O_RDONLY) ro; Sys (SysRead (ret ro) sizeof_sb) rd;
         Printf fmt_no_header [PStr dev]; Sys (SysClose (ret ro)) rc],
        mk_St w3 (start_time s) (now_time s) (end_time s),
        Done (EXIT_FAILURE, sb))
  else ([Sys (SysOpen dev O_RDONLY) ro; Sys (SysRead (ret ro) sizeof_sb) rd;
         Sys (SysClose (ret ro)) rc],
        mk_St w3 (start_time s) (now_time s) (end_time s),
        Done (EXIT_SUCCESS,
              mk_superblock (magic sb) (version sb)
                (log2_interleave_sectors sb)
                (le16toh big_endian (integrity_tag_size sb))
                (le32toh big_endian (journal_sections sb))
                (le64toh big_endian (provided_data_sectors sb)))).
Proof.
  intros Ko Hro Kr Kc. unfold read_superblock.
  rewrite (bind_call kernel _ _ _ _ _ Ko).
  apply Z.eqb_neq in Hro. rewrite Hro.
  rewrite (bind_call kernel _ _
             (mk_St w1 (start_time s) (now_time s) (end_time s)) rd w2 Kr).
  cbv zeta. cbn [start_time now_time end_time world].
  destruct (negb (u64 (ret rd) =? sizeof_sb) || _ || _).
  - unfold printf.
    assert (Ep : forall (x : Z * superblock) (s0 : St World),
              bind (emit (Printf fmt_no_header [PStr dev]))
                   (fun _ => pure x) s0
              = ([Printf fmt_no_header [PStr dev]], s0, Done x))
      by reflexivity.
    rewrite (bind_done _ _ _ _ _ _ (Ep _ _)).
    rewrite (bind_call kernel _ _
               (mk_St w2 (start_time s) (now_time s) (end_time s)) rc w3 Kc).
    reflexivity.
  - assert (Ep : forall (x : Z * superblock) (s0 : St World),
              pure x s0 = ([], s0, Done x)) by reflexivity.
    rewrite (bind_done _ _ _ _ _ _ (Ep _ _)).
    rewrite (bind_call kernel _ _
               (mk_St w2 (start_time s) (now_time s) (end_time s)) rc w3 Kc).
    reflexivity.
Qed.

Lemma no_field_printed_read_superblock device mem0 :
  traces (Forall no_field_printed)
         (read_superblock kernel big_endian device mem0).
Proof.
  pose proof (@Forall_nil event no_field_printed) as Hnil.
  assert (Happ : forall a b : list event, Forall no_field_printed a ->
            Forall no_field_printed b -> Forall no_field_printed (a ++ b))
    by (intros; apply Forall_app; now split).
  unfold read_superblock. destruct device as [dev|]; [|now traces_step].
  repeat traces_step; now repeat constructor.
Qed.

Lemma cmd_dump_failure device mem0 (s : St World) (r : Z) :
  result (cmd_dump kernel big_endian device mem0 s) = Done r -> r <> 0 ->
  Forall no_field_printed (trace (cmd_dump kernel big_endian device mem0 s)).
Proof.
  unfold cmd_dump. rewrite bind_trace, bind_outcome.
  pose proof (no_field_printed_read_superblock device mem0 s) as Hq.
  destruct (result (read_superblock kernel big_endian device mem0 s))
    as [[r0 sb]| |]; try discriminate.
  cbv beta. cbn [fst snd]. destruct (negb (r0 =? 0)).
  - intros _ _. cbn. now rewrite app_nil_r.
  - unfold printf. repeat (rewrite bind_emit; cbn [trace final result fst snd]).
    cbn. intros E. injection E as <-. now intros [].
Qed.

End Superblock.

(** C7.  Once the device is open and the 24 bytes of the superblock are
    read: when the first 8 bytes differ from "integrt" and its zero byte,
    or the version byte differs from 1, the dump prints "No header
    detected", closes the device and fails, and prints nothing else;
    otherwise it succeeds and prints the device and the four fields, the
    three numeric ones as the little-endian values of their 2, 4 and 8
    bytes, whatever the byte order of the host. *)
Theorem dump_checks_magic_and_version :
  forall (World : Type) (kernel : syscall -> World -> reply * World)
         (big_endian : bool) (dev : string) (mem0 bytes : list Z)
         (s : St World) (ro rd rc : reply) (w1 w2 w3 : World),
    kernel (SysOpen dev O_RDONLY) (world s) = (ro, w1) ->
    ret ro <> -1 ->
    kernel (SysRead (ret ro) sizeof_sb) w1 = (rd, w2) ->
    ret rd = sizeof_sb -> data rd = Bytes bytes ->
    List.length bytes = 24%nat -> Forall is_byte bytes ->
    kernel (SysClose (ret ro)) w2 = (rc, w3) ->
    (firstn 8 bytes <> SB_MAGIC \/ nth 8 bytes 0 <> SB_VERSION ->
     cmd_dump kernel big_endian (Some dev) mem0 s =
     ([Sys (SysOpen dev O_RDONLY) ro; Sys (SysRead (ret ro) sizeof_sb) rd;
       Printf fmt_no_header [PStr dev]; Sys (SysClose (ret ro)) rc],
      mk_St w3 (start_time s) (now_time s) (end_time s),
      Done EXIT_FAILURE)) /\
    (firstn 8 bytes = SB_MAGIC -> nth 8 bytes 0 = SB_VERSION ->
     cmd_dump kernel big_endian (Some dev) mem0 s =
     ([Sys (SysOpen dev O_RDONLY) ro; Sys (SysRead (ret ro) sizeof_sb) rd;
       Sys (SysClose (ret ro)) rc;
       Printf fmt_info [PStr dev];
       Printf fmt_log2 [PInt (s8 (nth 9 bytes 0))];
       Printf fmt_tag_size [PUInt (decode_le (slice 10 2 bytes))];
       Printf fmt_journal [PUInt (decode_le (slice 12 4 bytes))];
       Printf fmt_provided [PU64 (decode_le (slice 16 8 bytes))]],
      mk_St w3 (start_time s) (now_time s) (end_time s),
      Done EXIT_SUCCESS)).
Proof.
  intros World kernel big_endian dev mem0 bytes s ro rd rc w1 w2 w3
         Ko Hro Kr Hrd Hd Hl Hb Kc.
  pose proof (read_superblock_run kernel big_endian dev mem0 s ro w1 rd w2 rc w3
                Ko Hro Kr Kc) as E.
  cbv zeta in E. rewrite Hrd, Hd in E.
  destruct (sb_of_full_read big_endian bytes mem0 Hl Hb)
    as (Hm & Hv & Hlog & H16 & H32 & H64).
  rewrite Hm, Hv, Hlog, H16, H32, H64 in E.
  assert (Hmem : memcmp_differs (firstn 8 bytes) SB_MAGIC 8
                 = negb (list_eqb (firstn 8 bytes) SB_MAGIC)).
  { unfold memcmp_differs. rewrite firstn_firstn. reflexivity. }
  rewrite Hmem in E. change (negb (u64 sizeof_sb =? sizeof_sb)) with false in E.
  cbn [orb] in E.
  split.
  - intros Hbad.
    assert (Hc : negb (list_eqb (firstn 8 bytes) SB_MAGIC)
                 || negb (nth 8 bytes 0 =? SB_VERSION) = true).
    { destruct (list_eqb (firstn 8 bytes) SB_MAGIC) eqn:E1; [|reflexivity].
      destruct (nth 8 bytes 0 =? SB_VERSION) eqn:E2; [|reflexivity].
      apply list_eqb_eq in E1. apply Z.eqb_eq in E2. tauto. }
    rewrite Hc in E. unfold cmd_dump.
    rewrite (bind_done _ _ _ _ _ _ E). reflexivity.
  - intros H1 H2.
    assert (Hc : negb (list_eqb (firstn 8 bytes) SB_MAGIC)
                 || negb (nth 8 bytes 0 =? SB_VERSION) = false).
    { apply list_eqb_eq in H1. apply Z.eqb_eq in H2. now rewrite H1, H2. }
    rewrite Hc in E. unfold cmd_dump.
    rewrite (bind_done _ _ _ _ _ _ E).
    cbn [fst snd negb Z.eqb EXIT_SUCCESS]. unfold printf.
    repeat (rewrite bind_emit; cbn [trace final result fst snd]).
    reflexivity.
Qed.

(** C9.  When the read of the superblock does not return its 24 bytes
    (a short read, or a failed one), the dump prints "No header
    detected", closes the device and fails, as it does for a wrong magic
    or version.  And whenever the dump fails, for whatever reason, the
    only line it can have printed is that one: it prints no field. *)
Theorem short_header_read_fails :
  forall (World : Type) (kernel : syscall -> World -> reply * World)
         (big_endian : bool),
    (forall (dev : string) (mem0 : list Z) (s : St World)
            (ro rd rc : reply) (w1 w2 w3 : World),
        kernel (SysOpen dev O_RDONLY) (world s) = (ro, w1) ->
        ret ro <> -1 ->
        kernel (SysRead (ret ro) sizeof_sb) w1 = (rd, w2) ->
        u64 (ret rd) <> sizeof_sb ->
        kernel (SysClose (ret ro)) w2 = (rc, w3) ->
        cmd_dump kernel big_endian (Some dev) mem0 s =
        ([Sys (SysOpen dev O_RDONLY) ro; Sys (SysRead (ret ro) sizeof_sb) rd;
          Printf fmt_no_header [PStr dev]; Sys (SysClose (ret ro)) rc],
         mk_St w3 (start_time s) (now_time s) (end_time s),
         Done EXIT_FAILURE)) /\
    (forall (device : option string) (mem0 : list Z) (s : St World) (r : Z),
        result (cmd_dump kernel big_endian device mem0 s) = Done r ->
        r <> 0 ->
        Forall no_field_printed
               (trace (cmd_dump kernel big_endian device mem0 s))).
Proof.
  intros World kernel big_endian. split.
  - intros dev mem0 s ro rd rc w1 w2 w3 Ko Hro Kr Hrd Kc.
    pose proof (read_superblock_run kernel big_endian dev mem0 s ro w1 rd w2
                  rc w3 Ko Hro Kr Kc) as E.
    cbv zeta in E. apply Z.eqb_neq in Hrd. rewrite Hrd in E.
    cbn [negb orb] in E. unfold cmd_dump.
    rewrite (bind_done _ _ _ _ _ _ E). reflexivity.
  - intros. eapply cmd_dump_failure; eauto.
Qed.

(* ================================================================== *)
(** * The engine returns *)
(* ================================================================== *)

(** With the zero fill there is no [assert] to fail and no loop without
    a bound: given one round of fuel per sector, [rw_sectors] returns. *)
Section Returns.

Context {World : Type} (kernel : syscall -> World -> reply * World).
Variable cfg : config.
Hypothesis zero_fill : _randomize cfg = false.

Lemma returns_pure {A} (a : A) : returns (pure (World := World) a).
Proof. intros s. now exists a. Qed.

Lemma returns_emit (e : event) : returns (emit (World := World) e).
Proof. intros s. now exists tt. Qed.

Lemma returns_call (c : syscall) : returns (call kernel c).
Proof.
  intros s. unfold call. destruct (kernel c (world s)) as [r w]. now exists r.
Qed.

Lemma returns_bind {A B} (m : M World A) (f : A -> M World B) :
  returns m -> (forall a, returns (f a)) -> returns (bind m f).
Proof.
  intros Hm Hf s. rewrite bind_outcome.
  destruct (Hm s) as [a Ha]. rewrite Ha. apply Hf.
Qed.

Lemma returns_when (b : bool) (m : M World unit) :
  returns m -> returns (when b m).
Proof. destruct b; [auto | intros _; apply returns_pure]. Qed.

Ltac returns_step :=
  match goal with
  | |- returns (bind _ _) => apply returns_bind; [|intros]
  | |- returns (pure _) => apply returns_pure
  | |- returns (when _ _) => apply returns_when
  | |- returns (call _ _) => apply returns_call
  | |- returns (printf _ _) => apply returns_emit
  | |- returns (emit _) => apply returns_emit
  | |- returns (if ?b then _ else _) => destruct b eqn:?
  | |- returns (match ?c with Continue => _ | Returned => _ end) => destruct c
  | |- returns (match ?c with Some _ => _ | None => _ end) => destruct c
  end.

Lemma returns_init_sector fuel : returns (init_sector kernel cfg fuel).
Proof. unfold init_sector. rewrite zero_fill. apply returns_pure. Qed.

Lemma returns_init_sectors n fuel : returns (init_sectors kernel cfg n fuel).
Proof.
  induction n as [|n IH]; simpl; repeat returns_step; auto.
  apply returns_init_sector.
Qed.

Lemma returns_log_dbg fmt args : returns (log_dbg (World := World) cfg fmt args).
Proof. unfold log_dbg. repeat returns_step. Qed.

Lemma returns_print_progress d b f : returns (print_progress kernel d b f).
Proof. intros s. exists tt. apply print_progress_total. Qed.

Lemma returns_check_sector fuel devfd sector dc :
  returns (check_sector kernel cfg fuel devfd sector dc).
Proof.
  unfold check_sector. repeat returns_step. apply returns_init_sector.
Qed.

Lemma returns_sector_loop fuel devfd bound dc :
  bound < 2 ^ 64 ->
  forall (n : nat) (sector : Z),
    0 <= sector -> (Z.to_nat (bound - sector) < n)%nat ->
    returns (sector_loop kernel cfg n fuel devfd bound sector dc).
Proof.
  intros Hb. induction n as [|n IH]; intros sector H0 Hn; [lia|].
  cbn [sector_loop]. destruct (sector <? bound) eqn:E; [|apply returns_pure].
  apply Z.ltb_lt in E. apply returns_bind; [apply returns_check_sector|].
  intros [|]; [|apply returns_pure].
  unfold u64. rewrite Z.mod_small by lia. apply IH; lia.
Qed.

Lemma returns_check_one_by_one fuel devfd size off dc :
  0 <= off ->
  returns (check_one_by_one kernel cfg fuel devfd size off dc).
Proof.
  intros H0. unfold check_one_by_one, clear_line. repeat returns_step.
  apply returns_sector_loop; [|assumption|lia].
  unfold u64. apply Z.mod_pos_bound. lia.
Qed.

Lemma returns_chunk fuel devfd dev off size dc :
  0 <= off -> returns (chunk kernel cfg fuel devfd dev off size dc).
Proof.
  intros H0. unfold chunk. repeat returns_step.
  - apply returns_log_dbg.
  - apply returns_init_sectors.
  - now apply returns_check_one_by_one.
  - apply returns_print_progress.
Qed.

Lemma returns_chunk_loop fuel devfd dev dc :
  0 < block_sectors cfg -> dev + block_sectors cfg < 2 ^ 64 ->
  forall (n : nat) (off : Z),
    0 <= off <= dev -> (Z.to_nat (dev - off) < n)%nat ->
    returns (chunk_loop kernel cfg n fuel devfd dev off dc).
Proof.
  intros Hb Hd. induction n as [|n IH]; intros off Hoff Hn; [lia|].
  cbn [chunk_loop]. destruct (off <? dev) eqn:E; [|apply returns_pure].
  apply Z.ltb_lt in E. rewrite chunk_size_min by lia.
  apply returns_bind; [apply returns_chunk; lia|].
  intros [|]; [|apply returns_pure].
  unfold u64. rewrite Z.mod_small by lia. apply IH; lia.
Qed.

Lemma returns_finish devfd dev off : returns (finish kernel devfd dev off).
Proof.
  unfold finish. repeat returns_step. apply returns_print_progress.
Qed.

(** For a size that [device_size_sec] can resolve and a chunk size that
    [main] accepts, [rw_sectors] returns when it is given more rounds
    than the device has sectors. *)
Lemma rw_sectors_returns fuel device dev dc :
  sane cfg -> 0 <= dev < 2 ^ 55 -> (Z.to_nat dev < fuel)%nat ->
  returns (rw_sectors kernel cfg fuel device 0 dev dc).
Proof.
  intros [_ Hb] Hd Hn. unfold rw_sectors, aligned_malloc, scan.
  repeat returns_step.
  - apply returns_chunk_loop; lia.
  - apply returns_finish.
Qed.

End Returns.

(* ================================================================== *)
(** * The theorems on the simulated device *)
(* ================================================================== *)

(** [reads_completeb] decides [reads_complete]. *)
Lemma reads_completeb_sound (t : list event) :
  reads_completeb t = true -> reads_complete t.
Proof.
  unfold reads_completeb, reads_complete. rewrite forallb_forall.
  intros H fd count r Hin. apply H in Hin. now apply Z.eqb_eq.
Qed.

(** A device of 10240 bytes (20 sectors) in chunks of 8 sectors. *)
Lemma chunk_loop_partitions_extent_witness :
  parse_options [OptB 8] default_config = Some cfg8 /\
  0 <= 10240 < 2 ^ 64 /\
  (Z.to_nat (10240 / SECTOR_SIZE) < 21)%nat /\
  (let dev := 10240 / SECTOR_SIZE in
   let parts := chunk_list 21 (block_sectors cfg8) dev 0 in
   chunk_loop Sim.kernel cfg8 21 21 3 dev 0 DEV_CHECK
              (init_St (Sim.device 20 [3] [] [])) =
     run_chunks Sim.kernel cfg8 21 3 dev DEV_CHECK parts dev
                (init_St (Sim.device 20 [3] [] [])) /\
   Forall (fun p => snd p = Z.min (block_sectors cfg8) (dev - fst p) /\
                    0 < snd p /\ fst p < dev) parts /\
   chained 0 parts dev /\
   sum_sizes parts = dev /\
   (forall rest o size, parts = rest ++ [(o, size)] -> size = dev - o)).
Proof.
  assert (H1 : parse_options [OptB 8] default_config = Some cfg8)
    by reflexivity.
  assert (H2 : 0 <= 10240 < 2 ^ 64) by lia.
  assert (H3 : (Z.to_nat (10240 / SECTOR_SIZE) < 21)%nat)
    by (vm_compute; lia).
  split; [exact H1|]. split; [exact H2|]. split; [exact H3|].
  exact (chunk_loop_partitions_extent [OptB 8] cfg8 H1 10240 H2
           Sim.dev Sim.kernel 21%nat 21%nat 3 DEV_CHECK
           (init_St (Sim.device 20 [3] [] [])) H3).
Defined.

(** The check of a device of 20 sectors whose sector 3 is bad. *)
Lemma check_mode_never_writes_witness :
  parse_options [OptB 8] default_config = Some cfg8 /\
  Forall read_only_event
         (trace (cmd_dev Sim.kernel cfg8 100 "dev" DEV_CHECK
                         (init_St (Sim.device 20 [3] [] [])))).
Proof.
  assert (H1 : parse_options [OptB 8] default_config = Some cfg8)
    by reflexivity.
  split; [exact H1|].
  exact (check_mode_never_writes [OptB 8] cfg8 H1 Sim.dev Sim.kernel 100%nat
           "dev"%string (init_St (Sim.device 20 [3] [] []))).
Defined.

(** A second fix pass over the repaired device: every read is complete,
    and nothing is written. *)
Lemma fix_rewrites_bad_sectors_only_witness :
  reads_complete (trace (cmd_dev Sim.kernel cfg8 100 "dev" DEV_FIX
                                 (init_St repaired))) /\
  no_write (trace (cmd_dev Sim.kernel cfg8 100 "dev" DEV_FIX
                           (init_St repaired))).
Proof.
  assert (H : reads_complete (trace (cmd_dev Sim.kernel cfg8 100 "dev" DEV_FIX
                                             (init_St repaired))))
    by (apply reads_completeb_sound; vm_compute; reflexivity).
  split; [exact H|].
  exact (proj2 (fix_rewrites_bad_sectors_only Sim.dev Sim.kernel cfg8 100%nat
                  "dev"%string (init_St repaired)) H).
Defined.

(** The seek to sector 8 (offset 4096) is refused. *)
Lemma seek_failure_is_fatal_witness :
  let d := Sim.device 20 [] [] [4096] in
  let r := mk_reply (-1) EINVAL NoData in
  let w := Sim.set_errno d EINVAL in
  let rc := mk_reply 0 EINVAL NoData in
  8 < 20 /\
  Sim.kernel (SysLseek 3 (s64 (u64 (8 * SECTOR_SIZE)))) (world (init_St d))
    = (r, w) /\
  ret r < 0 /\
  Sim.kernel (SysClose 3) w = (rc, w) /\
  scan Sim.kernel cfg8 6 5 3 20 8 DEV_CHECK (init_St d) =
  ([Sys (SysLseek 3 (s64 (u64 (8 * SECTOR_SIZE)))) r;
    Printf fmt_seek_error [PU64 8; PInt (err r)];
    Sys (SysClose 3) rc; Free],
   mk_St w (start_time (init_St d)) (now_time (init_St d))
         (end_time (init_St d)),
   Done EXIT_FAILURE).
Proof.
  intros d r w rc.
  assert (H1 : 8 < 20) by lia.
  assert (H2 : Sim.kernel (SysLseek 3 (s64 (u64 (8 * SECTOR_SIZE))))
                          (world (init_St d)) = (r, w)) by reflexivity.
  assert (H3 : ret r < 0) by (simpl; lia).
  assert (H4 : Sim.kernel (SysClose 3) w = (rc, w)) by reflexivity.
  split; [exact H1|]. split; [exact H2|]. split; [exact H3|].
  split; [exact H4|].
  exact (proj1 (seek_failure_is_fatal Sim.dev Sim.kernel cfg8)
           5%nat 5%nat 3 20 8 DEV_CHECK (init_St d) r w rc w H1 H2 H3 H4).
Defined.

(** The read of sector 3 fails with ENOMEM. *)
Lemma fallback_stops_at_unexpected_failure_witness :
  let d := Sim.device 20 [] [3] [] in
  let r1 := mk_reply 1536 0 NoData in
  let w1 := Sim.set_pos d 1536 in
  let rd := mk_reply (-1) Sim.ENOMEM NoData in
  let w2 := Sim.set_errno w1 Sim.ENOMEM in
  3 < 8 /\
  Sim.kernel (SysLseek 3 (s64 (u64 (3 * SECTOR_SIZE)))) (world (init_St d))
    = (r1, w1) /\
  0 <= ret r1 /\
  Sim.kernel (SysRead 3 SECTOR_SIZE) w1 = (rd, w2) /\
  ret rd <> SECTOR_SIZE /\ err rd <> EIO /\ err rd <> EILSEQ /\
  sector_loop Sim.kernel cfg8 5 5 3 8 3 DEV_CHECK (init_St d) =
  ([Sys (SysLseek 3 (s64 (u64 (3 * SECTOR_SIZE)))) r1;
    Sys (SysRead 3 SECTOR_SIZE) rd;
    Printf fmt_error_sector [PU64 3; PInt (err rd)]],
   mk_St w2 (start_time (init_St d)) (now_time (init_St d))
         (end_time (init_St d)),
   Done Returned).
Proof.
  intros d r1 w1 rd w2.
  assert (H1 : 3 < 8) by lia.
  assert (H2 : Sim.kernel (SysLseek 3 (s64 (u64 (3 * SECTOR_SIZE))))
                          (world (init_St d)) = (r1, w1)) by reflexivity.
  assert (H3 : 0 <= ret r1) by (simpl; lia).
  assert (H4 : Sim.kernel (SysRead 3 SECTOR_SIZE) w1 = (rd, w2))
    by reflexivity.
  assert (H5 : ret rd <> SECTOR_SIZE) by discriminate.
  assert (H6 : err rd <> EIO) by discriminate.
  assert (H7 : err rd <> EILSEQ) by discriminate.
  repeat (split; [assumption|]).
  exact (proj1 (proj2 (fallback_stops_at_unexpected_failure
                         Sim.dev Sim.kernel cfg8))
           4%nat 5%nat 3 8 3 DEV_CHECK (init_St d) r1 w1 rd w2
           H1 H2 H3 H4 H5 H6 H7).
Defined.

(** C2 fails as it is stated.  Sector 3 of a device of 20 sectors fails
    to read with ENOMEM: the sectors 4 to 7 of its chunk are not visited.
    On a device whose sector 5 is bad and for which the seek to sector 3
    is refused, the sectors 4 to 7 are not visited either, and the bad
    sector 5 is not reported. *)
Lemma fallback_does_not_visit_the_rest :
  let t := trace (cmd_dev Sim.kernel cfg8 100 "dev" DEV_CHECK
                          (init_St (Sim.device 20 [] [3] []))) in
  let t' := trace (cmd_dev Sim.kernel cfg8 100 "dev" DEV_CHECK
                           (init_St (Sim.device 20 [5] [] [1536]))) in
  (In (Printf fmt_error_sector [PU64 3; PInt Sim.ENOMEM]) t /\
   visited 3 t = true /\
   visited 4 t = false /\ visited 5 t = false /\
   visited 6 t = false /\ visited 7 t = false) /\
  (In (Printf fmt_seek_error [PU64 3; PInt EINVAL]) t' /\
   visited 4 t' = false /\ visited 5 t' = false /\
   visited 6 t' = false /\ visited 7 t' = false /\
   printed fmt_io_error t' = false).
Proof.
  vm_compute. repeat split; auto 30.
Qed.

(** A final call 0.1 s after the last report, with 8 MiB processed in
    one second: the summary is printed. *)
Lemma final_report_when_measurable_witness :
  let r := mk_reply 0 0 (Time (mk_timeval 1001 0)) in
  let w := Sim.set_clock (world reporting_St) (mk_timeval 1001 300000) in
  Sim.kernel SysGettimeofday (world reporting_St) = (r, w) /\
  trace (print_progress Sim.kernel 10240000 8388608 true reporting_St) =
  [Sys SysGettimeofday r; Printf fmt_clear_line [];
   report_line 10240000 8388608 true
     (time_diff (start_time reporting_St) (time_read r reporting_St));
   Fflush].
Proof.
  intros r w.
  assert (H : Sim.kernel SysGettimeofday (world reporting_St) = (r, w))
    by reflexivity.
  split; [exact H|].
  exact (proj1 (proj2 (final_report_when_measurable Sim.dev Sim.kernel))
           10240000 8388608 reporting_St r w H).
Defined.

(** C6 fails as it is stated.  The check of a device of 100 sectors (less
    than 1 MiB) runs its chunk loop to the end and returns 0, and prints
    no summary: it prints nothing at all. *)
Lemma final_report_can_be_missing :
  let run := cmd_dev Sim.kernel default_config 100 "dev" DEV_CHECK
                     (init_St (Sim.device 100 [] [] [])) in
  result run = Done 0 /\
  printed fmt_finished (trace run) = false /\
  existsb is_printf (trace run) = false.
Proof. vm_compute. repeat split. Qed.

(** An update 0.1 s after the last report prints nothing. *)
Lemma progress_is_throttled_witness :
  let r := mk_reply 0 0 (Time (mk_timeval 1001 0)) in
  let w := Sim.set_clock (world reporting_St) (mk_timeval 1001 300000) in
  Sim.kernel SysGettimeofday (world reporting_St) = (r, w) /\
  timeval_is_zero (start_time reporting_St) = false /\
  PrimFloat.ltb (time_diff (end_time reporting_St) (time_read r reporting_St))
                half = true /\
  print_progress Sim.kernel 10240000 8388608 false reporting_St =
  ([Sys SysGettimeofday r],
   mk_St w (start_time reporting_St) (time_read r reporting_St)
         (end_time reporting_St), Done tt).
Proof.
  intros r w.
  assert (H1 : Sim.kernel SysGettimeofday (world reporting_St) = (r, w))
    by reflexivity.
  assert (H2 : timeval_is_zero (start_time reporting_St) = false)
    by reflexivity.
  assert (H3 : PrimFloat.ltb (time_diff (end_time reporting_St)
                                        (time_read r reporting_St)) half = true)
    by (vm_compute; reflexivity).
  repeat (split; [assumption|]).
  exact (proj1 (proj2 (progress_is_throttled Sim.dev Sim.kernel))
           10240000 8388608 reporting_St r w H1 H2 H3).
Defined.

(** The dump of a well-formed superblock, on a big-endian host. *)
Lemma dump_checks_magic_and_version_witness :
  let ro := mk_reply 3 0 NoData in
  let w1 := Sim.set_pos sb_dev 0 in
  let rd := mk_reply 24 0 (Bytes sb_bytes) in
  let w2 := Sim.set_pos sb_dev 24 in
  let rc := mk_reply 0 0 NoData in
  Sim.kernel (SysOpen "dev" O_RDONLY) (world (init_St sb_dev)) = (ro, w1) /\
  ret ro <> -1 /\
  Sim.kernel (SysRead (ret ro) sizeof_sb) w1 = (rd, w2) /\
  ret rd = sizeof_sb /\ data rd = Bytes sb_bytes /\
  List.length sb_bytes = 24%nat /\ Forall is_byte sb_bytes /\
  Sim.kernel (SysClose (ret ro)) w2 = (rc, w2) /\
  firstn 8 sb_bytes = SB_MAGIC /\ nth 8 sb_bytes 0 = SB_VERSION /\
  cmd_dump Sim.kernel true (Some "dev"%string) (repeat 170 24)
           (init_St sb_dev) =
  ([Sys (SysOpen "dev" O_RDONLY) ro; Sys (SysRead (ret ro) sizeof_sb) rd;
    Sys (SysClose (ret ro)) rc;
    Printf fmt_info [PStr "dev"];
    Printf fmt_log2 [PInt 15];
    Printf fmt_tag_size [PUInt 4];
    Printf fmt_journal [PUInt 100];
    Printf fmt_provided [PU64 4096]],
   mk_St w2 (start_time (init_St sb_dev)) (now_time (init_St sb_dev))
         (end_time (init_St sb_dev)),
   Done EXIT_SUCCESS).
Proof.
  intros ro w1 rd w2 rc.
  assert (H1 : Sim.kernel (SysOpen "dev" O_RDONLY) (world (init_St sb_dev))
               = (ro, w1)) by reflexivity.
  assert (H2 : ret ro <> -1) by discriminate.
  assert (H3 : Sim.kernel (SysRead (ret ro) sizeof_sb) w1 = (rd, w2))
    by reflexivity.
  assert (H4 : ret rd = sizeof_sb) by reflexivity.
  assert (H5 : data rd = Bytes sb_bytes) by reflexivity.
  assert (H6 : List.length sb_bytes = 24%nat) by reflexivity.
  assert (H7 : Forall is_byte sb_bytes)
    by (repeat constructor; unfold is_byte; lia).
  assert (H8 : Sim.kernel (SysClose (ret ro)) w2 = (rc, w2)) by reflexivity.
  assert (H9 : firstn 8 sb_bytes = SB_MAGIC) by reflexivity.
  assert (H10 : nth 8 sb_bytes 0 = SB_VERSION) by reflexivity.
  repeat (split; [assumption|]).
  exact (proj2 (dump_checks_magic_and_version Sim.dev Sim.kernel true
                  "dev"%string (repeat 170 24) sb_bytes (init_St sb_dev)
                  ro rd rc w1 w2 w2 H1 H2 H3 H4 H5 H6 H7 H8) H9 H10).
Defined.

(** The dump of a device of no bytes: the read returns 0. *)
Lemma short_header_read_fails_witness :
  let d := Sim.device 0 [] [] [] in
  let ro := mk_reply 3 0 NoData in
  let rd := mk_reply 0 0 (Bytes []) in
  let rc := mk_reply 0 0 NoData in
  Sim.kernel (SysOpen "dev" O_RDONLY) (world (init_St d)) = (ro, d) /\
  ret ro <> -1 /\
  Sim.kernel (SysRead (ret ro) sizeof_sb) d = (rd, d) /\
  u64 (ret rd) <> sizeof_sb /\
  Sim.kernel (SysClose (ret ro)) d = (rc, d) /\
  cmd_dump Sim.kernel false (Some "dev"%string) (repeat 170 24) (init_St d) =
  ([Sys (SysOpen "dev" O_RDONLY) ro; Sys (SysRead (ret ro) sizeof_sb) rd;
    Printf fmt_no_header [PStr "dev"]; Sys (SysClose (ret ro)) rc],
   mk_St d (start_time (init_St d)) (now_time (init_St d))
         (end_time (init_St d)),
   Done EXIT_FAILURE).
Proof.
  intros d ro rd rc.
  assert (H1 : Sim.kernel (SysOpen "dev" O_RDONLY) (world (init_St d))
               = (ro, d)) by reflexivity.
  assert (H2 : ret ro <> -1) by discriminate.
  assert (H3 : Sim.kernel (SysRead (ret ro) sizeof_sb) d = (rd, d))
    by reflexivity.
  assert (H4 : u64 (ret rd) <> sizeof_sb) by discriminate.
  assert (H5 : Sim.kernel (SysClose (ret ro)) d = (rc, d)) by reflexivity.
  repeat (split; [assumption|]).
  exact (proj1 (short_header_read_fails Sim.dev Sim.kernel false)
           "dev"%string (repeat 170 24) (init_St d) ro rd rc d d d
           H1 H2 H3 H4 H5).
Defined.

(** The fix of a device of no sectors. *)
Lemma zero_extent_run_witness :
  let d := Sim.device 0 [] [] [] in
  let rm := mk_reply 0 0 (Val 8192) in
  let ro := mk_reply 3 0 NoData in
  (0 < 5)%nat /\
  Sim.kernel (SysMemalign 8192
                (u64 (s32 (u32 (block_sectors cfg8 * SECTOR_SIZE)))))
             (world (init_St d)) = (rm, d) /\
  ret rm = 0 /\ data rm = Val 8192 /\ 8192 <> 0 /\
  Sim.kernel (SysOpen "dev" (rw_flags cfg8 DEV_FIX)) d = (ro, d) /\
  ret ro <> -1 /\
  result (rw_sectors Sim.kernel cfg8 5 "dev" 0 0 DEV_FIX (init_St d)) = Done 0 /\
  Forall no_io (trace (rw_sectors Sim.kernel cfg8 5 "dev" 0 0 DEV_FIX
                                  (init_St d))).
Proof.
  intros d rm ro.
  assert (H1 : (0 < 5)%nat) by lia.
  assert (H2 : Sim.kernel (SysMemalign 8192
                 (u64 (s32 (u32 (block_sectors cfg8 * SECTOR_SIZE)))))
                 (world (init_St d)) = (rm, d)) by reflexivity.
  assert (H3 : ret rm = 0) by reflexivity.
  assert (H4 : data rm = Val 8192) by reflexivity.
  assert (H5 : 8192 <> 0) by discriminate.
  assert (H6 : Sim.kernel (SysOpen "dev" (rw_flags cfg8 DEV_FIX)) d = (ro, d))
    by reflexivity.
  assert (H7 : ret ro <> -1) by discriminate.
  repeat (split; [assumption|]).
  pose proof (zero_extent_run Sim.dev Sim.kernel cfg8 5%nat "dev"%string DEV_FIX
                (init_St d) rm ro d d 8192 H1 H2 H3 H4 H5 H6 H7) as H.
  exact (conj (proj1 H) (proj1 (proj2 H))).
Defined.

(** The check of a device of 20000 sectors ends with the summary. *)
Example summary_is_printed :
  printed fmt_finished
          (trace (cmd_dev Sim.kernel default_config 100 "dev" DEV_CHECK
                          (init_St (Sim.device 20000 [] [] [])))) = true.
Proof. vm_compute. reflexivity. Qed.

(** The check of a device whose chunk at sector 8 cannot be sought fails,
    and closes the two handles it has opened. *)
Example seek_failure_run :
  let run := cmd_dev Sim.kernel cfg8 100 "dev" DEV_CHECK
                     (init_St (Sim.device 20 [] [] [4096])) in
  result run = Done EXIT_FAILURE /\
  opened_fds (trace run) = [3; 3] /\ closed_fds (trace run) = [3; 3] /\
  visited 16 (trace run) = false.
Proof. vm_compute. repeat split. Qed.

(** The fix of a device whose sector 3 is bad wipes that sector, and
    writes once. *)
Example fix_wipes_the_bad_sector :
  let t := trace (cmd_dev Sim.kernel cfg8 100 "dev" DEV_FIX
                          (init_St (Sim.device 20 [3] [] []))) in
  In (Printf fmt_wiped [PU64 3]) t /\
  List.length (filter is_write t) = 1%nat /\
  Sim.bad repaired = [].
Proof. vm_compute. repeat split; auto 30. Qed.

(** The conversions between integers and doubles. *)
Example double_conversions :
  ull_of_double (PrimFloat.div (double_of_Z 7) PrimFloat.two) = Some 3 /\
  ull_of_double (double_of_Z (-1)) = None /\
  floor (PrimFloat.div (double_of_Z (-7)) PrimFloat.two) = double_of_Z (-4) /\
  double_of_Z (2 ^ 53 + 1) = double_of_Z (2 ^ 53) /\
  PrimFloat.ltb (time_diff (mk_timeval 1000 900000) (mk_timeval 1001 399999))
                half = true /\
  PrimFloat.ltb (time_diff (mk_timeval 1000 900000) (mk_timeval 1001 400000))
                half = false.
Proof. vm_compute. repeat split. Qed.

(** With [--randomize], the fix of a bad sector does not reach its write:
    the failed read has left EIO in [errno], [getrandom] succeeds and
    leaves it there, and the second [assert] of [get_random] fails. *)
Example randomized_fix_aborts :
  let run := cmd_dev Sim.kernel (mk_config false true O_DIRECT 8) 100 "dev"
                     DEV_FIX (init_St (Sim.device 20 [3] [] [])) in
  result run = Abort /\
  List.length (filter is_write (trace run)) = 0%nat /\
  last (trace run) Free = Sys (SysGetrandom 512) (mk_reply 512 EIO NoData).
Proof. vm_compute. repeat split. Qed.

(* ================================================================== *)
(** * [get_random] *)
(* ================================================================== *)

Lemma s32_range (z : Z) : - 2 ^ 31 <= s32 z < 2 ^ 31.
Proof.
  unfold s32. pose proof (Z.mod_pos_bound z (2 ^ 32)) as H.
  destruct (z mod 2 ^ 32 <? 2 ^ 31) eqn:E.
  - apply Z.ltb_lt in E. lia.
  - apply Z.ltb_ge in E. lia.
Qed.

Lemma u64_negative (r : Z) : - 2 ^ 31 <= r < 0 -> u64 r = r + 2 ^ 64.
Proof.
  intros H. unfold u64. symmetry.
  apply (Z.mod_unique r (2 ^ 64) (-1) (r + 2 ^ 64)); lia.
Qed.

Lemma u64_small (r : Z) : 0 <= r < 2 ^ 64 -> u64 r = r.
Proof. intros H. unfold u64. now apply Z.mod_small. Qed.

(** What the first [assert] of [get_random] lets through. *)
Lemma getrandom_count_accepted (r n : Z) :
  0 <= n < 2 ^ 63 -> - 2 ^ 31 <= r < 2 ^ 31 ->
  (u64 r <=? n) = true <-> 0 <= r <= n.
Proof.
  intros Hn Hr. rewrite Z.leb_le.
  destruct (Z_lt_le_dec r 0) as [Hneg|Hpos].
  - rewrite u64_negative by lia. lia.
  - rewrite u64_small by lia. lia.
Qed.

Section GetRandom.

Context {World : Type} (kernel : syscall -> World -> reply * World).

(** X1.  When [get_random] returns, the buffer is full and not more than
    full: the counts that the calls of [getrandom] have reported add up
    to the size of the buffer, and each call has passed both [assert]s
    (a count between 0 and what was asked for, and an [errno] that is 0
    or EINTR). *)
Theorem get_random_fills_the_buffer :
  forall (fuel : nat) (n : Z) (s : St World),
    0 <= n < 2 ^ 63 ->
    result (get_random kernel fuel n s) = Done tt ->
    delivered (trace (get_random kernel fuel n s)) = n /\
    Forall getrandom_accepted (trace (get_random kernel fuel n s)).
Proof.
  induction fuel as [|fuel IH]; intros n s Hn; [discriminate|].
  cbn [get_random]. step_call.
  pose proof (s32_range (ret r)) as Hr.
  destruct (u64 (s32 (ret r)) <=? n) eqn:E1; cbn [negb]; [|discriminate].
  apply getrandom_count_accepted in E1; [|assumption|assumption].
  destruct ((err r =? 0) || (err r =? EINTR)) eqn:E2; cbn [negb];
    [|discriminate].
  assert (He : err r = 0 \/ err r = EINTR).
  { apply orb_true_iff in E2. rewrite !Z.eqb_eq in E2. exact E2. }
  assert (Hn' : (if 0 <? s32 (ret r) then u64 (n - s32 (ret r)) else n)
                = n - s32 (ret r)).
  { destruct (0 <? s32 (ret r)) eqn:E3.
    - apply u64_small. lia.
    - apply Z.ltb_ge in E3. lia. }
  rewrite Hn'.
  destruct (n - s32 (ret r) =? 0) eqn:E4.
  - intros _. cbn. split.
    + apply Z.eqb_eq in E4. unfold delivered. cbn. lia.
    + constructor; [cbn; auto | constructor].
  - intros H. destruct (IH (n - s32 (ret r)) _ ltac:(lia) H) as [Hd Hf].
    split.
    + unfold delivered in *. cbn [map fold_right getrandom_bytes].
      rewrite Hd. lia.
    + constructor; [|exact Hf]. cbn. auto.
Qed.

(** X2.  A call of [getrandom] that fails (a negative return value), or
    that leaves in [errno] anything but 0 or EINTR, ends the process at
    an [assert]: [get_random] does not try again, not even after EINTR,
    since a failed call returns -1. *)
Theorem get_random_aborts :
  forall (fuel : nat) (n : Z) (s : St World) (rep : reply) (w : World),
    0 <= n < 2 ^ 63 ->
    kernel (SysGetrandom n) (world s) = (rep, w) ->
    s32 (ret rep) < 0 \/ (err rep <> 0 /\ err rep <> EINTR) ->
    get_random kernel (S fuel) n s =
    ([Sys (SysGetrandom n) rep],
     mk_St w (start_time s) (now_time s) (end_time s), Abort).
Proof.
  intros fuel n s rep w Hn K H. cbn [get_random].
  rewrite (bind_call kernel _ _ _ _ _ K).
  pose proof (s32_range (ret rep)) as Hr.
  destruct (u64 (s32 (ret rep)) <=? n) eqn:E1; cbn [negb]; [|reflexivity].
  apply getrandom_count_accepted in E1; [|assumption|assumption].
  destruct H as [H|[H0 H1]]; [lia|].
  apply Z.eqb_neq in H0, H1. rewrite H0, H1. reflexivity.
Qed.

End GetRandom.

(** A failed [getrandom] with EINTR. *)
Lemma get_random_aborts_witness :
  let d := Sim.device 20 [] [] [] in
  let k := fun (c : syscall) (w : Sim.dev) =>
             match c with
             | SysGetrandom _ => (mk_reply (-1) EINTR NoData, w)
             | _ => Sim.kernel c w
             end in
  let rep := mk_reply (-1) EINTR NoData in
  0 <= 512 < 2 ^ 63 /\
  k (SysGetrandom 512) (world (init_St d)) = (rep, d) /\
  (s32 (ret rep) < 0 \/ (err rep <> 0 /\ err rep <> EINTR)) /\
  get_random k 3 512 (init_St d) =
  ([Sys (SysGetrandom 512) rep],
   mk_St d (start_time (init_St d)) (now_time (init_St d))
         (end_time (init_St d)), Abort).
Proof.
  intros d k rep.
  assert (H1 : 0 <= 512 < 2 ^ 63) by lia.
  assert (H2 : k (SysGetrandom 512) (world (init_St d)) = (rep, d))
    by reflexivity.
  assert (H3 : s32 (ret rep) < 0 \/ (err rep <> 0 /\ err rep <> EINTR))
    by (left; vm_compute; reflexivity).
  repeat (split; [assumption|]).
  exact (get_random_aborts k 2%nat 512 (init_St d) rep d H1 H2 H3).
Defined.

(** Two short deliveries and a last one. *)
Lemma get_random_fills_the_buffer_witness :
  let k := fun (c : syscall) (w : Z) =>
             match c with
             | SysGetrandom len => (mk_reply (Z.min len 200) 0 NoData, w)
             | _ => (mk_reply 0 0 NoData, w)
             end in
  0 <= 512 < 2 ^ 63 /\
  result (get_random k 5 512 (init_St 0)) = Done tt /\
  delivered (trace (get_random k 5 512 (init_St 0))) = 512 /\
  Forall getrandom_accepted (trace (get_random k 5 512 (init_St 0))).
Proof.
  intros k.
  assert (H1 : 0 <= 512 < 2 ^ 63) by lia.
  assert (H2 : result (get_random k 5 512 (init_St 0)) = Done tt)
    by reflexivity.
  split; [exact H1|]. split; [exact H2|].
  exact (get_random_fills_the_buffer k 5%nat 512 (init_St 0) H1 H2).
Defined.

(* ================================================================== *)
(** * [device_size_sec] *)
(* ================================================================== *)

Section DeviceSize.

Context {World : Type} (kernel : syscall -> World -> reply * World).

(** What [device_size_sec] does, by cases on the three calls. *)
Lemma device_size_sec_run device (s : St World) :
  exists rs,
    kernel (SysStat device) (world s) = (fst rs, snd rs) /\
    if ret (fst rs) <? 0
    then device_size_sec kernel device s =
         ([Sys (SysStat device) (fst rs)],
          mk_St (snd rs) (start_time s) (now_time s) (end_time s),
          Done (- EINVAL, None))
    else
      exists ro,
        kernel (SysOpen device O_RDONLY) (snd rs) = (fst ro, snd ro) /\
        if ret (fst ro) =? -1
        then device_size_sec kernel device s =
             ([Sys (SysStat device) (fst rs);
               Sys (SysOpen device O_RDONLY) (fst ro)],
              mk_St (snd ro) (start_time s) (now_time s) (end_time s),
              Done (- EINVAL, None))
        else
          exists ri rc,
            kernel (SysIoctlSize (ret (fst ro))) (snd ro) = (fst ri, snd ri) /\
            kernel (SysClose (ret (fst ro))) (snd ri) = (fst rc, snd rc) /\
            device_size_sec kernel device s =
            ([Sys (SysStat device) (fst rs);
              Sys (SysOpen device O_RDONLY) (fst ro);
              Sys (SysIoctlSize (ret (fst ro))) (fst ri);
              Sys (SysClose (ret (fst ro))) (fst rc)],
             mk_St (snd rc) (start_time s) (now_time s) (end_time s),
             Done (if ret (fst ri) <? 0 then - EINVAL else 0,
                   if ret (fst ri) <? 0 then None
                   else match data (fst ri) with
                        | Val z => Some (u64 z / SECTOR_SIZE)
                        | _ => None
                        end)).
Proof.
  unfold device_size_sec. step_call. exists (r, w). cbn [fst snd].
  split; [first [assumption|reflexivity]|].
  destruct (ret r <? 0); [reflexivity|].
  step_call. exists (r0, w0). cbn [fst snd].
  split; [first [assumption|reflexivity]|].
  destruct (ret r0 =? -1); [reflexivity|].
  step_call. step_call. exists (r1, w1), (r2, w2). cbn [fst snd].
  split; [first [assumption|reflexivity]|].
  split; [first [assumption|reflexivity]|].
  destruct (ret r1 <? 0); [reflexivity|]. now destruct (data r1).
Qed.

End DeviceSize.

(** X3.  [device_size_sec] only calls [stat], [open] for reading,
    the size ioctl and [close]; it closes the handle it has opened, on
    every path; its result is 0 or -EINVAL; and a size that it resolves is
    the byte size divided by 512, so less than 2^55 sectors, and comes
    with the result 0; the result is 0 only if the three calls have
    succeeded. *)
Theorem device_size_sec_resolves :
  forall (World : Type) (kernel : syscall -> World -> reply * World)
         (device : string) (s : St World),
    Forall sizing_event (trace (device_size_sec kernel device s)) /\
    closed_fds (trace (device_size_sec kernel device s)) =
      opened_fds (trace (device_size_sec kernel device s)) /\
    exists r size,
      result (device_size_sec kernel device s) = Done (r, size) /\
      (r = 0 \/ r = - EINVAL) /\
      (r = 0 ->
       forall e, In e (trace (device_size_sec kernel device s)) ->
                 match e with
                 | Sys (SysStat _) rep | Sys (SysIoctlSize _) rep =>
                     0 <= ret rep
                 | Sys (SysOpen _ _) rep => ret rep <> -1
                 | _ => True
                 end) /\
      (forall z, size = Some z ->
         r = 0 /\ 0 <= z < 2 ^ 55 /\
         exists fd rep bytes,
           In (Sys (SysIoctlSize fd) rep)
              (trace (device_size_sec kernel device s)) /\
           data rep = Val bytes /\ z = u64 bytes / SECTOR_SIZE).
Proof.
  intros World kernel device s.
  destruct (device_size_sec_run kernel device s) as ([rs ws] & _ & H).
  cbn [fst snd] in H. destruct (ret rs <? 0) eqn:E1.
  { rewrite H. cbn [trace result fst snd]. split; [now repeat constructor|].
    split; [reflexivity|]. exists (- EINVAL), None.
    repeat split; auto; try discriminate. }
  destruct H as ([ro wo] & _ & H). cbn [fst snd] in H.
  destruct (ret ro =? -1) eqn:E2.
  { rewrite H. cbn [trace result fst snd]. split; [now repeat constructor|].
    split; [cbn; now rewrite E2|]. exists (- EINVAL), None.
    repeat split; auto; try discriminate. }
  destruct H as ([ri wi] & [rc wc] & _ & _ & H). cbn [fst snd] in H.
  rewrite H. cbn [trace result fst snd]. split; [now repeat constructor|].
  split; [cbn; now rewrite E2|].
  eexists _, _. split; [reflexivity|].
  apply Z.ltb_ge in E1. apply Z.eqb_neq in E2.
  destruct (ret ri <? 0) eqn:E3.
  - repeat split; auto; try discriminate.
  - apply Z.ltb_ge in E3. split; [now left|]. split.
    + intros _ e [<-|[<-|[<-|[<-|[]]]]]; auto.
    + intros z Hz. destruct (data ri) as [|bytes| |] eqn:Ed; try discriminate.
      injection Hz as <-. split; [reflexivity|]. split.
      * unfold u64, SECTOR_SIZE.
        pose proof (Z.mod_pos_bound bytes (2 ^ 64) ltac:(lia)) as Hb.
        split; [apply Z.div_pos; lia | apply Z.div_lt_upper_bound; lia].
      * exists (ret ro), ri, bytes. cbn. auto 10.
Qed.

(* ================================================================== *)
(** * [main] *)
(* ================================================================== *)

Section Yields.

Context {World : Type} (kernel : syscall -> World -> reply * World).

Lemma yields_pure {A} (P : A -> Prop) (a : A) :
  P a -> yields P (pure (World := World) a).
Proof. intros H s a' E. injection E as <-. exact H. Qed.

Lemma yields_bind {A B} (P : B -> Prop) (m : M World A) (f : A -> M World B) :
  (forall a, yields P (f a)) -> yields P (bind m f).
Proof.
  intros Hf s b E. apply bind_result in E.
  destruct E as (t1 & s1 & a & _ & E). exact (Hf a s1 b E).
Qed.

Lemma yields_after {A B} (P : B -> Prop) (R : A -> Prop)
    (m : M World A) (f : A -> M World B) :
  yields R m -> (forall a, R a -> yields P (f a)) -> yields P (bind m f).
Proof.
  intros Hm Hf s b E. apply bind_result in E.
  destruct E as (t1 & s1 & a & Ha & E).
  refine (Hf a _ s1 b E). apply (Hm s). unfold result. now rewrite Ha.
Qed.

Lemma yields_finish devfd dev off :
  yields exit_status (finish kernel devfd dev off).
Proof.
  intros s a E. destruct (finish_run kernel devfd dev off s) as (rf & rc & w & H).
  rewrite H in E. injection E as <-. now left.
Qed.

Lemma yields_rw_sectors cfg fuel device off dev dc :
  yields exit_status (rw_sectors kernel cfg fuel device off dev dc).
Proof.
  unfold rw_sectors, scan.
  apply yields_bind. intros sf. destruct (sf =? 0).
  { apply yields_pure. now right. }
  apply yields_bind. intros r. destruct (ret r =? -1).
  { apply yields_bind. intros _. apply yields_pure. now right. }
  apply yields_bind. intros [o|].
  - apply yields_finish.
  - apply yields_pure. now right.
Qed.

Lemma yields_cmd_dev cfg fuel device dc :
  yields exit_status (cmd_dev kernel cfg fuel device dc).
Proof.
  unfold cmd_dev. apply yields_bind. intros _. apply yields_bind.
  intros [r [size|]]; destruct r;
    try (apply yields_pure; now right).
  apply yields_rw_sectors.
Qed.

Lemma yields_read_superblock big_endian device mem0 :
  yields (fun x : Z * superblock => exit_status (fst x))
         (read_superblock kernel big_endian device mem0).
Proof.
  unfold read_superblock. destruct device as [dev|];
    [|apply yields_pure; now right].
  apply yields_bind. intros o.
  destruct (ret o =? -1); [apply yields_pure; now right|].
  apply yields_bind. intros rd.
  apply (yields_after _ (fun x : Z * superblock => exit_status (fst x))).
  - destruct (negb (u64 (ret rd) =? sizeof_sb) || _ || _).
    + apply yields_bind. intros _. apply yields_pure. now right.
    + apply yields_pure. now left.
  - intros rsb H. apply yields_bind. intros _. now apply yields_pure.
Qed.

Lemma yields_cmd_dump big_endian device mem0 :
  yields exit_status (cmd_dump kernel big_endian device mem0).
Proof.
  unfold cmd_dump.
  apply (yields_after _ (fun x : Z * superblock => exit_status (fst x)));
    [apply yields_read_superblock|].
  intros [r sb] H. cbn [fst snd] in *. destruct (negb (r =? 0)).
  - now apply yields_pure.
  - repeat (apply yields_bind; intros _). apply yields_pure. now left.
Qed.

Lemma yields_help : yields exit_status (help (World := World)).
Proof. unfold help. apply yields_bind. intros _. apply yields_pure. now right. Qed.

Lemma yields_main big_endian fuel os args mem0 :
  yields exit_status (main kernel big_endian fuel os args mem0).
Proof.
  unfold main.
  destruct (parse_options os default_config) as [cfg|]; [|apply yields_help].
  destruct args as [|arg rest]; [apply yields_help|].
  destruct (parse_command arg) as [cmd|]; [|apply yields_help].
  destruct rest as [|device rest]; [apply yields_help|].
  destruct cmd; first [apply yields_cmd_dump | apply yields_cmd_dev].
Qed.

(** [device_size_sec] and [read_superblock] close what they open. *)
Lemma device_size_sec_fds device (s : St World) :
  closed_fds (trace (device_size_sec kernel device s)) =
  opened_fds (trace (device_size_sec kernel device s)).
Proof.
  destruct (device_size_sec_run kernel device s) as ([rs ws] & _ & H).
  cbn [fst snd] in H. destruct (ret rs <? 0); [now rewrite H|].
  destruct H as ([ro wo] & _ & H). cbn [fst snd] in H.
  destruct (ret ro =? -1) eqn:E; [rewrite H; cbn; now rewrite E|].
  destruct H as ([ri wi] & [rc wc] & _ & _ & H). cbn [fst snd] in H.
  rewrite H. cbn. now rewrite E.
Qed.

Lemma cmd_dev_fds cfg fuel device dc (s : St World) (r : Z) :
  result (cmd_dev kernel cfg fuel device dc s) = Done r ->
  closed_fds (trace (cmd_dev kernel cfg fuel device dc s)) =
  opened_fds (trace (cmd_dev kernel cfg fuel device dc s)).
Proof.
  unfold cmd_dev.
  rewrite bind_trace, bind_outcome, opened_fds_app, closed_fds_app.
  assert (Hl : forall s0 : St World,
            log_dbg cfg fmt_running [PStr device] s0 =
            ((if _debug cfg then [Printf fmt_running [PStr device]] else []),
             s0, Done tt)).
  { intros s0. unfold log_dbg. now destruct (_debug cfg). }
  rewrite Hl. cbn [trace result final fst snd].
  assert (Hq : opened_fds (if _debug cfg
                           then [Printf fmt_running [PStr device]] else []) = []
               /\ closed_fds (if _debug cfg
                           then [Printf fmt_running [PStr device]] else []) = [])
    by (destruct (_debug cfg); now split).
  destruct Hq as [-> ->]. cbn [app].
  rewrite bind_trace, bind_outcome, opened_fds_app, closed_fds_app.
  rewrite (device_size_sec_fds device s).
  destruct (result (device_size_sec kernel device s)) as [[r0 size]| |];
    try discriminate.
  destruct size as [size|]; destruct r0; cbn [trace result fst snd pure];
    try (intros _; reflexivity).
  intros H. now rewrite (rw_sectors_fds kernel cfg _ _ _ _ _ _ r H).
Qed.

Lemma cmd_dump_fds big_endian device mem0 (s : St World) :
  closed_fds (trace (cmd_dump kernel big_endian device mem0 s)) =
  opened_fds (trace (cmd_dump kernel big_endian device mem0 s)).
Proof.
  assert (Hp : forall (r : Z) (sb : superblock) (s0 : St World),
            Forall quiet
              (trace ((if negb (r =? 0) then pure r
                       else
                         (printf fmt_info
                            [match device with
                             | Some d => PStr d
                             | None => PStr EmptyString
                             end] ;;;
                          printf fmt_log2 [PInt (log2_interleave_sectors sb)] ;;;
                          printf fmt_tag_size [PUInt (integrity_tag_size sb)] ;;;
                          printf fmt_journal [PUInt (journal_sections sb)] ;;;
                          printf fmt_provided
                            [PU64 (provided_data_sectors sb)] ;;;
                          pure EXIT_SUCCESS)%prog) s0))).
  { intros r sb s0. destruct (negb (r =? 0)); [constructor|].
    unfold printf. repeat (rewrite bind_emit; cbn [trace final result fst snd]).
    repeat constructor. }
  unfold cmd_dump. rewrite bind_trace, opened_fds_app, closed_fds_app.
  assert (Hr : closed_fds (trace (read_superblock kernel big_endian device mem0 s))
               = opened_fds (trace (read_superblock kernel big_endian device
                                      mem0 s))).
  { destruct device as [dev|]; [|reflexivity].
    destruct (kernel (SysOpen dev O_RDONLY) (world s)) as [ro w1] eqn:Ko.
    destruct (ret ro =? -1) eqn:E.
    - unfold read_superblock. rewrite (bind_call kernel _ _ _ _ _ Ko).
      rewrite E. cbn. now rewrite E.
    - destruct (kernel (SysRead (ret ro) sizeof_sb) w1) as [rd w2] eqn:Kr.
      destruct (kernel (SysClose (ret ro)) w2) as [rc w3] eqn:Kc.
      apply Z.eqb_neq in E.
      rewrite (read_superblock_run kernel big_endian dev mem0 s ro w1 rd w2
                 rc w3 Ko E Kr Kc).
      cbv zeta. apply Z.eqb_neq in E.
      destruct (negb (u64 (ret rd) =? sizeof_sb) || _ || _);
        cbn; now rewrite E. }
  rewrite Hr. f_equal.
  destruct (result (read_superblock kernel big_endian device mem0 s))
    as [[r sb]| |]; [|reflexivity|reflexivity].
  cbv beta. cbn [fst snd].
  destruct (quiet_fds _ (Hp r sb (final (read_superblock kernel big_endian
                                           device mem0 s)))) as [Ho Hc].
  now rewrite Ho, Hc.
Qed.

End Yields.

(** X4.  The exit status of the program is 0 or 1, and when [main]
    returns it has closed every handle that it has opened, once each,
    whatever the command line and whatever the kernel has answered. *)
Theorem main_exit_status_and_handles :
  forall (World : Type) (kernel : syscall -> World -> reply * World)
         (big_endian : bool) (fuel : nat) (os : list option_arg)
         (args : list string) (mem0 : list Z) (s : St World) (r : Z),
    result (main kernel big_endian fuel os args mem0 s) = Done r ->
    exit_status r /\
    closed_fds (trace (main kernel big_endian fuel os args mem0 s)) =
    opened_fds (trace (main kernel big_endian fuel os args mem0 s)).
Proof.
  intros World kernel big_endian fuel os args mem0 s r H.
  split; [exact (yields_main kernel big_endian fuel os args mem0 s r H)|].
  revert H. unfold main.
  destruct (parse_options os default_config) as [cfg|]; [|reflexivity].
  destruct args as [|arg rest]; [reflexivity|].
  destruct (parse_command arg) as [cmd|]; [|reflexivity].
  destruct rest as [|device rest]; [reflexivity|].
  destruct cmd; intros H;
    first [apply cmd_dump_fds | eapply cmd_dev_fds; eauto].
Qed.

(** X9.  A command line with a refused option, without a command or
    without a device, or with a command that is none of dump, check, fix
    and format, gets the usage and the exit status 1, and no system call
    is made: no device is touched. *)
Theorem main_usage_error :
  forall (World : Type) (kernel : syscall -> World -> reply * World)
         (big_endian : bool) (fuel : nat) (os : list option_arg)
         (args : list string) (mem0 : list Z) (s : St World),
    usage_error os args ->
    main kernel big_endian fuel os args mem0 s =
    ([Printf fmt_usage []], s, Done EXIT_FAILURE).
Proof.
  intros World kernel big_endian fuel os args mem0 s [H|H]; unfold main.
  - now rewrite H.
  - destruct (parse_options os default_config) as [cfg|]; [|reflexivity].
    destruct args as [|arg rest]; [reflexivity|].
    destruct rest as [|device rest].
    + now destruct (parse_command arg).
    + destruct (H arg device rest eq_refl) as (H1 & H2 & H3 & H4).
      apply String.eqb_neq in H1, H2, H3, H4.
      unfold parse_command. now rewrite H1, H2, H3, H4.
Qed.

(* ================================================================== *)
(** * What each command does to the device *)
(* ================================================================== *)

Lemma Forall_traces {World A} (P R : event -> Prop) (m : M World A) :
  (forall e, R e -> P e) ->
  traces (Forall R) m -> traces (Forall P) m.
Proof. intros H Hm s. eapply Forall_impl; [exact H|apply Hm]. Qed.

Section FormatMode.

Context {World : Type} (kernel : syscall -> World -> reply * World).
Variable cfg : config.
Hypothesis cfg_sane : sane cfg.

Let Wnil : Forall write_only_event [] := Forall_nil write_only_event.

Lemma write_only_app (a b : list event) :
  Forall write_only_event a -> Forall write_only_event b ->
  Forall write_only_event (a ++ b).
Proof. intros. apply Forall_app. now split. Qed.

Lemma write_only_init_sectors n fuel :
  traces (Forall write_only_event) (init_sectors kernel cfg n fuel).
Proof.
  pose proof Wnil. pose proof write_only_app.
  induction n as [|n IH]; simpl; repeat traces_step; auto.
  apply (Forall_traces _ (fun e => is_getrandom e = true));
    [|apply getrandom_only_init_sector].
  intros [c r| | |]; try discriminate. destruct c; try discriminate. exact (fun _ => I).
Qed.

Lemma write_only_print_progress d b f :
  traces (Forall write_only_event) (print_progress kernel d b f).
Proof.
  intros s. eapply Forall_impl; [|apply reporting_print_progress].
  intros [c r| | |]; try discriminate; try exact (fun _ => I).
  destruct c; try discriminate. exact (fun _ => I).
Qed.

Lemma rw_flags_format :
  Z.land (rw_flags cfg DEV_FORMAT) O_ACCMODE = O_RDWR.
Proof.
  destruct cfg_sane as [[H|H] _]; unfold rw_flags; simpl; rewrite H; reflexivity.
Qed.

Lemma write_only_chunk fuel devfd dev off size :
  traces (Forall write_only_event)
         (chunk kernel cfg fuel devfd dev off size DEV_FORMAT).
Proof.
  pose proof Wnil. pose proof write_only_app.
  unfold chunk, log_dbg. cbn [is_format].
  repeat first
    [ apply write_only_init_sectors
    | apply write_only_print_progress
    | traces_step ];
    now repeat constructor.
Qed.

Lemma write_only_chunk_loop n fuel devfd dev :
  forall off,
    traces (Forall write_only_event)
           (chunk_loop kernel cfg n fuel devfd dev off DEV_FORMAT).
Proof.
  pose proof Wnil. pose proof write_only_app.
  induction n as [|n IH]; intros off; simpl; repeat traces_step.
  - apply write_only_chunk.
  - apply IH.
Qed.

Lemma write_only_rw_sectors fuel device off dev :
  traces (Forall write_only_event)
         (rw_sectors kernel cfg fuel device off dev DEV_FORMAT).
Proof.
  pose proof Wnil. pose proof write_only_app.
  unfold rw_sectors, aligned_malloc, scan, finish.
  repeat first
    [ apply write_only_chunk_loop
    | apply write_only_print_progress
    | traces_step ];
    try (now repeat constructor).
  constructor; [|constructor]. right. apply rw_flags_format.
Qed.

Lemma write_only_cmd_dev fuel device :
  traces (Forall write_only_event) (cmd_dev kernel cfg fuel device DEV_FORMAT).
Proof.
  pose proof Wnil. pose proof write_only_app.
  unfold cmd_dev, log_dbg, device_size_sec.
  traces_step; [repeat traces_step; now repeat constructor|].
  traces_step;
    [repeat traces_step; now repeat constructor |].
  destruct a0 as [r [size|]]; destruct r; cbn iota; try traces_step.
  apply write_only_rw_sectors.
Qed.

End FormatMode.

Section ReadOnlyCommands.

Context {World : Type} (kernel : syscall -> World -> reply * World).

Lemma read_only_cmd_dev cfg fuel device :
  sane cfg ->
  traces (Forall read_only_event) (cmd_dev kernel cfg fuel device DEV_CHECK).
Proof.
  intros Hcfg. apply (traces_cmd_dev kernel cfg (Forall read_only_event)).
  - constructor.
  - intros a b Ha Hb. apply Forall_app. now split.
  - apply read_only_other.
  - intros p r. repeat constructor.
  - intros p r. constructor; [|constructor]. simpl. now apply rw_flags_check.
  - discriminate.
  - intros. apply read_only_check_sector.
Qed.

Lemma read_only_cmd_dump big_endian device mem0 :
  traces (Forall read_only_event) (cmd_dump kernel big_endian device mem0).
Proof.
  pose proof (@Forall_nil event read_only_event) as Hnil.
  assert (Happ : forall a b : list event, Forall read_only_event a ->
            Forall read_only_event b -> Forall read_only_event (a ++ b))
    by (intros; apply Forall_app; now split).
  unfold cmd_dump, read_superblock. destruct device as [dev|];
    repeat traces_step; now repeat constructor.
Qed.

End ReadOnlyCommands.

(** X5.  The command format never reads the device: no event of the run
    is a read, whatever the options and the kernel's answers; the device
    is opened for reading only to ask for its size, and for reading and
    writing to be wiped. *)
Theorem format_never_reads :
  forall (World : Type) (kernel : syscall -> World -> reply * World)
         (big_endian : bool) (fuel : nat) (os : list option_arg)
         (rest : list string) (mem0 : list Z) (s : St World),
    Forall write_only_event
           (trace (main kernel big_endian fuel os ("format"%string :: rest)
                        mem0 s)).
Proof.
  intros World kernel big_endian fuel os rest mem0 s. unfold main.
  destruct (parse_options os default_config) as [cfg|] eqn:E;
    [|now repeat constructor].
  change (parse_command "format") with (Some CMD_FORMAT). cbv iota.
  destruct rest as [|device rest]; [now repeat constructor|].
  apply write_only_cmd_dev. eapply configured_sane; eauto.
Qed.

(** X10.  The commands dump and check never write to the device and open
    it for reading only, whatever the options and the kernel's
    answers. *)
Theorem dump_and_check_never_write :
  forall (World : Type) (kernel : syscall -> World -> reply * World)
         (big_endian : bool) (fuel : nat) (os : list option_arg)
         (arg : string) (rest : list string) (mem0 : list Z) (s : St World),
    arg = "dump"%string \/ arg = "check"%string ->
    Forall read_only_event
           (trace (main kernel big_endian fuel os (arg :: rest) mem0 s)).
Proof.
  intros World kernel big_endian fuel os arg rest mem0 s H. unfold main.
  destruct (parse_options os default_config) as [cfg|] eqn:E;
    [|now repeat constructor].
  destruct H as [-> | ->].
  - change (parse_command "dump") with (Some CMD_DUMP). cbv iota.
    destruct rest as [|device rest]; [now repeat constructor|].
    apply read_only_cmd_dump.
  - change (parse_command "check") with (Some CMD_CHECK). cbv iota.
    destruct rest as [|device rest]; [now repeat constructor|].
    apply read_only_cmd_dev. eapply configured_sane; eauto.
Qed.

(* ================================================================== *)
(** * The chunk size and the buffer *)
(* ================================================================== *)

(** X8.  The option [--blocksize] is accepted exactly for the values from
    1 to 2^32 - 1 (of the [long long] that [atoll] returns), and then the
    chunk size is that value and nothing else of the settings changes;
    every other value gets the usage. *)
Theorem blocksize_is_accepted :
  forall (tmpll : Z) (c : config),
    - 2 ^ 63 <= tmpll < 2 ^ 63 ->
    (0 < tmpll < 2 ^ 32 ->
     set_option (OptB tmpll) c =
     Some (mk_config (_debug c) (_randomize c) (open_flags c) tmpll)) /\
    (tmpll <= 0 \/ 2 ^ 32 <= tmpll -> set_option (OptB tmpll) c = None).
Proof.
  intros tmpll c Hr. cbn [set_option]. split.
  - intros H. unfold u32, u64. rewrite (Z.mod_small tmpll (2 ^ 64)) by lia.
    rewrite (Z.mod_small tmpll (2 ^ 32)) by lia.
    rewrite Z.eqb_refl. destruct (tmpll <=? 0) eqn:E; [|reflexivity].
    apply Z.leb_le in E. lia.
  - intros [H|H].
    + apply Z.leb_le in H. now rewrite H.
    + destruct (tmpll <=? 0); [reflexivity|].
      assert (E : (tmpll =? u32 (u64 tmpll)) = false).
      { apply Z.eqb_neq. unfold u32.
        pose proof (Z.mod_pos_bound (u64 tmpll) (2 ^ 32) ltac:(lia)). lia. }
      now rewrite E.
Qed.

(** X13.  The buffer that [rw_sectors] asks for first is as large as a
    chunk only while the chunk is smaller than 2^22 sectors (2 GiB): the
    size is computed in 32 bits and passed as an [int], so from 2^22
    sectors on the request differs from the size of a chunk. *)
Theorem buffer_is_a_chunk_below_2GiB :
  forall (World : Type) (kernel : syscall -> World -> reply * World)
         (cfg : config) (fuel : nat) (device : string) (off dev : Z)
         (dc : dev_command) (s : St World),
    0 < block_sectors cfg < 2 ^ 32 ->
    exists size r rest,
      trace (rw_sectors kernel cfg fuel device off dev dc s) =
        Sys (SysMemalign 8192 size) r :: rest /\
      (size = block_sectors cfg * SECTOR_SIZE <-> block_sectors cfg < 2 ^ 22).
Proof.
  intros World kernel cfg fuel device off dev dc s Hb.
  unfold rw_sectors, aligned_malloc.
  destruct (kernel (SysMemalign 8192
              (u64 (s32 (u32 (block_sectors cfg * SECTOR_SIZE))))) (world s))
    as [r w] eqn:K.
  assert (Em : bind (call kernel (SysMemalign 8192
                      (u64 (s32 (u32 (block_sectors cfg * SECTOR_SIZE))))))
                 (fun r0 => pure (if ret r0 =? 0
                                  then match data r0 with Val p => p | _ => 0 end
                                  else 0)) s
               = ([Sys (SysMemalign 8192
                          (u64 (s32 (u32 (block_sectors cfg * SECTOR_SIZE))))) r],
                  mk_St w (start_time s) (now_time s) (end_time s),
                  Done (if ret r =? 0
                        then match data r with Val p => p | _ => 0 end
                        else 0)))
    by now rewrite (bind_call kernel _ _ _ _ _ K).
  rewrite (bind_done _ _ _ _ _ _ Em). cbn [trace fst snd app].
  eexists _, r, _. split; [reflexivity|].
  unfold SECTOR_SIZE, u32, s32, u64.
  set (b := block_sectors cfg) in *.
  pose proof (Z.mod_pos_bound (b * 512) (2 ^ 32) ltac:(lia)) as Hm.
  rewrite (Z.mod_mod (b * 512) (2 ^ 32)) by lia.
  destruct (Z_lt_le_dec (b * 512) (2 ^ 32)) as [Hs|Hl].
  - rewrite (Z.mod_small (b * 512) (2 ^ 32)) in * by lia.
    destruct (b * 512 <? 2 ^ 31) eqn:E.
    + apply Z.ltb_lt in E. rewrite Z.mod_small by lia. lia.
    + apply Z.ltb_ge in E.
      replace ((b * 512 - 2 ^ 32) mod 2 ^ 64) with (b * 512 - 2 ^ 32 + 2 ^ 64)
        by (apply (Z.mod_unique _ (2 ^ 64) (-1)); lia).
      lia.
  - destruct ((b * 512) mod 2 ^ 32 <? 2 ^ 31) eqn:E.
    + apply Z.ltb_lt in E. rewrite Z.mod_small by lia. lia.
    + apply Z.ltb_ge in E.
      replace (((b * 512) mod 2 ^ 32 - 2 ^ 32) mod 2 ^ 64)
        with ((b * 512) mod 2 ^ 32 - 2 ^ 32 + 2 ^ 64)
        by (apply (Z.mod_unique _ (2 ^ 64) (-1)); lia).
      lia.
Qed.

(* ================================================================== *)
(** * The command level on the simulated device *)
(* ================================================================== *)

(** [fix --blocksize 8] of a device of 20 sectors with one bad sector. *)
Lemma main_exit_status_and_handles_witness :
  let run := main Sim.kernel false 21 [OptB 8] ["fix"; "/dev/sdb"]%string []
                  (init_St (Sim.device 20 [3] [] [])) in
  result run = Done 0 /\
  exit_status 0 /\ closed_fds (trace run) = opened_fds (trace run).
Proof.
  intros run.
  assert (H : result run = Done 0) by (vm_compute; reflexivity).
  split; [exact H|].
  exact (main_exit_status_and_handles
           Sim.dev Sim.kernel false 21%nat [OptB 8] ["fix"; "/dev/sdb"]%string
           [] (init_St (Sim.device 20 [3] [] [])) 0 H).
Defined.

(** A chunk size of 2^32 sectors is refused. *)
Lemma main_usage_error_witness :
  usage_error [OptN; OptB 4294967296] ["check"; "/dev/sdb"]%string /\
  main Sim.kernel false 21 [OptN; OptB 4294967296] ["check"; "/dev/sdb"]%string
       [] (init_St (Sim.device 20 [] [] [])) =
  ([Printf fmt_usage []], init_St (Sim.device 20 [] [] []), Done EXIT_FAILURE).
Proof.
  assert (H : usage_error [OptN; OptB 4294967296] ["check"; "/dev/sdb"]%string)
    by (left; reflexivity).
  split; [exact H|].
  exact (main_usage_error Sim.dev Sim.kernel false 21%nat
           [OptN; OptB 4294967296] ["check"; "/dev/sdb"]%string []
           (init_St (Sim.device 20 [] [] [])) H).
Defined.

(** [check] of a device with a bad sector. *)
Lemma dump_and_check_never_write_witness :
  Forall read_only_event
         (trace (main Sim.kernel false 21 [OptB 8] ("check" :: ["/dev/sdb"])%string
                      [] (init_St (Sim.device 20 [3] [] [])))).
Proof.
  assert (H : "check"%string = "dump"%string \/ "check"%string = "check"%string)
    by (right; reflexivity).
  exact (dump_and_check_never_write Sim.dev Sim.kernel false 21%nat [OptB 8]
           "check"%string ["/dev/sdb"]%string []
           (init_St (Sim.device 20 [3] [] [])) H).
Defined.

(* ================================================================== *)
(** * The sector loop, sector by sector *)
(* ================================================================== *)

Lemma s64_u64_small (z : Z) : 0 <= z < 2 ^ 63 -> s64 (u64 z) = z.
Proof.
  intros H. unfold s64, u64. rewrite Z.mod_mod by lia.
  rewrite Z.mod_small by lia.
  destruct (z <? 2 ^ 63) eqn:E; [reflexivity|]. apply Z.ltb_ge in E. lia.
Qed.

Lemma visits_cons (fd first : Z) (v : visit) (vs : list visit) :
  visits fd first (v :: vs) = visit_events fd first v ++ visits fd (first + 1) vs.
Proof. reflexivity. Qed.

Section Visits.

Context {World : Type} (kernel : syscall -> World -> reply * World).
Variable cfg : config.
Hypothesis zero_fill : _randomize cfg = false.

(** One round that lets the loop go on is one visit. *)
Lemma check_sector_visit fuel devfd sector dc (s : St World) :
  0 <= sector * SECTOR_SIZE < 2 ^ 63 ->
  result (check_sector kernel cfg fuel devfd sector dc s) = Done Continue ->
  exists v, visit_ok dc v /\
            trace (check_sector kernel cfg fuel devfd sector dc s)
            = visit_events devfd sector v.
Proof.
  intros Hs. unfold check_sector, init_sector. rewrite zero_fill.
  rewrite (s64_u64_small _ Hs).
  unfold bind, call, printf, emit, pure.
  destruct (kernel (SysLseek devfd (sector * SECTOR_SIZE)) (world s))
    as [r1 w1].
  destruct (ret r1 <? 0) eqn:E1; cbn [result trace fst snd world]; [discriminate|].
  apply Z.ltb_ge in E1.
  destruct (kernel (SysRead devfd SECTOR_SIZE) w1) as [rd w2].
  destruct (ret rd =? SECTOR_SIZE) eqn:E2.
  { apply Z.eqb_eq in E2. intros _. exists (Healthy r1 rd). now split. }
  apply Z.eqb_neq in E2.
  destruct (err rd =? EIO) eqn:E3; destruct (err rd =? EILSEQ) eqn:E4;
    cbn [negb andb]; try discriminate.
  all: assert (Hm : media_error (err rd))
    by (first [left; now apply Z.eqb_eq | right; now apply Z.eqb_eq]).
  all: destruct (is_fix dc) eqn:Ef; cbn [negb result trace fst snd world app].
  all: try (intros _; exists (Reported r1 rd); now repeat split).
  all: destruct (kernel (SysLseek devfd (sector * SECTOR_SIZE)) w2) as [r2 w3];
    destruct (ret r2 <? 0) eqn:E5; cbn [result trace fst snd world app].
  all: try (apply Z.ltb_lt in E5; intros _; exists (SeekLost r1 rd r2);
            now repeat split).
  all: apply Z.ltb_ge in E5;
    destruct (kernel (SysWrite devfd SECTOR_SIZE) w3) as [rw w4];
    intros _; exists (Rewritten r1 rd r2 rw); split;
      [now repeat split|];
    cbn [visit_events]; destruct (ret rw =? SECTOR_SIZE); reflexivity.
Qed.

Lemma sector_loop_visits fuel devfd bound dc :
  bound * SECTOR_SIZE <= 2 ^ 63 ->
  forall (n : nat) (sector : Z) (s : St World),
    0 <= sector <= bound ->
    result (sector_loop kernel cfg n fuel devfd bound sector dc s)
      = Done Continue ->
    exists vs,
      List.length vs = Z.to_nat (bound - sector) /\
      Forall (visit_ok dc) vs /\
      trace (sector_loop kernel cfg n fuel devfd bound sector dc s)
      = visits devfd sector vs.
Proof.
  intros Hb. induction n as [|n IH]; intros sector s Hs; [discriminate|].
  cbn [sector_loop]. destruct (sector <? bound) eqn:E.
  - apply Z.ltb_lt in E. rewrite bind_outcome, bind_trace.
    destruct (result (check_sector kernel cfg fuel devfd sector dc s))
      as [[|]| |] eqn:Ec; try discriminate.
    unfold SECTOR_SIZE in *.
    destruct (check_sector_visit fuel devfd sector dc s ltac:(unfold SECTOR_SIZE; lia) Ec)
      as (v & Hv & Et).
    rewrite (u64_small (sector + 1)) by lia.
    intros H. destruct (IH (sector + 1) _ ltac:(lia) H) as (vs & Hl & Hf & Er).
    exists (v :: vs). split; [|split].
    + cbn [List.length]. rewrite Hl. lia.
    + now constructor.
    + rewrite visits_cons, Et, Er. reflexivity.
  - apply Z.ltb_ge in E. intros _. exists []. split; [|split].
    + cbn. lia.
    + constructor.
    + reflexivity.
Qed.

End Visits.

(** X7.  When the sector loop of [check_one_by_one] runs to its end (with
    zero fill), it has visited every sector of the chunk exactly once, in
    ascending order, and each visit is one of four.  Either the read
    returns the 512 bytes of the sector.  Or it does not, and [errno]
    holds EIO or EILSEQ after it, whether that read has failed with one of
    them or has returned fewer bytes (none, at the end of the device)
    while [errno] is left from an earlier call; then, in a check, the
    sector is reported and nothing is written; in a fix, the sector is
    sought again and written once, or the second seek fails and is
    reported.  The function prints nothing else than the line clearing and
    flushes once at the end. *)
Theorem fallback_visits_every_sector :
  forall (World : Type) (kernel : syscall -> World -> reply * World)
         (cfg : config) (fuel : nat) (devfd size off : Z) (dc : dev_command)
         (s : St World),
    _randomize cfg = false ->
    0 <= off -> 0 <= size -> (off + size) * SECTOR_SIZE <= 2 ^ 63 ->
    result (sector_loop kernel cfg (S (Z.to_nat size)) fuel devfd (off + size)
                        off dc s) = Done Continue ->
    exists vs,
      List.length vs = Z.to_nat size /\
      Forall (visit_ok dc) vs /\
      trace (check_one_by_one kernel cfg fuel devfd size off dc s)
      = Printf fmt_clear_line [] :: visits devfd off vs ++ [Fflush].
Proof.
  intros World kernel cfg fuel devfd size off dc s Hz Hoff Hsize Hb H.
  destruct (sector_loop_visits kernel cfg Hz fuel devfd (off + size) dc Hb
              _ off s ltac:(lia) H) as (vs & Hl & Hf & Et).
  exists vs. split; [rewrite Hl; f_equal; lia|]. split; [exact Hf|].
  unfold check_one_by_one, clear_line, printf. rewrite bind_emit.
  cbn [trace fst]. f_equal.
  unfold SECTOR_SIZE in Hb.
  rewrite (u64_small (off + size)) by lia.
  replace (off + size - off) with size by lia.
  rewrite bind_trace, H, Et. reflexivity.
Qed.

(** A check of the chunk of 8 sectors at 0, of which sector 3 is bad. *)
Lemma fallback_visits_every_sector_witness :
  let s := init_St (Sim.device 20 [3] [] []) in
  _randomize cfg8 = false /\ 0 <= 0 /\ 0 <= 8 /\
  (0 + 8) * SECTOR_SIZE <= 2 ^ 63 /\
  result (sector_loop Sim.kernel cfg8 (S (Z.to_nat 8)) 5 3 (0 + 8) 0 DEV_CHECK s)
    = Done Continue /\
  exists vs,
    List.length vs = Z.to_nat 8 /\
    Forall (visit_ok DEV_CHECK) vs /\
    trace (check_one_by_one Sim.kernel cfg8 5 3 8 0 DEV_CHECK s)
    = Printf fmt_clear_line [] :: visits 3 0 vs ++ [Fflush].
Proof.
  intros s.
  assert (H1 : _randomize cfg8 = false) by reflexivity.
  assert (H2 : 0 <= 0) by lia.
  assert (H3 : 0 <= 8) by lia.
  assert (H4 : (0 + 8) * SECTOR_SIZE <= 2 ^ 63) by (unfold SECTOR_SIZE; lia).
  assert (H5 : result (sector_loop Sim.kernel cfg8 (S (Z.to_nat 8)) 5 3 (0 + 8)
                                   0 DEV_CHECK s) = Done Continue)
    by (vm_compute; reflexivity).
  split; [exact H1|]. split; [exact H2|]. split; [exact H3|].
  split; [exact H4|]. split; [exact H5|].
  exact (fallback_visits_every_sector Sim.dev Sim.kernel cfg8 5%nat 3 8 0
           DEV_CHECK s H1 H2 H3 H4 H5).
Defined.

(** The chunk size 4096 is accepted. *)
Lemma blocksize_is_accepted_witness :
  - 2 ^ 63 <= 4096 < 2 ^ 63 /\
  (0 < 4096 < 2 ^ 32 ->
   set_option (OptB 4096) default_config =
   Some (mk_config (_debug default_config) (_randomize default_config)
                   (open_flags default_config) 4096)) /\
  (4096 <= 0 \/ 2 ^ 32 <= 4096 ->
   set_option (OptB 4096) default_config = None).
Proof.
  assert (H : - 2 ^ 63 <= 4096 < 2 ^ 63) by lia.
  split; [exact H|].
  exact (blocksize_is_accepted 4096 default_config H).
Defined.

(** The default chunk of 8192 sectors is 4 MiB. *)
Lemma buffer_is_a_chunk_below_2GiB_witness :
  0 < block_sectors default_config < 2 ^ 32 /\
  exists size r rest,
    trace (rw_sectors Sim.kernel default_config 21 "/dev/sdb" 0 20 DEV_CHECK
                      (init_St (Sim.device 20 [] [] []))) =
      Sys (SysMemalign 8192 size) r :: rest /\
    (size = block_sectors default_config * SECTOR_SIZE <->
     block_sectors default_config < 2 ^ 22).
Proof.
  assert (H : 0 < block_sectors default_config < 2 ^ 32) by (cbn; lia).
  split; [exact H|].
  exact (buffer_is_a_chunk_below_2GiB Sim.dev Sim.kernel default_config 21%nat
           "/dev/sdb" 0 20 DEV_CHECK (init_St (Sim.device 20 [] [] [])) H).
Defined.

(* ================================================================== *)
(** * The chunk loop, chunk by chunk *)
(* ================================================================== *)

Lemma disk_calls_app (a b : list event) :
  disk_calls (a ++ b) = disk_calls a ++ disk_calls b.
Proof. apply flat_map_app. Qed.

Lemma disk_calls_no_io (t : list event) :
  Forall no_io t -> disk_calls t = [].
Proof.
  induction 1 as [|e t He _ IH]; [reflexivity|].
  cbn [disk_calls flat_map]. fold (disk_calls t). rewrite IH.
  destruct He as (H1 & H2 & H3).
  destruct e as [c r| | |]; try reflexivity. destruct c; try reflexivity; discriminate.
Qed.

Section ChunkCalls.

Context {World : Type} (kernel : syscall -> World -> reply * World).
Variable cfg : config.

Lemma no_io_getrandom (e : event) : is_getrandom e = true -> no_io e.
Proof.
  destruct e as [c r| | |]; try discriminate. destruct c; try discriminate.
  now repeat split.
Qed.

Lemma no_io_init_sectors n fuel (s : St World) :
  Forall no_io (trace (init_sectors kernel cfg n fuel s)).
Proof.
  revert s. change (traces (Forall no_io) (init_sectors kernel cfg n fuel)).
  assert (Hnil : Forall no_io []) by constructor.
  assert (Happ : forall a b : list event,
            Forall no_io a -> Forall no_io b -> Forall no_io (a ++ b))
    by (intros; apply Forall_app; now split).
  induction n as [|n IH]; simpl; repeat traces_step; auto.
  apply (Forall_traces _ (fun e => is_getrandom e = true));
    [apply no_io_getrandom | apply getrandom_only_init_sector].
Qed.

Lemma no_io_log_dbg fmt args (s : St World) :
  Forall no_io (trace (log_dbg cfg fmt args s)).
Proof.
  unfold log_dbg, when. destruct (_debug cfg); cbn; repeat constructor.
Qed.

(** A round of the chunk loop that asks for the next one has sought once;
    when formatting it has then written the chunk once, whatever the
    write returned; otherwise it has read the chunk once, and when that
    read was complete it has read nothing more. *)
Lemma chunk_disk_calls fuel devfd dev off size dc (s : St World) :
  0 <= off * SECTOR_SIZE < 2 ^ 63 -> 0 <= SECTOR_SIZE * size < 2 ^ 63 ->
  result (chunk kernel cfg fuel devfd dev off size dc s) = Done true ->
  is_format dc = true \/
  reads_complete (trace (chunk kernel cfg fuel devfd dev off size dc s)) ->
  disk_calls (trace (chunk kernel cfg fuel devfd dev off size dc s))
  = chunk_calls dc devfd (off, size).
Proof.
  intros Ho Hs. unfold chunk, chunk_calls. cbn [fst snd].
  rewrite (s64_u64_small _ Ho), (s64_u64_small _ Hs), (u64_small (SECTOR_SIZE * size)) by lia.
  step_call. destruct (ret r <? 0) eqn:E1.
  { unfold printf. rewrite bind_emit. cbn [result snd]. step_call.
    rewrite bind_emit. discriminate. }
  set (s1 := mk_St w (start_time s) (now_time s) (end_time s)).
  intros H Hc. cbn [disk_calls flat_map disk_call app]. f_equal.
  fold (disk_calls (trace (bind
     (if is_format dc
      then bind (log_dbg cfg fmt_wipe [PU64 off; PU64 (u64 (off + size))])
             (fun _ => bind (init_sectors kernel cfg (Z.to_nat size) fuel)
                (fun _ => bind (call kernel (SysWrite devfd (SECTOR_SIZE * size)))
                   (fun r0 => when (negb (ret r0 =? SECTOR_SIZE * size))
                                (printf fmt_write_error [PU64 off]))))
      else bind (call kernel (SysRead devfd (SECTOR_SIZE * size)))
             (fun r0 => when (negb (ret r0 =? SECTOR_SIZE * size))
                          (check_one_by_one kernel cfg fuel devfd size off dc)))
     (fun _ => bind (print_progress kernel (u64 (dev * SECTOR_SIZE))
                       (u64 (u64 (off + size) * SECTOR_SIZE)) false)
                 (fun _ => pure true)) s1))).
  destruct (bind_result _ _ _ _ H) as (t1 & s2 & [] & E & _).
  rewrite (bind_done _ _ _ _ _ _ E) in *. cbn [trace fst] in *.
  rewrite bind_trace, !disk_calls_app.
  rewrite (disk_calls_no_io (trace (print_progress _ _ _ _ _)))
    by apply no_io_print_progress.
  rewrite print_progress_total. cbn [trace pure fst app]. rewrite app_nil_r.
  destruct (is_format dc) eqn:Ef.
  - assert (Et : t1 = trace (bind (log_dbg cfg fmt_wipe [PU64 off; PU64 (u64 (off + size))])
             (fun _ => bind (init_sectors kernel cfg (Z.to_nat size) fuel)
                (fun _ => bind (call kernel (SysWrite devfd (SECTOR_SIZE * size)))
                   (fun r0 => when (negb (ret r0 =? SECTOR_SIZE * size))
                                (printf fmt_write_error [PU64 off])))) s1))
      by now rewrite E.
    assert (Er : result (bind (log_dbg cfg fmt_wipe [PU64 off; PU64 (u64 (off + size))])
             (fun _ => bind (init_sectors kernel cfg (Z.to_nat size) fuel)
                (fun _ => bind (call kernel (SysWrite devfd (SECTOR_SIZE * size)))
                   (fun r0 => when (negb (ret r0 =? SECTOR_SIZE * size))
                                (printf fmt_write_error [PU64 off])))) s1) = Done tt)
      by now rewrite E.
    clear E. subst t1.
    rewrite bind_trace, disk_calls_app,
      (disk_calls_no_io _ (no_io_log_dbg _ _ _)).
    rewrite bind_outcome in Er.
    destruct (result (log_dbg cfg fmt_wipe [PU64 off; PU64 (u64 (off + size))] s1))
      as [[]| |]; try discriminate.
    rewrite bind_trace, disk_calls_app,
      (disk_calls_no_io _ (no_io_init_sectors _ _ _)).
    rewrite bind_outcome in Er.
    destruct (result (init_sectors kernel cfg (Z.to_nat size) fuel _))
      as [[]| |]; try discriminate.
    cbn [app]. step_call.
    destruct (negb (ret r0 =? SECTOR_SIZE * size)); reflexivity.
  - destruct Hc as [Hc|Hc]; [discriminate|].
    revert E Hc. step_call. intros E Hc.
    injection E as Et _ _. subst t1.
    assert (Hr : ret r0 = SECTOR_SIZE * size).
    { apply (Hc devfd (SECTOR_SIZE * size) r0). cbn. auto. }
    rewrite Hr, Z.eqb_refl. reflexivity.
Qed.

End ChunkCalls.

Lemma reads_complete_app (a b : list event) :
  reads_complete (a ++ b) -> reads_complete a /\ reads_complete b.
Proof.
  intros H. split; intros fd count r Hin; apply (H fd count r);
    apply in_or_app; auto.
Qed.

Lemma reads_complete_cons (e : event) (t : list event) :
  reads_complete (e :: t) -> reads_complete t.
Proof. intros H fd count r Hin. apply (H fd count r). now right. Qed.

Section PassCalls.

Context {World : Type} (kernel : syscall -> World -> reply * World).
Variable cfg : config.
Hypothesis cfg_sane : sane cfg.

Lemma run_chunks_disk_calls fuel devfd dev dc (l : list (Z * Z)) (stop : Z) :
  Forall (fun p => 0 <= fst p * SECTOR_SIZE < 2 ^ 63 /\
                   0 <= SECTOR_SIZE * snd p < 2 ^ 63) l ->
  forall (s : St World) (stop' : Z),
    result (run_chunks kernel cfg fuel devfd dev dc l stop s) = Done (Some stop') ->
    is_format dc = true \/
    reads_complete (trace (run_chunks kernel cfg fuel devfd dev dc l stop s)) ->
    disk_calls (trace (run_chunks kernel cfg fuel devfd dev dc l stop s))
    = flat_map (chunk_calls dc devfd) l.
Proof.
  induction 1 as [|[o size] l [Ho Hs] _ IH]; intros s stop'; [reflexivity|].
  cbn [run_chunks flat_map fst snd] in *.
  rewrite bind_outcome, bind_trace, disk_calls_app.
  destruct (result (chunk kernel cfg fuel devfd dev o size dc s))
    as [[|]| |] eqn:Ec; try discriminate.
  intros H Hc.
  assert (Hc' : (is_format dc = true \/
                 reads_complete (trace (chunk kernel cfg fuel devfd dev o size dc s)))
                /\ (is_format dc = true \/
                    reads_complete
                      (trace (run_chunks kernel cfg fuel devfd dev dc l stop
                                (final (chunk kernel cfg fuel devfd dev o size dc s)))))).
  { destruct Hc as [Hc|Hc]; [now split; left|].
    apply reads_complete_app in Hc. destruct Hc. split; now right. }
  destruct Hc' as [H1 H2].
  rewrite (chunk_disk_calls kernel cfg fuel devfd dev o size dc s Ho Hs Ec H1).
  now rewrite (IH _ _ H H2).
Qed.

Lemma chunk_list_in_range (dev : Z) (n : nat) :
  0 <= dev < 2 ^ 54 ->
  forall off, 0 <= off ->
    Forall (fun p => 0 <= fst p * SECTOR_SIZE < 2 ^ 63 /\
                     0 <= SECTOR_SIZE * snd p < 2 ^ 63)
           (chunk_list n (block_sectors cfg) dev off).
Proof.
  destruct cfg_sane as [_ Hb]. intros Hd.
  induction n as [|n IH]; intros off Hoff; cbn [chunk_list]; [constructor|].
  destruct (off <? dev) eqn:E; [|constructor].
  apply Z.ltb_lt in E. constructor.
  - cbn [fst snd]. unfold SECTOR_SIZE. lia.
  - apply IH. lia.
Qed.

(** A pass that ends with the status 0 has been through the whole chunk
    loop; what it has sought, read and written is then one seek and one
    transfer for each chunk of the partition, in order, when it is a
    format or when every read of it was complete. *)
Lemma rw_sectors_disk_calls fuel device dev dc (s : St World) :
  0 <= dev < 2 ^ 54 -> (Z.to_nat dev < fuel)%nat ->
  result (rw_sectors kernel cfg fuel device 0 dev dc s) = Done EXIT_SUCCESS ->
  is_format dc = true \/
  reads_complete (trace (rw_sectors kernel cfg fuel device 0 dev dc s)) ->
  exists ro,
    In (Sys (SysOpen device (rw_flags cfg dc)) ro)
       (trace (rw_sectors kernel cfg fuel device 0 dev dc s)) /\
    disk_calls (trace (rw_sectors kernel cfg fuel device 0 dev dc s))
    = flat_map (chunk_calls dc (ret ro))
               (chunk_list fuel (block_sectors cfg) dev 0).
Proof.
  intros Hd Hn. pose proof cfg_sane as [_ Hb]. unfold rw_sectors.
  match goal with
  | |- context [aligned_malloc kernel ?size] =>
      destruct (kernel (SysMemalign 8192 (u64 (s32 size))) (world s))
        as [rm w1] eqn:Km;
      assert (Em : aligned_malloc kernel size s =
                   ([Sys (SysMemalign 8192 (u64 (s32 size))) rm],
                    mk_St w1 (start_time s) (now_time s) (end_time s),
                    Done (if ret rm =? 0
                          then match data rm with Val p => p | _ => 0 end
                          else 0)))
        by (unfold aligned_malloc; now rewrite (bind_call kernel _ _ _ _ _ Km))
  end.
  rewrite (bind_done _ _ _ _ _ _ Em). cbn [trace result final fst snd app].
  match goal with |- context [if ?b then pure EXIT_FAILURE else _] =>
    destruct b end; [discriminate|].
  step_call. destruct (ret r =? -1) eqn:E.
  { step_emit. discriminate. }
  unfold scan. rewrite bind_outcome, bind_trace.
  rewrite (chunk_loop_run_chunks kernel cfg fuel (ret r) dev dc) by lia.
  set (s1 := mk_St w (start_time s) (now_time s) (end_time s)).
  set (parts := chunk_list fuel (block_sectors cfg) dev 0).
  destruct (result (run_chunks kernel cfg fuel (ret r) dev dc parts dev s1))
    as [[stop|]| |] eqn:Er; try discriminate.
  intros _ Hc. exists r. split; [right; left; reflexivity|].
  cbn [disk_calls flat_map disk_call app].
  fold (disk_calls (trace (run_chunks kernel cfg fuel (ret r) dev dc parts dev s1)
                    ++ trace (finish kernel (ret r) dev stop
                                (final (run_chunks kernel cfg fuel (ret r) dev dc
                                          parts dev s1))))).
  rewrite disk_calls_app.
  assert (Hf : disk_calls
                 (trace (finish kernel (ret r) dev stop
                           (final (run_chunks kernel cfg fuel (ret r) dev dc
                                     parts dev s1)))) = []).
  { destruct (finish_run kernel (ret r) dev stop
                (final (run_chunks kernel cfg fuel (ret r) dev dc parts dev s1)))
      as (rf & rc & w' & Ef).
    rewrite Ef. cbn [trace fst]. rewrite !disk_calls_app.
    rewrite (disk_calls_no_io _ (no_io_print_progress _ _ _ _ _)).
    destruct (ret rf <? 0); reflexivity. }
  rewrite Hf, app_nil_r.
  apply (run_chunks_disk_calls fuel (ret r) dev dc parts dev
           (chunk_list_in_range dev fuel Hd 0 ltac:(lia)) s1 stop Er).
  destruct Hc as [Hc|Hc]; [now left|right].
  do 2 apply reads_complete_cons in Hc.
  now apply reads_complete_app in Hc.
Qed.

End PassCalls.

(** X6.  A format that ends with the status 0 has sought to each chunk of
    the partition of the device and written the whole chunk, once each and
    in ascending order, and has sought, read and written nothing else:
    whatever the writes have returned, none is repeated. *)
Theorem format_writes_each_chunk_once :
  forall (World : Type) (kernel : syscall -> World -> reply * World)
         (cfg : config) (fuel : nat) (device : string) (dev : Z)
         (s : St World),
    sane cfg -> 0 <= dev < 2 ^ 54 -> (Z.to_nat dev < fuel)%nat ->
    result (rw_sectors kernel cfg fuel device 0 dev DEV_FORMAT s)
      = Done EXIT_SUCCESS ->
    exists ro,
      In (Sys (SysOpen device (rw_flags cfg DEV_FORMAT)) ro)
         (trace (rw_sectors kernel cfg fuel device 0 dev DEV_FORMAT s)) /\
      disk_calls (trace (rw_sectors kernel cfg fuel device 0 dev DEV_FORMAT s))
      = flat_map (fun p => [SysLseek (ret ro) (fst p * SECTOR_SIZE);
                            SysWrite (ret ro) (SECTOR_SIZE * snd p)])
                 (chunk_list fuel (block_sectors cfg) dev 0).
Proof.
  intros World kernel cfg fuel device dev s Hc Hd Hn H.
  apply (rw_sectors_disk_calls kernel cfg Hc fuel device dev DEV_FORMAT s Hd Hn H).
  now left.
Qed.

(** X14.  A check or a fix that ends with the status 0 and in which every
    read has returned what it asked for has sought to each chunk of the
    partition and read the whole chunk, once each and in ascending order,
    and has sought, read and written nothing else: no sector is read one
    by one. *)
Theorem clean_pass_reads_each_chunk_once :
  forall (World : Type) (kernel : syscall -> World -> reply * World)
         (cfg : config) (fuel : nat) (device : string) (dev : Z)
         (dc : dev_command) (s : St World),
    sane cfg -> 0 <= dev < 2 ^ 54 -> (Z.to_nat dev < fuel)%nat ->
    is_format dc = false ->
    result (rw_sectors kernel cfg fuel device 0 dev dc s) = Done EXIT_SUCCESS ->
    reads_complete (trace (rw_sectors kernel cfg fuel device 0 dev dc s)) ->
    exists ro,
      In (Sys (SysOpen device (rw_flags cfg dc)) ro)
         (trace (rw_sectors kernel cfg fuel device 0 dev dc s)) /\
      disk_calls (trace (rw_sectors kernel cfg fuel device 0 dev dc s))
      = flat_map (fun p => [SysLseek (ret ro) (fst p * SECTOR_SIZE);
                            SysRead (ret ro) (SECTOR_SIZE * snd p)])
                 (chunk_list fuel (block_sectors cfg) dev 0).
Proof.
  intros World kernel cfg fuel device dev dc s Hc Hd Hn Hf H Hr.
  destruct (rw_sectors_disk_calls kernel cfg Hc fuel device dev dc s Hd Hn H
              (or_intror Hr)) as (ro & Hin & E).
  exists ro. split; [exact Hin|]. rewrite E. unfold chunk_calls.
  now rewrite Hf.
Qed.

(** A format of a healthy device of 20 sectors in chunks of 8. *)
Lemma format_writes_each_chunk_once_witness :
  let s := init_St (Sim.device 20 [] [] []) in
  sane cfg8 /\ 0 <= 20 < 2 ^ 54 /\ (Z.to_nat 20 < 21)%nat /\
  result (rw_sectors Sim.kernel cfg8 21 "/dev/sdb" 0 20 DEV_FORMAT s)
    = Done EXIT_SUCCESS /\
  exists ro,
    In (Sys (SysOpen "/dev/sdb" (rw_flags cfg8 DEV_FORMAT)) ro)
       (trace (rw_sectors Sim.kernel cfg8 21 "/dev/sdb" 0 20 DEV_FORMAT s)) /\
    disk_calls (trace (rw_sectors Sim.kernel cfg8 21 "/dev/sdb" 0 20 DEV_FORMAT s))
    = flat_map (fun p => [SysLseek (ret ro) (fst p * SECTOR_SIZE);
                          SysWrite (ret ro) (SECTOR_SIZE * snd p)])
               (chunk_list 21 (block_sectors cfg8) 20 0).
Proof.
  intros s.
  assert (H1 : sane cfg8) by (unfold sane; cbn; lia).
  assert (H2 : 0 <= 20 < 2 ^ 54) by lia.
  assert (H3 : (Z.to_nat 20 < 21)%nat) by lia.
  assert (H4 : result (rw_sectors Sim.kernel cfg8 21 "/dev/sdb" 0 20 DEV_FORMAT s)
               = Done EXIT_SUCCESS) by (vm_compute; reflexivity).
  split; [exact H1|]. split; [exact H2|]. split; [exact H3|].
  split; [exact H4|].
  exact (format_writes_each_chunk_once Sim.dev Sim.kernel cfg8 21%nat
           "/dev/sdb" 20 s H1 H2 H3 H4).
Defined.

(** A fix of a healthy device of 20 sectors in chunks of 8. *)
Lemma clean_pass_reads_each_chunk_once_witness :
  let s := init_St (Sim.device 20 [] [] []) in
  sane cfg8 /\ 0 <= 20 < 2 ^ 54 /\ (Z.to_nat 20 < 21)%nat /\
  is_format DEV_FIX = false /\
  result (rw_sectors Sim.kernel cfg8 21 "/dev/sdb" 0 20 DEV_FIX s)
    = Done EXIT_SUCCESS /\
  reads_complete (trace (rw_sectors Sim.kernel cfg8 21 "/dev/sdb" 0 20 DEV_FIX s)) /\
  exists ro,
    In (Sys (SysOpen "/dev/sdb" (rw_flags cfg8 DEV_FIX)) ro)
       (trace (rw_sectors Sim.kernel cfg8 21 "/dev/sdb" 0 20 DEV_FIX s)) /\
    disk_calls (trace (rw_sectors Sim.kernel cfg8 21 "/dev/sdb" 0 20 DEV_FIX s))
    = flat_map (fun p => [SysLseek (ret ro) (fst p * SECTOR_SIZE);
                          SysRead (ret ro) (SECTOR_SIZE * snd p)])
               (chunk_list 21 (block_sectors cfg8) 20 0).
Proof.
  intros s.
  assert (H1 : sane cfg8) by (unfold sane; cbn; lia).
  assert (H2 : 0 <= 20 < 2 ^ 54) by lia.
  assert (H3 : (Z.to_nat 20 < 21)%nat) by lia.
  assert (H4 : is_format DEV_FIX = false) by reflexivity.
  assert (H5 : result (rw_sectors Sim.kernel cfg8 21 "/dev/sdb" 0 20 DEV_FIX s)
               = Done EXIT_SUCCESS) by (vm_compute; reflexivity).
  assert (H6 : reads_complete
                 (trace (rw_sectors Sim.kernel cfg8 21 "/dev/sdb" 0 20 DEV_FIX s)))
    by (apply reads_completeb_sound; vm_compute; reflexivity).
  split; [exact H1|]. split; [exact H2|]. split; [exact H3|].
  split; [exact H4|]. split; [exact H5|]. split; [exact H6|].
  exact (clean_pass_reads_each_chunk_once Sim.dev Sim.kernel cfg8 21%nat
           "/dev/sdb" 20 DEV_FIX s H1 H2 H3 H4 H5 H6).
Defined.

(* ================================================================== *)
(** * The buffer *)
(* ================================================================== *)

Lemma frees_app (a b : list event) : frees (a ++ b) = (frees a + frees b)%nat.
Proof. unfold frees. now rewrite filter_app, length_app. Qed.

Lemma kept_frees (t : list event) :
  Forall (fun e => is_free e = false) t -> frees t = 0%nat.
Proof.
  induction 1 as [|e t He _ IH]; [reflexivity|].
  unfold frees in *. cbn [filter]. now rewrite He.
Qed.

Section Buffer.

Context {World : Type} (kernel : syscall -> World -> reply * World).
Variable cfg : config.

Let kept := Forall (fun e => is_free e = false).

Lemma kept_nil : kept [].
Proof. constructor. Qed.

Lemma kept_app (a b : list event) : kept a -> kept b -> kept (a ++ b).
Proof. intros. apply Forall_app. now split. Qed.

Lemma kept_inner (e : event) : inner e = true -> kept [e].
Proof.
  intros H. constructor; [|constructor].
  destruct e as [c r| | |]; try reflexivity. discriminate.
Qed.

Lemma kept_check_sector fuel devfd sector dc :
  traces kept (check_sector kernel cfg fuel devfd sector dc).
Proof.
  pose proof kept_nil. pose proof kept_app.
  unfold check_sector.
  repeat first
    [ apply traces_init_sector; [assumption|assumption|apply kept_inner]
    | traces_step ];
    now repeat constructor.
Qed.

(** A round of the chunk loop releases the buffer when its seek fails,
    and only then. *)
Lemma chunk_frees fuel devfd dev off size dc (s : St World) :
  (result (chunk kernel cfg fuel devfd dev off size dc s) = Done false /\
   frees (trace (chunk kernel cfg fuel devfd dev off size dc s)) = 1%nat)
  \/
  (result (chunk kernel cfg fuel devfd dev off size dc s) <> Done false /\
   kept (trace (chunk kernel cfg fuel devfd dev off size dc s))).
Proof.
  pose proof kept_nil as Hn. pose proof kept_app as Ha.
  unfold chunk. step_call.
  destruct (ret r <? 0).
  - left. unfold printf. step_emit. step_call. step_emit. cbn. auto.
  - right. split.
    + intros H. apply bind_result in H. destruct H as (t1 & s1 & a & _ & H).
      apply bind_result in H. destruct H as (t2 & s2 & a2 & _ & H).
      discriminate.
    + constructor; [reflexivity|].
      match goal with
      | |- Forall _ (trace (?m ?s0)) =>
          assert (Hm : traces kept m); [|apply Hm]
      end.
      repeat first
        [ apply traces_log_dbg; [assumption|apply kept_inner]
        | apply traces_init_sectors; [assumption|assumption|apply kept_inner]
        | apply traces_print_progress; [assumption|assumption|apply kept_inner]
        | apply traces_check_one_by_one;
          [assumption|assumption|apply kept_inner
          |intros; apply kept_check_sector]
        | traces_step ];
        now repeat constructor.
Qed.

Lemma chunk_loop_frees n fuel devfd dev dc :
  forall off (s : St World),
    frees (trace (chunk_loop kernel cfg n fuel devfd dev off dc s)) =
      match result (chunk_loop kernel cfg n fuel devfd dev off dc s) with
      | Done None => 1%nat
      | _ => 0%nat
      end.
Proof.
  induction n as [|n IH]; intros off s; simpl; [reflexivity|].
  destruct (off <? dev); [|reflexivity].
  rewrite bind_trace, bind_outcome, frees_app.
  destruct (chunk_frees fuel devfd dev off (chunk_size cfg dev off) dc s)
    as [(Hr & Hf)|(Hr & Hq)].
  - rewrite Hr, Hf. reflexivity.
  - apply kept_frees in Hq. rewrite Hq.
    destruct (result (chunk kernel cfg fuel devfd dev off
                        (chunk_size cfg dev off) dc s)) as [[|]| |];
      cbn [app Nat.add]; [apply IH | congruence | reflexivity | reflexivity].
Qed.

Lemma finish_frees devfd dev off (s : St World) :
  frees (trace (finish kernel devfd dev off s)) = 1%nat.
Proof.
  destruct (finish_run kernel devfd dev off s) as (rf & rc & w & E).
  rewrite E. cbn [trace fst]. rewrite !frees_app.
  rewrite (kept_frees (trace (print_progress _ _ _ _ _))).
  - destruct (ret rf <? 0); reflexivity.
  - apply traces_print_progress; [apply kept_nil|apply kept_app|apply kept_inner].
Qed.

Lemma scan_frees n fuel devfd dev off dc (s : St World) (r : Z) :
  result (scan kernel cfg n fuel devfd dev off dc s) = Done r ->
  frees (trace (scan kernel cfg n fuel devfd dev off dc s)) = 1%nat.
Proof.
  unfold scan. rewrite bind_trace, bind_outcome, frees_app, chunk_loop_frees.
  destruct (result (chunk_loop kernel cfg n fuel devfd dev off dc s))
    as [[o|]| |]; try discriminate; intros _.
  - now rewrite finish_frees.
  - reflexivity.
Qed.

End Buffer.

(** X19.  Whenever [rw_sectors] returns, it has released the buffer
    exactly once if [posix_memalign] has given one, and not at all if it
    has not: on a failed open, on a failed seek of the chunk loop and at
    the end of the pass alike. *)
Theorem buffer_is_released_once :
  forall (World : Type) (kernel : syscall -> World -> reply * World)
         (cfg : config) (fuel : nat) (device : string) (off dev : Z)
         (dc : dev_command) (s : St World) (r : Z),
    result (rw_sectors kernel cfg fuel device off dev dc s) = Done r ->
    exists size rm rest,
      trace (rw_sectors kernel cfg fuel device off dev dc s)
      = Sys (SysMemalign 8192 size) rm :: rest /\
      frees (trace (rw_sectors kernel cfg fuel device off dev dc s))
      = (if allocated rm =? 0 then 0%nat else 1%nat).
Proof.
  intros World kernel cfg fuel device off dev dc s r. unfold rw_sectors.
  match goal with
  | |- context [aligned_malloc kernel ?size] =>
      destruct (kernel (SysMemalign 8192 (u64 (s32 size))) (world s))
        as [rm w1] eqn:Km;
      assert (Em : aligned_malloc kernel size s =
                   ([Sys (SysMemalign 8192 (u64 (s32 size))) rm],
                    mk_St w1 (start_time s) (now_time s) (end_time s),
                    Done (allocated rm)))
        by (unfold aligned_malloc; now rewrite (bind_call kernel _ _ _ _ _ Km))
  end.
  rewrite (bind_done _ _ _ _ _ _ Em). cbn [trace result final fst snd app].
  intros H. eexists _, rm, _. split; [reflexivity|].
  revert H. destruct (allocated rm =? 0); [reflexivity|].
  step_call. destruct (ret r0 =? -1) eqn:E.
  - step_emit. reflexivity.
  - intros H. apply scan_frees in H.
    change (frees (Sys (SysMemalign 8192
                     (u64 (s32 (u32 (block_sectors cfg * SECTOR_SIZE))))) rm
                   :: Sys (SysOpen device (rw_flags cfg dc)) r0
                   :: trace (scan kernel cfg fuel fuel (ret r0) dev off dc
                               (mk_St w (start_time s) (now_time s) (end_time s)))))
      with (frees (trace (scan kernel cfg fuel fuel (ret r0) dev off dc
                            (mk_St w (start_time s) (now_time s) (end_time s))))).
    exact H.
Qed.

(** A fix of a device with a bad sector and an offset that cannot be
    sought. *)
Lemma buffer_is_released_once_witness :
  let s := init_St (Sim.device 20 [3] [] [4096]) in
  result (rw_sectors Sim.kernel cfg8 21 "/dev/sdb" 0 20 DEV_FIX s) = Done 1 /\
  exists size rm rest,
    trace (rw_sectors Sim.kernel cfg8 21 "/dev/sdb" 0 20 DEV_FIX s)
    = Sys (SysMemalign 8192 size) rm :: rest /\
    frees (trace (rw_sectors Sim.kernel cfg8 21 "/dev/sdb" 0 20 DEV_FIX s))
    = (if allocated rm =? 0 then 0%nat else 1%nat).
Proof.
  intros s.
  assert (H : result (rw_sectors Sim.kernel cfg8 21 "/dev/sdb" 0 20 DEV_FIX s)
              = Done 1) by (vm_compute; reflexivity).
  split; [exact H|].
  exact (buffer_is_released_once Sim.dev Sim.kernel cfg8 21%nat "/dev/sdb" 0 20
           DEV_FIX s 1 H).
Defined.

(* ================================================================== *)
(** * The command line and the size of the device *)
(* ================================================================== *)

Lemma parse_options_settings (os : list option_arg) :
  forall c cfg : config,
    parse_options os c = Some cfg ->
    _debug cfg = _debug c || existsb is_OptD os /\
    _randomize cfg = _randomize c || existsb is_OptR os /\
    open_flags cfg = (if existsb is_OptN os then 0 else open_flags c) /\
    block_sectors cfg = last_blocksize os (block_sectors c) /\
    Forall accepted_option os.
Proof.
  induction os as [|o os IH]; intros c cfg H.
  - injection H as <-. cbn. rewrite !orb_false_r. repeat split. constructor.
  - cbn [parse_options] in H.
    destruct (set_option o c) as [c'|] eqn:E; [|discriminate].
    destruct (IH c' cfg H) as (Hd & Hr & Hn & Hb & Hf).
    rewrite Hd, Hr, Hn, Hb. clear Hd Hr Hn Hb H IH.
    destruct o as [t| | | |]; cbn [set_option] in E.
    + destruct (t <=? 0) eqn:E0; [discriminate|]. cbn [orb] in E.
      destruct (t =? u32 (u64 t)) eqn:E1; [|discriminate].
      injection E as <-. apply Z.leb_gt in E0. apply Z.eqb_eq in E1.
      rewrite <- E1. cbn. repeat split. constructor; [|exact Hf].
      cbn. split; [lia|]. rewrite E1. unfold u32.
      apply Z.mod_pos_bound. lia.
    + injection E as <-. cbn. repeat split.
      * now destruct (existsb is_OptN os).
      * now constructor.
    + injection E as <-. cbn. rewrite orb_true_r. repeat split. now constructor.
    + injection E as <-. cbn. rewrite orb_true_r. repeat split. now constructor.
    + discriminate.
Qed.

(** X16.  When the option loop of [main] accepts the command line, the
    settings are: debugging if and only if [--debug] is given, random
    fill if and only if [--randomize] is given, [O_DIRECT] unless
    [--no-direct] is given, and the chunk size of the last [--blocksize],
    8192 sectors without one; every chunk size given is between 1 and
    2^32 - 1, and [--help] is not among the options. *)
Theorem options_make_the_settings :
  forall (os : list option_arg) (cfg : config),
    parse_options os default_config = Some cfg ->
    _debug cfg = existsb is_OptD os /\
    _randomize cfg = existsb is_OptR os /\
    open_flags cfg = (if existsb is_OptN os then 0 else O_DIRECT) /\
    block_sectors cfg = last_blocksize os 8192 /\
    Forall accepted_option os.
Proof.
  intros os cfg H. exact (parse_options_settings os default_config cfg H).
Qed.

Lemma options_make_the_settings_witness :
  parse_options [OptB 16; OptR; OptN; OptB 8] default_config
    = Some (mk_config false true 0 8) /\
  _debug (mk_config false true 0 8) = existsb is_OptD [OptB 16; OptR; OptN; OptB 8] /\
  _randomize (mk_config false true 0 8)
    = existsb is_OptR [OptB 16; OptR; OptN; OptB 8] /\
  open_flags (mk_config false true 0 8)
    = (if existsb is_OptN [OptB 16; OptR; OptN; OptB 8] then 0 else O_DIRECT) /\
  block_sectors (mk_config false true 0 8)
    = last_blocksize [OptB 16; OptR; OptN; OptB 8] 8192 /\
  Forall accepted_option [OptB 16; OptR; OptN; OptB 8].
Proof.
  assert (H : parse_options [OptB 16; OptR; OptN; OptB 8] default_config
              = Some (mk_config false true 0 8)) by reflexivity.
  split; [exact H|].
  exact (options_make_the_settings [OptB 16; OptR; OptN; OptB 8]
           (mk_config false true 0 8) H).
Defined.

(** X15.  Without a size of the device, [cmd_dev] does nothing to it: when
    no size ioctl of the run has succeeded (the [stat] or the [open] has
    failed before it, or the ioctl itself), the command returns 1 after
    [device_size_sec]; it has not asked for the buffer and has neither
    opened the device for the pass nor sought, read or written. *)
Theorem no_pass_without_the_size :
  forall (World : Type) (kernel : syscall -> World -> reply * World)
         (cfg : config) (fuel : nat) (device : string) (dc : dev_command)
         (s : St World),
    (forall fd rep,
        In (Sys (SysIoctlSize fd) rep) (trace (cmd_dev kernel cfg fuel device dc s)) ->
        ret rep < 0) ->
    result (cmd_dev kernel cfg fuel device dc s) = Done EXIT_FAILURE /\
    Forall before_the_pass (trace (cmd_dev kernel cfg fuel device dc s)).
Proof.
  intros World kernel cfg fuel device dc s. unfold cmd_dev.
  assert (El : log_dbg cfg fmt_running [PStr device] s
               = ((if _debug cfg then [Printf fmt_running [PStr device]] else []),
                  s, Done tt))
    by (unfold log_dbg, when; now destruct (_debug cfg)).
  rewrite (bind_done _ _ _ _ _ _ El). cbn [trace result fst snd].
  assert (Hl : Forall before_the_pass
                 (if _debug cfg then [Printf fmt_running [PStr device]] else []))
    by (destruct (_debug cfg); now repeat constructor).
  destruct (device_size_sec_run kernel device s) as ([rs ws] & _ & H).
  cbn [fst snd] in H. destruct (ret rs <? 0) eqn:E1.
  { rewrite (bind_done _ _ _ _ _ _ H). cbn [trace result fst snd pure].
    intros _. split; [reflexivity|]. apply Forall_app. split; [exact Hl|].
    now repeat constructor. }
  destruct H as ([ro wo] & _ & H). cbn [fst snd] in H.
  destruct (ret ro =? -1) eqn:E2.
  { rewrite (bind_done _ _ _ _ _ _ H). cbn [trace result fst snd pure].
    intros _. split; [reflexivity|]. apply Forall_app. split; [exact Hl|].
    now repeat constructor. }
  destruct H as ([ri wi] & [rc wc] & _ & _ & H). cbn [fst snd] in H.
  rewrite (bind_done _ _ _ _ _ _ H). cbn [trace result fst snd].
  intros Hi.
  assert (Hneg : ret ri < 0).
  { apply (Hi (ret ro) ri). apply in_or_app. right. apply in_or_app. left.
    cbn. auto. }
  apply Z.ltb_lt in Hneg. rewrite Hneg. cbn [trace result fst snd pure].
  split; [reflexivity|]. apply Forall_app. split; [exact Hl|].
  rewrite app_nil_r. now repeat constructor.
Qed.

(** A device that [stat] does not find. *)
Lemma no_pass_without_the_size_witness :
  let kernel := fun (c : syscall) (d : Sim.dev) =>
                  match c with
                  | SysStat _ => (mk_reply (-1) 2 NoData, Sim.set_errno d 2)
                  | _ => Sim.kernel c d
                  end in
  let s := init_St (Sim.device 20 [] [] []) in
  (forall fd rep,
      In (Sys (SysIoctlSize fd) rep)
         (trace (cmd_dev kernel cfg8 21 "/dev/none" DEV_FORMAT s)) ->
      ret rep < 0) /\
  result (cmd_dev kernel cfg8 21 "/dev/none" DEV_FORMAT s) = Done EXIT_FAILURE /\
  Forall before_the_pass (trace (cmd_dev kernel cfg8 21 "/dev/none" DEV_FORMAT s)).
Proof.
  intros kernel s.
  assert (H : forall fd rep,
             In (Sys (SysIoctlSize fd) rep)
                (trace (cmd_dev kernel cfg8 21 "/dev/none" DEV_FORMAT s)) ->
             ret rep < 0)
    by (intros fd rep [E|[]]; discriminate E).
  split; [exact H|].
  exact (no_pass_without_the_size Sim.dev kernel cfg8 21%nat "/dev/none"
           DEV_FORMAT s H).
Defined.

(* ================================================================== *)
(** * Random fill after a failed read *)
(* ================================================================== *)

(** X18.  With [--randomize], a fix does not rewrite a bad sector when the
    call of [getrandom] leaves [errno] as the failed read has left it (a
    call that succeeds does not reset [errno]): after the seek and the
    read that fails with EIO or EILSEQ, the first call of [getrandom] is
    followed by the [assert] on [errno], which ends the process before
    the second seek and the write. *)
Theorem randomized_fix_stops_at_bad_sector :
  forall (World : Type) (kernel : syscall -> World -> reply * World)
         (cfg : config) (fuel : nat) (devfd sector : Z) (s : St World)
         (r1 rd rg : reply) (w1 w2 w3 : World),
    _randomize cfg = true ->
    kernel (SysLseek devfd (s64 (u64 (sector * SECTOR_SIZE)))) (world s)
      = (r1, w1) ->
    0 <= ret r1 ->
    kernel (SysRead devfd SECTOR_SIZE) w1 = (rd, w2) ->
    ret rd <> SECTOR_SIZE -> media_error (err rd) ->
    kernel (SysGetrandom SECTOR_SIZE) w2 = (rg, w3) ->
    err rg = err rd ->
    check_sector kernel cfg (S fuel) devfd sector DEV_FIX s =
    ([Sys (SysLseek devfd (s64 (u64 (sector * SECTOR_SIZE)))) r1;
      Sys (SysRead devfd SECTOR_SIZE) rd;
      Sys (SysGetrandom SECTOR_SIZE) rg],
     mk_St w3 (start_time s) (now_time s) (end_time s), Abort).
Proof.
  intros World kernel cfg fuel devfd sector s r1 rd rg w1 w2 w3
         Hz K1 H1 K2 H2 Hm K3 H3.
  unfold check_sector, init_sector. rewrite Hz.
  rewrite (bind_call kernel _ _ _ _ _ K1).
  apply Z.ltb_ge in H1. rewrite H1.
  cbn [start_time now_time end_time world].
  rewrite (bind_call kernel _ _ (mk_St w1 (start_time s) (now_time s) (end_time s))
             _ _ K2).
  apply Z.eqb_neq in H2. rewrite H2.
  assert (Hmb : negb (err rd =? EIO) && negb (err rd =? EILSEQ) = false).
  { destruct Hm as [-> | ->]; reflexivity. }
  rewrite Hmb. cbn [is_fix negb start_time now_time end_time world].
  assert (Eg : get_random kernel (S fuel) SECTOR_SIZE
                 (mk_St w2 (start_time s) (now_time s) (end_time s))
               = ([Sys (SysGetrandom SECTOR_SIZE) rg],
                  mk_St w3 (start_time s) (now_time s) (end_time s), Abort)).
  { cbn [get_random].
    rewrite (bind_call kernel _ _ (mk_St w2 (start_time s) (now_time s) (end_time s))
               _ _ K3).
    destruct (negb (u64 (s32 (ret rg)) <=? SECTOR_SIZE)); [reflexivity|].
    assert (He : negb ((err rg =? 0) || (err rg =? EINTR)) = true).
    { rewrite H3. destruct Hm as [-> | ->]; reflexivity. }
    rewrite He. reflexivity. }
  cbn [trace final result fst snd]. unfold bind. rewrite Eg. reflexivity.
Qed.

Lemma randomized_fix_stops_at_bad_sector_witness :
  let cfg := mk_config false true O_DIRECT 8 in
  let d := Sim.set_pos (Sim.device 20 [3] [] []) 0 in
  let d1 := Sim.set_pos d 1536 in
  let d2 := Sim.set_errno d1 EIO in
  let r1 := mk_reply 1536 0 NoData in
  let rd := mk_reply (-1) EIO NoData in
  let rg := mk_reply 512 EIO NoData in
  _randomize cfg = true /\
  Sim.kernel (SysLseek 3 (s64 (u64 (3 * SECTOR_SIZE)))) (world (init_St d))
    = (r1, d1) /\
  0 <= ret r1 /\
  Sim.kernel (SysRead 3 SECTOR_SIZE) d1 = (rd, d2) /\
  ret rd <> SECTOR_SIZE /\ media_error (err rd) /\
  Sim.kernel (SysGetrandom SECTOR_SIZE) d2 = (rg, d2) /\
  err rg = err rd /\
  check_sector Sim.kernel cfg 5 3 3 DEV_FIX (init_St d) =
  ([Sys (SysLseek 3 (s64 (u64 (3 * SECTOR_SIZE)))) r1;
    Sys (SysRead 3 SECTOR_SIZE) rd;
    Sys (SysGetrandom SECTOR_SIZE) rg],
   mk_St d2 (start_time (init_St d)) (now_time (init_St d))
         (end_time (init_St d)), Abort).
Proof.
  intros cfg d d1 d2 r1 rd rg.
  assert (H1 : _randomize cfg = true) by reflexivity.
  assert (H2 : Sim.kernel (SysLseek 3 (s64 (u64 (3 * SECTOR_SIZE))))
                          (world (init_St d)) = (r1, d1)) by reflexivity.
  assert (H3 : 0 <= ret r1) by (cbn; lia).
  assert (H4 : Sim.kernel (SysRead 3 SECTOR_SIZE) d1 = (rd, d2)) by reflexivity.
  assert (H5 : ret rd <> SECTOR_SIZE) by (cbn; unfold SECTOR_SIZE; lia).
  assert (H6 : media_error (err rd)) by (left; reflexivity).
  assert (H7 : Sim.kernel (SysGetrandom SECTOR_SIZE) d2 = (rg, d2)) by reflexivity.
  assert (H8 : err rg = err rd) by reflexivity.
  split; [exact H1|]. split; [exact H2|]. split; [exact H3|].
  split; [exact H4|]. split; [exact H5|]. split; [exact H6|].
  split; [exact H7|]. split; [exact H8|].
  exact (randomized_fix_stops_at_bad_sector Sim.dev Sim.kernel cfg 4%nat 3 3
           (init_St d) r1 rd rg d1 d2 d2 H1 H2 H3 H4 H5 H6 H7 H8).
Defined.

(* ================================================================== *)
(** * A dump of a device that cannot be opened *)
(* ================================================================== *)

(** X11.  When the device of a dump cannot be opened, the program fails
    with the status 1 without a word: [open] is its only system call, and
    nothing is printed, not even the line "No header detected". *)
Theorem dump_fails_silently_without_device :
  forall (World : Type) (kernel : syscall -> World -> reply * World)
         (big_endian : bool) (fuel : nat) (os : list option_arg)
         (cfg : config) (device : string) (rest : list string)
         (mem0 : list Z) (s : St World) (ro : reply) (w : World),
    parse_options os default_config = Some cfg ->
    kernel (SysOpen device O_RDONLY) (world s) = (ro, w) ->
    ret ro = -1 ->
    main kernel big_endian fuel os ("dump"%string :: device :: rest) mem0 s =
    ([Sys (SysOpen device O_RDONLY) ro],
     mk_St w (start_time s) (now_time s) (end_time s), Done EXIT_FAILURE).
Proof.
  intros World kernel big_endian fuel os cfg device rest mem0 s ro w Hc K H.
  unfold main. rewrite Hc. cbn [parse_command String.eqb Ascii.eqb Bool.eqb].
  change (parse_command "dump") with (Some CMD_DUMP). cbv iota.
  unfold cmd_dump, read_superblock.
  match goal with
  | |- bind (bind (call _ _) ?f) _ s = _ =>
      assert (E : bind (call kernel (SysOpen device O_RDONLY)) f s
                  = ([Sys (SysOpen device O_RDONLY) ro],
                     mk_St w (start_time s) (now_time s) (end_time s),
                     Done (EXIT_FAILURE, sb_of_mem big_endian mem0)))
        by (rewrite (bind_call kernel _ _ _ _ _ K); now rewrite H)
  end.
  rewrite (bind_done _ _ _ _ _ _ E). reflexivity.
Qed.

Lemma dump_fails_silently_without_device_witness :
  let kernel := fun (c : syscall) (d : Sim.dev) =>
                  match c with
                  | SysOpen _ _ => (mk_reply (-1) 13 NoData, Sim.set_errno d 13)
                  | _ => Sim.kernel c d
                  end in
  let s := init_St (Sim.device 20 [] [] []) in
  parse_options [OptD] default_config = Some (mk_config true false O_DIRECT 8192) /\
  kernel (SysOpen "/dev/sdb" O_RDONLY) (world s)
    = (mk_reply (-1) 13 NoData, Sim.set_errno (Sim.device 20 [] [] []) 13) /\
  ret (mk_reply (-1) 13 NoData) = -1 /\
  main kernel false 21 [OptD] ["dump"; "/dev/sdb"]%string [] s =
  ([Sys (SysOpen "/dev/sdb" O_RDONLY) (mk_reply (-1) 13 NoData)],
   mk_St (Sim.set_errno (Sim.device 20 [] [] []) 13)
         (start_time s) (now_time s) (end_time s), Done EXIT_FAILURE).
Proof.
  intros kernel s.
  assert (H1 : parse_options [OptD] default_config
               = Some (mk_config true false O_DIRECT 8192)) by reflexivity.
  assert (H2 : kernel (SysOpen "/dev/sdb" O_RDONLY) (world s)
               = (mk_reply (-1) 13 NoData,
                  Sim.set_errno (Sim.device 20 [] [] []) 13)) by reflexivity.
  assert (H3 : ret (mk_reply (-1) 13 NoData) = -1) by reflexivity.
  split; [exact H1|]. split; [exact H2|]. split; [exact H3|].
  exact (dump_fails_silently_without_device Sim.dev kernel false 21%nat [OptD]
           (mk_config true false O_DIRECT 8192) "/dev/sdb" [] [] s
           (mk_reply (-1) 13 NoData) (Sim.set_errno (Sim.device 20 [] [] []) 13)
           H1 H2 H3).
Defined.

(* ================================================================== *)
(** * Sector-aligned input and output *)
(* ================================================================== *)

Section Aligned.

Context {World : Type} (kernel : syscall -> World -> reply * World).
Variable cfg : config.
Variable dev : Z.
Hypothesis cfg_sane : sane cfg.
Hypothesis dev_range : 0 <= dev < 2 ^ 54.

Let aligned := Forall (aligned_io dev (block_sectors cfg)).

Lemma aligned_nil : aligned [].
Proof. constructor. Qed.

Lemma aligned_app (a b : list event) : aligned a -> aligned b -> aligned (a ++ b).
Proof. intros. apply Forall_app. now split. Qed.

Lemma aligned_reporting (e : event) : reporting e = true -> aligned [e].
Proof.
  intros H. constructor; [|constructor].
  destruct e as [c r| | |]; try exact I; try discriminate.
  destruct c; try discriminate. exact I.
Qed.

Lemma aligned_getrandom (e : event) :
  is_getrandom e = true -> aligned_io dev (block_sectors cfg) e.
Proof.
  destruct e as [c r| | |]; try discriminate. destruct c; try discriminate.
  intros _. exact I.
Qed.

Lemma aligned_init_sector fuel : traces aligned (init_sector kernel cfg fuel).
Proof.
  apply (Forall_traces _ (fun e => is_getrandom e = true));
    [apply aligned_getrandom | apply getrandom_only_init_sector].
Qed.

Lemma aligned_init_sectors n fuel :
  traces aligned (init_sectors kernel cfg n fuel).
Proof.
  pose proof aligned_nil. pose proof aligned_app.
  induction n as [|n IH]; simpl; repeat traces_step; auto.
  apply aligned_init_sector.
Qed.

Lemma aligned_print_progress d b f :
  traces aligned (print_progress kernel d b f).
Proof.
  intros s. eapply Forall_impl; [|apply reporting_print_progress].
  intros e H. apply aligned_reporting in H. now inversion H.
Qed.

Lemma aligned_seek (fd sector : Z) (r : reply) :
  0 <= sector < dev ->
  aligned [Sys (SysLseek fd (s64 (u64 (sector * SECTOR_SIZE)))) r].
Proof.
  intros H. rewrite s64_u64_small by (unfold SECTOR_SIZE; lia).
  constructor; [|constructor]. cbn [aligned_io]. split.
  - apply Z.mod_mul. unfold SECTOR_SIZE. lia.
  - unfold SECTOR_SIZE. lia.
Qed.

Lemma aligned_sector (fd : Z) (r : reply) :
  aligned [Sys (SysRead fd SECTOR_SIZE) r] /\
  aligned [Sys (SysWrite fd SECTOR_SIZE) r].
Proof.
  destruct cfg_sane as [_ Hb].
  split; (constructor; [|constructor]); cbn; (split; [reflexivity|]);
    unfold SECTOR_SIZE; lia.
Qed.

Lemma aligned_check_sector fuel devfd sector dc :
  0 <= sector < dev ->
  traces aligned (check_sector kernel cfg fuel devfd sector dc).
Proof.
  intros Hs. pose proof aligned_nil. pose proof aligned_app.
  unfold check_sector.
  repeat first
    [ apply aligned_init_sector
    | traces_step ];
    first [ now apply aligned_seek
          | apply aligned_sector
          | now repeat constructor ].
Qed.

Lemma aligned_sector_loop fuel devfd bound dc :
  bound <= dev ->
  forall (n : nat) (sector : Z),
    0 <= sector ->
    traces aligned (sector_loop kernel cfg n fuel devfd bound sector dc).
Proof.
  intros Hb. pose proof aligned_nil. pose proof aligned_app.
  induction n as [|n IH]; intros sector Hs; cbn [sector_loop];
    repeat traces_step.
  - match goal with E : (sector <? bound) = true |- _ => apply Z.ltb_lt in E end.
    apply aligned_check_sector. lia.
  - match goal with E : (sector <? bound) = true |- _ => apply Z.ltb_lt in E end.
    rewrite u64_small by lia. apply IH. lia.
Qed.

Lemma aligned_check_one_by_one fuel devfd size off dc :
  0 <= off -> 0 <= size -> off + size <= dev ->
  traces aligned (check_one_by_one kernel cfg fuel devfd size off dc).
Proof.
  intros Ho Hs Hd. pose proof aligned_nil. pose proof aligned_app.
  unfold check_one_by_one, clear_line. rewrite u64_small by lia.
  repeat traces_step; try now repeat constructor.
  now apply aligned_sector_loop.
Qed.

Lemma aligned_transfer (fd size : Z) (r : reply) :
  0 < size <= block_sectors cfg ->
  aligned [Sys (SysRead fd (u64 (SECTOR_SIZE * size))) r] /\
  aligned [Sys (SysWrite fd (u64 (SECTOR_SIZE * size))) r].
Proof.
  destruct cfg_sane as [_ Hb]. intros Hs.
  rewrite u64_small by (unfold SECTOR_SIZE; lia).
  split; (constructor; [|constructor]); cbn [aligned_io];
    (split; [rewrite Z.mul_comm; apply Z.mod_mul; unfold SECTOR_SIZE; lia|]);
    unfold SECTOR_SIZE; lia.
Qed.

Lemma aligned_chunk fuel devfd off size dc :
  0 <= off -> 0 < size <= block_sectors cfg -> off + size <= dev ->
  traces aligned (chunk kernel cfg fuel devfd dev off size dc).
Proof.
  intros Ho Hs Hd. pose proof aligned_nil. pose proof aligned_app.
  unfold chunk, log_dbg.
  repeat first
    [ apply aligned_init_sectors
    | apply aligned_print_progress
    | apply aligned_check_one_by_one; lia
    | traces_step ];
    first [ apply aligned_seek; lia
          | now apply aligned_transfer
          | now repeat constructor ].
Qed.

Lemma aligned_chunk_loop fuel devfd dc :
  forall (n : nat) (off : Z),
    0 <= off <= dev ->
    traces aligned (chunk_loop kernel cfg n fuel devfd dev off dc).
Proof.
  pose proof aligned_nil. pose proof aligned_app.
  destruct cfg_sane as [_ Hb].
  induction n as [|n IH]; intros off Ho; cbn [chunk_loop]; repeat traces_step.
  - match goal with E : (off <? dev) = true |- _ => apply Z.ltb_lt in E end.
    rewrite chunk_size_min by lia. apply aligned_chunk; lia.
  - match goal with E : (off <? dev) = true |- _ => apply Z.ltb_lt in E end.
    rewrite chunk_size_min by lia. rewrite u64_small by lia. apply IH. lia.
Qed.

Lemma aligned_rw_sectors fuel device dc :
  traces aligned (rw_sectors kernel cfg fuel device 0 dev dc).
Proof.
  pose proof aligned_nil. pose proof aligned_app.
  unfold rw_sectors, aligned_malloc, scan, finish.
  repeat first
    [ apply aligned_print_progress
    | apply aligned_chunk_loop; lia
    | traces_step ];
    now repeat constructor.
Qed.

End Aligned.

(** X17.  Every pass does sector-aligned input and output, as direct I/O
    requires, whatever the mode, the answers of the kernel and the point
    where the run ends: the buffer is aligned to 8192 bytes, every seek
    goes to the first byte of a sector inside the extent, and every read
    and every write transfers a whole number of sectors, at least one
    and at most one chunk. *)
Theorem pass_is_sector_aligned :
  forall (World : Type) (kernel : syscall -> World -> reply * World)
         (cfg : config) (fuel : nat) (device : string) (dev : Z)
         (dc : dev_command) (s : St World),
    sane cfg -> 0 <= dev < 2 ^ 54 ->
    Forall (aligned_io dev (block_sectors cfg))
           (trace (rw_sectors kernel cfg fuel device 0 dev dc s)).
Proof.
  intros World kernel cfg fuel device dev dc s Hc Hd.
  now apply aligned_rw_sectors.
Qed.

(** A fix of a device with a bad sector. *)
Lemma pass_is_sector_aligned_witness :
  sane cfg8 /\ 0 <= 20 < 2 ^ 54 /\
  Forall (aligned_io 20 (block_sectors cfg8))
         (trace (rw_sectors Sim.kernel cfg8 21 "/dev/sdb" 0 20 DEV_FIX
                            (init_St (Sim.device 20 [3] [] [])))).
Proof.
  assert (H1 : sane cfg8) by (unfold sane; cbn; lia).
  assert (H2 : 0 <= 20 < 2 ^ 54) by lia.
  split; [exact H1|]. split; [exact H2|].
  exact (pass_is_sector_aligned Sim.dev Sim.kernel cfg8 21%nat "/dev/sdb" 20
           DEV_FIX (init_St (Sim.device 20 [3] [] [])) H1 H2).
Defined.

(* ================================================================== *)
(** * The pass and its buffer *)
(* ================================================================== *)

(** The buffer of [rw_sectors] is not part of the model: [posix_memalign]
    is an event, and what [read], [write] and [memset] do to the memory
    is not tracked.  The program passes the one buffer to every read and
    write, so it is the sizes of the transfers that say whether they stay
    inside it. *)
Section WithinBuffer.

Context {World : Type} (kernel : syscall -> World -> reply * World).
Variable cfg : config.
Variable dev : Z.
Hypothesis cfg_sane : sane cfg.
Hypothesis dev_range : 0 <= dev < 2 ^ 55.

Let inside := Forall (within_buffer (block_sectors cfg * SECTOR_SIZE)).

Lemma inside_nil : inside [].
Proof. constructor. Qed.

Lemma inside_app (a b : list event) : inside a -> inside b -> inside (a ++ b).
Proof. intros. apply Forall_app. now split. Qed.

Lemma inside_getrandom (e : event) :
  is_getrandom e = true ->
  within_buffer (block_sectors cfg * SECTOR_SIZE) e.
Proof.
  destruct e as [c r| | |]; try discriminate. destruct c; try discriminate.
  intros _. exact I.
Qed.

Lemma inside_init_sector fuel : traces inside (init_sector kernel cfg fuel).
Proof.
  apply (Forall_traces _ (fun e => is_getrandom e = true));
    [apply inside_getrandom | apply getrandom_only_init_sector].
Qed.

Lemma inside_init_sectors n fuel :
  traces inside (init_sectors kernel cfg n fuel).
Proof.
  pose proof inside_nil. pose proof inside_app.
  induction n as [|n IH]; simpl; repeat traces_step; auto.
  apply inside_init_sector.
Qed.

Lemma inside_print_progress d b f :
  traces inside (print_progress kernel d b f).
Proof.
  intros s. eapply Forall_impl; [|apply reporting_print_progress].
  intros [c r| | |] H; try exact I. destruct c; try discriminate. exact I.
Qed.

(** One sector fits: a chunk is at least one sector. *)
Lemma inside_sector (fd : Z) (r : reply) :
  inside [Sys (SysRead fd SECTOR_SIZE) r] /\
  inside [Sys (SysWrite fd SECTOR_SIZE) r].
Proof.
  destruct cfg_sane as [_ Hb].
  split; (constructor; [|constructor]); cbn [within_buffer];
    unfold SECTOR_SIZE; lia.
Qed.

Lemma inside_check_sector fuel devfd sector dc :
  traces inside (check_sector kernel cfg fuel devfd sector dc).
Proof.
  pose proof inside_nil. pose proof inside_app.
  unfold check_sector.
  repeat first
    [ apply inside_init_sector
    | traces_step ];
    first [ apply inside_sector
          | now repeat constructor ].
Qed.

Lemma inside_sector_loop fuel devfd bound dc :
  forall (n : nat) (sector : Z),
    traces inside (sector_loop kernel cfg n fuel devfd bound sector dc).
Proof.
  pose proof inside_nil. pose proof inside_app.
  induction n as [|n IH]; intros sector; cbn [sector_loop];
    repeat traces_step.
  - apply inside_check_sector.
  - apply IH.
Qed.

Lemma inside_check_one_by_one fuel devfd size off dc :
  traces inside (check_one_by_one kernel cfg fuel devfd size off dc).
Proof.
  pose proof inside_nil. pose proof inside_app.
  unfold check_one_by_one, clear_line.
  repeat traces_step; try now repeat constructor.
  apply inside_sector_loop.
Qed.

(** A chunk fits: it is at most [block_sectors] sectors long. *)
Lemma inside_transfer (fd size : Z) (r : reply) :
  0 < size <= block_sectors cfg ->
  inside [Sys (SysRead fd (u64 (SECTOR_SIZE * size))) r] /\
  inside [Sys (SysWrite fd (u64 (SECTOR_SIZE * size))) r].
Proof.
  destruct cfg_sane as [_ Hb]. intros Hs.
  rewrite u64_small by (unfold SECTOR_SIZE; lia).
  split; (constructor; [|constructor]); cbn [within_buffer];
    unfold SECTOR_SIZE; lia.
Qed.

Lemma inside_chunk fuel devfd off size dc :
  0 < size <= block_sectors cfg ->
  traces inside (chunk kernel cfg fuel devfd dev off size dc).
Proof.
  intros Hs. pose proof inside_nil. pose proof inside_app.
  unfold chunk, log_dbg.
  repeat first
    [ apply inside_init_sectors
    | apply inside_print_progress
    | apply inside_check_one_by_one
    | traces_step ];
    first [ now apply inside_transfer
          | now repeat constructor ].
Qed.

Lemma inside_chunk_loop fuel devfd dc :
  forall (n : nat) (off : Z),
    0 <= off <= dev ->
    traces inside (chunk_loop kernel cfg n fuel devfd dev off dc).
Proof.
  pose proof inside_nil. pose proof inside_app.
  destruct cfg_sane as [_ Hb].
  induction n as [|n IH]; intros off Ho; cbn [chunk_loop]; repeat traces_step.
  - match goal with E : (off <? dev) = true |- _ => apply Z.ltb_lt in E end.
    rewrite chunk_size_min by lia. apply inside_chunk; lia.
  - match goal with E : (off <? dev) = true |- _ => apply Z.ltb_lt in E end.
    rewrite chunk_size_min by lia. rewrite u64_small by lia. apply IH. lia.
Qed.

Lemma inside_rw_sectors fuel device dc :
  traces inside (rw_sectors kernel cfg fuel device 0 dev dc).
Proof.
  pose proof inside_nil. pose proof inside_app.
  unfold rw_sectors, aligned_malloc, scan, finish.
  repeat first
    [ apply inside_print_progress
    | apply inside_chunk_loop; lia
    | traces_step ];
    now repeat constructor.
Qed.

(** Below 2^22 sectors the program asks for a buffer of one chunk. *)
Lemma buffer_request :
  block_sectors cfg < 2 ^ 22 ->
  u64 (s32 (u32 (block_sectors cfg * SECTOR_SIZE)))
  = block_sectors cfg * SECTOR_SIZE.
Proof.
  destruct cfg_sane as [_ Hb]. intros H. unfold u64, s32, u32, SECTOR_SIZE.
  rewrite Z.mod_mod by lia.
  rewrite (Z.mod_small (block_sectors cfg * 512) (2 ^ 32)) by lia.
  destruct (block_sectors cfg * 512 <? 2 ^ 31) eqn:E.
  - apply Z.mod_small. lia.
  - apply Z.ltb_ge in E. lia.
Qed.

End WithinBuffer.

(** X12.  With zero fill, a chunk size that [main] accepts and that is
    smaller than 2^22 sectors (2 GiB), and a size that [device_size_sec]
    can give, [rw_sectors] returns for every command and every kernel
    when it is given more rounds than the device has sectors: both loops
    advance in every round and nothing aborts.  The buffer it has asked
    for is one chunk, and every read and every write of the run is at most
    that long, so that no transfer leaves the buffer.  (For a larger chunk
    the request can be smaller than the chunk, as for 8388616 sectors,
    where it is 4096 bytes; the model does not track the buffer and does
    not show what such a run does to the memory.) *)
Theorem rw_sectors_terminates :
  forall (World : Type) (kernel : syscall -> World -> reply * World)
         (cfg : config) (fuel : nat) (device : string) (dev : Z)
         (dc : dev_command) (s : St World),
    _randomize cfg = false -> sane cfg -> block_sectors cfg < 2 ^ 22 ->
    0 <= dev < 2 ^ 55 -> (Z.to_nat dev < fuel)%nat ->
    exists rm rest a,
      trace (rw_sectors kernel cfg fuel device 0 dev dc s)
      = Sys (SysMemalign 8192 (block_sectors cfg * SECTOR_SIZE)) rm :: rest /\
      Forall (within_buffer (block_sectors cfg * SECTOR_SIZE)) rest /\
      result (rw_sectors kernel cfg fuel device 0 dev dc s) = Done a.
Proof.
  intros World kernel cfg fuel device dev dc s Hz Hs Hb Hd Hn.
  destruct (rw_sectors_returns kernel cfg Hz fuel device dev dc Hs Hd Hn s)
    as [a Ha].
  pose proof (inside_rw_sectors kernel cfg dev Hs Hd fuel device dc s) as Hi.
  revert Hi. unfold rw_sectors at 1 2, aligned_malloc.
  rewrite (buffer_request cfg Hs Hb).
  destruct (kernel (SysMemalign 8192 (block_sectors cfg * SECTOR_SIZE)) (world s))
    as [rm w] eqn:K.
  match goal with
  | |- context [bind (bind (call kernel ?c) ?f) ?g s] =>
      assert (Em : bind (call kernel c) f s
                   = ([Sys c rm],
                      mk_St w (start_time s) (now_time s) (end_time s),
                      Done (if ret rm =? 0
                            then match data rm with Val p => p | _ => 0 end
                            else 0)))
        by now rewrite (bind_call kernel _ _ _ _ _ K)
  end.
  rewrite (bind_done _ _ _ _ _ _ Em). cbn [trace fst app].
  intros Hi. eexists rm, _, a. split; [reflexivity|]. split; [|exact Ha].
  now inversion Hi.
Qed.

(** A fix of a device of 20 sectors with a bad sector, in chunks of 8. *)
Lemma rw_sectors_terminates_witness :
  let s := init_St (Sim.device 20 [3] [] []) in
  _randomize cfg8 = false /\ sane cfg8 /\ block_sectors cfg8 < 2 ^ 22 /\
  0 <= 20 < 2 ^ 55 /\ (Z.to_nat 20 < 21)%nat /\
  exists rm rest a,
    trace (rw_sectors Sim.kernel cfg8 21 "/dev/sdb" 0 20 DEV_FIX s)
    = Sys (SysMemalign 8192 (block_sectors cfg8 * SECTOR_SIZE)) rm :: rest /\
    Forall (within_buffer (block_sectors cfg8 * SECTOR_SIZE)) rest /\
    result (rw_sectors Sim.kernel cfg8 21 "/dev/sdb" 0 20 DEV_FIX s) = Done a.
Proof.
  intros s.
  assert (H1 : _randomize cfg8 = false) by reflexivity.
  assert (H2 : sane cfg8) by (unfold sane; cbn; lia).
  assert (H3 : block_sectors cfg8 < 2 ^ 22) by (cbn; lia).
  assert (H4 : 0 <= 20 < 2 ^ 55) by lia.
  assert (H5 : (Z.to_nat 20 < 21)%nat) by lia.
  split; [exact H1|]. split; [exact H2|]. split; [exact H3|].
  split; [exact H4|]. split; [exact H5|].
  exact (rw_sectors_terminates Sim.dev Sim.kernel cfg8 21%nat "/dev/sdb" 20
           DEV_FIX s H1 H2 H3 H4 H5).
Defined.

(* ================================================================== *)
(** * A fix of a device that has shrunk *)
(* ================================================================== *)

